(** * Aircraft fleet maintenance optimizer: [optimizer.generate_schedule]

    A shallow embedding of [src/optimizer.py].  The function builds a CP-SAT
    model (one start day and one duration per aircraft, a boolean per
    aircraft and day, reified links and a daily capacity constraint), asks
    the solver for an assignment, then walks the fleet once more to allocate
    parts from a working copy of the inventory and to emit the schedule rows.

    The constraint solver, the random generator and the wall clock are the
    three things the function does not own; they are passed in explicitly. *)

From Stdlib Require Import ZArith QArith Qround Qpower SpecFloat Lia Lqa.
From stdpp Require Import base gmap strings list pretty.

Local Open Scope Z_scope.

(** ** Exceptions and the result monad *)

Inductive exn : Type :=
  | KeyError
  | ValueError
  | ZeroDivisionError
  | RuntimeError (msg : string).

Inductive result (A : Type) : Type :=
  | Raise (e : exn)
  | Return (a : A).
Arguments Raise {A} e.
Arguments Return {A} a.

#[global] Instance result_ret : MRet result := fun A a => Return a.
#[global] Instance result_bind : MBind result := fun A B f m =>
  match m with
  | Raise e => Raise e
  | Return a => f a
  end.

(** A [for] loop whose body may raise. *)
Fixpoint for_each {S A : Type} (body : S -> A -> result S) (l : list A) (st : S)
  : result S :=
  match l with
  | [] => Return st
  | x :: l' => st' ← body st x; for_each body l' st'
  end.

(** A dictionary read [m[k]]. *)
Definition getitem `{Countable K} {V : Type} (m : gmap K V) (k : K) : result V :=
  match m !! k with
  | Some v => Return v
  | None => Raise KeyError
  end.

(** [range(n)] *)
Definition range (n : Z) : list Z := seqZ 0 n.

(** ** The part of OR-Tools' [cp_model] that the optimizer uses *)

Module cp_model.

(** A variable is its index in creation order. *)
Abbreviation IntVar := nat (only parsing).

(** [b] or [b.Not()] *)
Inductive Literal : Type :=
  | Lit (b : IntVar)
  | Not (b : IntVar).

(** A sum of variables with integer coefficients. *)
Definition LinearExpr := list (Z * IntVar).

(** [e <= c] and [e > c] *)
Inductive BoundedLinearExpression : Type :=
  | LE (e : LinearExpr) (c : Z)
  | GT (e : LinearExpr) (c : Z).

Inductive ConstraintBody : Type :=
  | Linear (b : BoundedLinearExpression)
  | BoolAnd (ls : list Literal)
  | BoolOr (ls : list Literal).

Record Constraint : Type := {
  body : ConstraintBody;
  enforcement : list Literal
}.

Record CpModel : Type := {
  variables : list (Z * Z);
  constraints : list Constraint;
  objective : option LinearExpr
}.

Definition empty : CpModel :=
  {| variables := []; constraints := []; objective := None |}.

(** The name a variable is created with plays no part in the model and is
    left out. *)
Definition NewIntVar (lb ub : Z) (m : CpModel) : IntVar * CpModel :=
  (length (variables m),
   {| variables := variables m ++ [(lb, ub)];
      constraints := constraints m;
      objective := objective m |}).

Definition NewBoolVar (m : CpModel) : IntVar * CpModel := NewIntVar 0 1 m.

Definition OnlyEnforceIf (c : Constraint) (l : Literal) : Constraint :=
  {| body := body c; enforcement := enforcement c ++ [l] |}.

Definition Add (b : BoundedLinearExpression) : Constraint :=
  {| body := Linear b; enforcement := [] |}.
Definition AddBoolAnd (ls : list Literal) : Constraint :=
  {| body := BoolAnd ls; enforcement := [] |}.
Definition AddBoolOr (ls : list Literal) : Constraint :=
  {| body := BoolOr ls; enforcement := [] |}.

(** Posting a constraint appends it to the model. *)
Definition post (c : Constraint) (m : CpModel) : CpModel :=
  {| variables := variables m;
     constraints := constraints m ++ [c];
     objective := objective m |}.

Definition Minimize (e : LinearExpr) (m : CpModel) : CpModel :=
  {| variables := variables m;
     constraints := constraints m;
     objective := Some e |}.

(** *** Meaning of a model under an assignment *)

Definition Assignment := IntVar -> Z.

Definition eval (sol : Assignment) (e : LinearExpr) : Z :=
  foldr (fun t acc => t.1 * sol t.2 + acc) 0 e.

Definition lit_true (sol : Assignment) (l : Literal) : bool :=
  match l with
  | Lit b => sol b =? 1
  | Not b => sol b =? 0
  end.

Definition body_holds (sol : Assignment) (b : ConstraintBody) : bool :=
  match b with
  | Linear (LE e c) => eval sol e <=? c
  | Linear (GT e c) => eval sol e >? c
  | BoolAnd ls => forallb (lit_true sol) ls
  | BoolOr ls => existsb (lit_true sol) ls
  end.

(** An enforced constraint binds only when all its enforcement literals
    are true. *)
Definition holds (sol : Assignment) (c : Constraint) : bool :=
  implb (forallb (lit_true sol) (enforcement c)) (body_holds sol (body c)).

Definition in_domain (sol : Assignment) (iv : nat * (Z * Z)) : bool :=
  (iv.2.1 <=? sol iv.1) && (sol iv.1 <=? iv.2.2).

Definition feasible (sol : Assignment) (m : CpModel) : bool :=
  forallb (in_domain sol) (imap pair (variables m))
  && forallb (holds sol) (constraints m).

Inductive CpSolverStatus : Type :=
  | UNKNOWN | MODEL_INVALID | FEASIBLE | INFEASIBLE | OPTIMAL.

(** [solver.Solve(model)] followed by [solver.Value(v)]: a status and the
    values the solver holds afterwards. *)
Definition CpSolver := CpModel -> CpSolverStatus * Assignment.

(** What the solver promises: the values it reports under [OPTIMAL] or
    [FEASIBLE] satisfy every domain and every constraint. *)
Definition sound (Solve : CpSolver) : Prop :=
  forall m, (Solve m).1 = OPTIMAL \/ (Solve m).1 = FEASIBLE ->
            feasible (Solve m).2 m = true.

End cp_model.
Import cp_model.

(** ** Input tables *)

(** A row of the [fleet] table. *)
Record Aircraft : Type := {
  aircraft_id : string;
  flight_hours : Z;
  maint_interval_hours : Z;
  last_maintenance_date : string;
  hours_since_last_maintenance : Z;
  hours_until_due : Z
}.

(** Planning parameters (the tunable module constants). *)
Record PlanningParams : Type := {
  PLANNING_HORIZON_DAYS : Z;
  MAINT_DURATION_MIN : Z;
  MAINT_DURATION_MAX : Z;
  CREW_AVAILABLE : Z
}.

Definition module_params : PlanningParams :=
  {| PLANNING_HORIZON_DAYS := 30;
     MAINT_DURATION_MIN := 1;
     MAINT_DURATION_MAX := 2;
     CREW_AVAILABLE := 2 |}.

(** ** Building the model (lines 42-79) *)

Record Builder : Type := {
  model : CpModel;
  start_day : gmap string IntVar;
  duration : gmap string IntVar;
  is_scheduled_on_day : gmap (string * Z) IntVar
}.

Definition builder0 : Builder :=
  {| model := cp_model.empty; start_day := ∅; duration := ∅;
     is_scheduled_on_day := ∅ |}.

Definition with_model (m : CpModel) (st : Builder) : Builder :=
  {| model := m; start_day := start_day st; duration := duration st;
     is_scheduled_on_day := is_scheduled_on_day st |}.

Section Build.
Variable P : PlanningParams.
Let horizon := PLANNING_HORIZON_DAYS P.

(** Lines 54-55. *)
Definition declare_aircraft (aid : string) (st : Builder) : Builder :=
  let '(s, m) := NewIntVar 0 (horizon - 1) (model st) in
  let '(du, m) := NewIntVar (MAINT_DURATION_MIN P) (MAINT_DURATION_MAX P) m in
  {| model := m;
     start_day := <[aid := s]> (start_day st);
     duration := <[aid := du]> (duration st);
     is_scheduled_on_day := is_scheduled_on_day st |}.

(** Line 57. *)
Definition declare_day (aid : string) (st : Builder) (d : Z) : result Builder :=
  let '(b, m) := NewBoolVar (model st) in
  Return {| model := m; start_day := start_day st; duration := duration st;
            is_scheduled_on_day := <[(aid, d) := b]> (is_scheduled_on_day st) |}.

(** Lines 61-74. *)
Definition link_day (aid : string) (st : Builder) (d : Z) : result Builder :=
  let '(before, m) := NewBoolVar (model st) in
  let '(after, m) := NewBoolVar m in
  s ← getitem (start_day st) aid;
  let m := post (OnlyEnforceIf (Add (LE [(1, s)] d)) (Lit before)) m in
  s ← getitem (start_day st) aid;
  let m := post (OnlyEnforceIf (Add (GT [(1, s)] d)) (Not before)) m in
  s ← getitem (start_day st) aid;
  du ← getitem (duration st) aid;
  let m := post (OnlyEnforceIf (Add (GT [(1, s); (1, du)] d)) (Lit after)) m in
  s ← getitem (start_day st) aid;
  du ← getitem (duration st) aid;
  let m := post (OnlyEnforceIf (Add (LE [(1, s); (1, du)] d)) (Not after)) m in
  on ← getitem (is_scheduled_on_day st) (aid, d);
  let m := post (OnlyEnforceIf (AddBoolAnd [Lit before; Lit after]) (Lit on)) m in
  on ← getitem (is_scheduled_on_day st) (aid, d);
  let m := post (OnlyEnforceIf (AddBoolOr [Not before; Not after]) (Not on)) m in
  Return (with_model m st).

(** One turn of the loop of line 53. *)
Definition add_aircraft (st : Builder) (aid : string) : result Builder :=
  let st := declare_aircraft aid st in
  st ← for_each (declare_day aid) (range horizon) st;
  for_each (link_day aid) (range horizon) st.

(** Lines 78-79: the sum over the fleet's booleans is bounded by
    [CREW_AVAILABLE].  For an empty fleet the Python sum is the integer [0]
    and OR-Tools is handed the truth value of [0 <= CREW_AVAILABLE], which it
    records as a constant; the row posted here has the same solutions.  A
    bound that does not fit [int64], which OR-Tools refuses when the fleet is
    not empty, is not modelled. *)
Definition add_capacity (aircraft_list : list string) (st : Builder) (d : Z)
  : result Builder :=
  ons ← mapM (fun aid => getitem (is_scheduled_on_day st) (aid, d)) aircraft_list;
  Return (with_model
            (post (Add (LE ((fun b => (1, b)) <$> ons) (CREW_AVAILABLE P)))
                  (model st)) st).

Definition build_constraints (aircraft_list : list string) : result Builder :=
  st ← for_each add_aircraft aircraft_list builder0;
  for_each (add_capacity aircraft_list) (range horizon) st.

End Build.

(** ** Python's [float] arithmetic

    A finite binary64 number is modelled by the rational it denotes.  Every
    operation is the exact operation followed by rounding to the nearest
    number with a 53-bit significand, ties to even.  The exponent is left
    unbounded, so overflow to infinity and gradual underflow are not
    modelled: quotients and products of 64-bit integers, which is what the
    weights are made of, stay far inside the normal range, and unit costs
    are taken to do so too. *)

Module float.

Definition t := Q.

Definition pow2 (e : Z) : Q := (2 ^ e)%Q.

(** [floor (log2 x)] for [0 < x]. *)
Definition ilog2 (x : Q) : Z :=
  let k := Z.log2 (Qnum x) - Z.log2 (Zpos (Qden x)) in
  if Qle_bool (pow2 k) x then k else k - 1.

(** Nearest integer, ties to even. *)
Definition rne (x : Q) : Z :=
  let f := Qfloor x in
  match (x - inject_Z f ?= 1 # 2)%Q with
  | Lt => f
  | Gt => f + 1
  | Eq => if Z.even f then f else f + 1
  end.

(** Rounding of a positive rational to 53 significant bits. *)
Definition round_pos (x : Q) : Q :=
  let e := ilog2 x - 52 in
  (inject_Z (rne (x * pow2 (- e))) * pow2 e)%Q.

Definition round (x : Q) : t :=
  match Qnum x with
  | Z0 => 0%Q
  | Zpos _ => round_pos x
  | Zneg _ => (- round_pos (- x))%Q
  end.

(** [float(z)] *)
Definition of_int (z : Z) : t := round (inject_Z z).

(** [a / b] on two [int]s: the correctly rounded quotient. *)
Definition truediv (a b : Z) : result t :=
  if b =? 0 then Raise ZeroDivisionError
  else Return (round (inject_Z a / inject_Z b)).

(** [x * y] on two [float]s. *)
Definition mul (x y : t) : t := round (x * y).

(** [int(x)]: truncation towards zero. *)
Definition to_int (x : t) : Z := Z.quot (Qnum x) (Zpos (Qden x)).

End float.

(** ** The objective (lines 81-94) *)

(** [fleet_df["hours_until_due"].max()] on a frame with at least one row. *)
Definition column_max (l : list Z) : Z :=
  match l with
  | [] => 0
  | h :: t => foldl Z.max h t
  end.

(** Line 83. *)
Definition max_hours_of (fleet_df : list Aircraft) : Z :=
  if bool_decide (length fleet_df = 0%nat) then 1
  else column_max (hours_until_due <$> fleet_df).

(** Line 90. *)
Definition weight_of (max_hours urgency : Z) : result Z :=
  ratio ← float.truediv (max_hours - urgency) max_hours;
  Return (Z.max 1 (float.to_int (float.mul ratio (float.of_int 100)))).

(** Lines 85-91, one row. *)
Definition add_weight (max_hours : Z) (weights : gmap string Z) (row : Aircraft)
  : result (gmap string Z) :=
  let aid := aircraft_id row in
  let urgency := hours_until_due row in
  weight ← weight_of max_hours urgency;
  Return (<[aid := weight]> weights).

Definition compute_weights (fleet_df : list Aircraft) : result (gmap string Z) :=
  for_each (add_weight (max_hours_of fleet_df)) fleet_df ∅.

(** The summand [start_day[aid] * weights[aid]] of line 94. *)
Definition objective_term (st : Builder) (weights : gmap string Z) (aid : string)
  : result (Z * IntVar) :=
  s ← getitem (start_day st) aid;
  w ← getitem weights aid;
  Return (w, s).

(** Lines 42-94: the whole model.  The objective is kept as the summands of
    line 94, one per fleet row; OR-Tools adds up the coefficients of summands
    on the same variable, which leaves the objective's value as it is. *)
Definition build_model (P : PlanningParams) (fleet_df : list Aircraft)
  : result Builder :=
  let aircraft_list := aircraft_id <$> fleet_df in
  st ← build_constraints P aircraft_list;
  weights ← compute_weights fleet_df;
  terms ← mapM (objective_term st weights) aircraft_list;
  Return (with_model (Minimize terms (model st)) st).

(** ** Part allocation and emission (lines 105-161) *)

(** A row of the [parts_inventory] table. *)
Record Part : Type := {
  part_id : string;
  description : string;
  lead_time_days : Z;
  unit_cost : float.t;
  quantity_on_hand : Z
}.

Definition set_quantity_on_hand (q : Z) (p : Part) : Part :=
  {| part_id := part_id p; description := description p;
     lead_time_days := lead_time_days p; unit_cost := unit_cost p;
     quantity_on_hand := q |}.

(** A row of the returned frame. *)
Record MaintenanceTask : Type := {
  task_aircraft_id : string;
  schedule_start : Z;
  schedule_end : Z;
  task_part_id : option string;
  part_quantity : Z;
  cost : float.t;
  status : string
}.

(** The [random] module: the generator is a stream of raw draws and a
    position in it; [randint a b] maps the next draw into [a..b] and
    raises on an empty range. *)
Record Random : Type := {
  entropy : nat -> Z;
  drawn : nat
}.

Definition randint (a b : Z) (g : Random) : result (Z * Random) :=
  if b <? a then Raise ValueError
  else Return (a + entropy g (drawn g) mod (b - a + 1),
               {| entropy := entropy g; drawn := S (drawn g) |}).

(** The wall clock: the calendar day (as a day number) seen by each
    successive [pd.Timestamp.now().normalize()]. *)
Record Clock : Type := {
  day_at : nat -> Z;
  reads : nat
}.

Definition now_normalize (c : Clock) : Z * Clock :=
  (day_at c (reads c), {| day_at := day_at c; reads := S (reads c) |}).

(** [sort_values("quantity_on_hand", ascending=False)]: insertion of a row in
    front of the first row that does not hold more.  The order pandas gives
    to rows holding the same quantity is not fixed by its default sort;
    nothing below depends on it. *)
Fixpoint insert_desc (p : Part) (l : list Part) : list Part :=
  match l with
  | [] => [p]
  | q :: l' =>
      if quantity_on_hand q <=? quantity_on_hand p then p :: q :: l'
      else q :: insert_desc p l'
  end.

Definition sort_values_desc (parts_df : list Part) : list Part :=
  foldr insert_desc [] parts_df.

(** What the allocation loop mutates. *)
Record Inventory : Type := {
  parts_copy : list Part;
  part_idx : nat;
  total_parts_available : Z;
  random : Random
}.

(** [(part_id, part_quantity, cost)] *)
Definition Allocation : Type := option string * Z * float.t.

(** Lines 119-121. *)
Definition unallocated : Allocation := (None, 0, 0%Q).

(** [a % b] *)
Definition pymod (a b : nat) : result nat :=
  if bool_decide (b = 0%nat) then Raise ZeroDivisionError
  else Return (a mod b)%nat.

(** [parts_copy.loc[i]] *)
Definition loc (l : list Part) (i : nat) : result Part :=
  match l !! i with
  | Some p => Return p
  | None => Raise KeyError
  end.

(** The [while] loop of lines 127-147.  [remaining] is
    [len(parts_copy) - attempts]: the loop is left when it reaches zero or as
    soon as a part is allocated. *)
Fixpoint probe (remaining : nat) (inv : Inventory) : result (Allocation * Inventory) :=
  match remaining with
  | O => Return (unallocated, inv)
  | S remaining' =>
      let n := length (parts_copy inv) in
      let idx := if bool_decide (n <= part_idx inv)%nat then 0%nat else part_idx inv in
      prow ← loc (parts_copy inv) idx;
      let avail := quantity_on_hand prow in
      if 0 <? avail then
        '(quantity, g) ← randint 1 (Z.min 3 avail) (random inv);
        let unit := unit_cost prow in
        let c := float.mul unit (float.of_int quantity) in
        idx' ← pymod (idx + 1) n;
        Return ((Some (part_id prow), quantity, c),
                {| parts_copy :=
                     <[idx := set_quantity_on_hand (avail - quantity) prow]>
                       (parts_copy inv);
                   part_idx := idx';
                   total_parts_available := total_parts_available inv - quantity;
                   random := g |})
      else
        idx' ← pymod (idx + 1) n;
        probe remaining'
              {| parts_copy := parts_copy inv;
                 part_idx := idx';
                 total_parts_available := total_parts_available inv;
                 random := random inv |}
  end.

(** Lines 118-148. *)
Definition allocate (inv : Inventory) : result (Allocation * Inventory) :=
  if (0 <? total_parts_available inv)
     && negb (bool_decide (parts_copy inv = []))
  then probe (length (parts_copy inv)) inv
  else Return (unallocated, inv).

(** Lines 108-112.  The sum of line 112 is taken exactly.  pandas adds the
    [int64] column modulo [2^64], which is the same number as long as the
    exact sum lies within [int64]; what is proved about the counter itself
    says so. *)
Definition inventory0 (parts_df : list Part) (g : Random) : Inventory :=
  let sorted := sort_values_desc parts_df in
  {| parts_copy := sorted;
     part_idx := 0;
     total_parts_available :=
       if bool_decide (sorted = []) then 0
       else foldr Z.add 0 (quantity_on_hand <$> sorted);
     random := g |}.

Record Emitter : Type := {
  schedule_rows : list MaintenanceTask;
  inventory : Inventory;
  clock : Clock
}.

(** One turn of the loop of line 114. *)
Definition schedule_row (st : Builder) (Value : Assignment)
    (em : Emitter) (row : Aircraft) : result Emitter :=
  let aid := aircraft_id row in
  sv ← getitem (start_day st) aid;
  let s := Value sv in
  dv ← getitem (duration st) aid;
  let dur := Value dv in
  '(part_id, part_quantity, cost, inv) ← allocate (inventory em);
  let '(today, c) := now_normalize (clock em) in
  let '(today', c) := now_normalize c in
  Return {| schedule_rows :=
              schedule_rows em ++
                [{| task_aircraft_id := aid;
                    schedule_start := today + s;
                    schedule_end := today' + (s + dur);
                    task_part_id := part_id;
                    part_quantity := part_quantity;
                    cost := cost;
                    status := "SCHEDULED" |}];
            inventory := inv;
            clock := c |}.

Definition emitter0 (parts_df : list Part) (g : Random) (c : Clock) : Emitter :=
  {| schedule_rows := []; inventory := inventory0 parts_df g; clock := c |}.

(** Lines 97-103: [status not in (OPTIMAL, FEASIBLE)]. *)
Definition solved (status : CpSolverStatus) : bool :=
  match status with
  | OPTIMAL | FEASIBLE => true
  | _ => false
  end.

(** Lines 105-161, after a successful solve. *)
Definition emit (st : Builder) (Value : Assignment) (fleet_df : list Aircraft)
    (parts_df : list Part) (g : Random) (c : Clock) : result Emitter :=
  for_each (schedule_row st Value) fleet_df (emitter0 parts_df g c).

Definition generate_schedule (P : PlanningParams) (Solve : CpSolver)
    (g : Random) (c : Clock) (fleet_df : list Aircraft) (parts_df : list Part)
  : result (list MaintenanceTask) :=
  st ← build_model P fleet_df;
  let '(status, Value) := Solve (model st) in
  if negb (solved status) then Raise (RuntimeError "No feasible solution found")
  else
    em ← emit st Value fleet_df parts_df g c;
    Return (schedule_rows em).

(** ** Fixtures for the worked examples *)

(** A solver that only checks a proposed assignment. *)
Definition checking_solver (candidate : Assignment) : CpSolver :=
  fun m =>
    if feasible candidate m then (FEASIBLE, candidate)
    else (UNKNOWN, candidate).

(** The assignment that gives the [k]-th aircraft of a fleet the
    [(start, duration)] pair number [k] of [plan], following the order in
    which the builder creates its variables: per aircraft a start, a duration,
    one boolean per day, then a [before]/[after] pair per day. *)
Definition plan_assignment (horizon : Z) (plan : list (Z * Z)) : Assignment :=
  fun v =>
    let block := 2 + 3 * horizon in
    let k := Z.of_nat v / block in
    let r := Z.of_nat v mod block in
    let '(s, du) := plan !!! Z.to_nat k in
    if r =? 0 then s
    else if r =? 1 then du
    else if r <? 2 + horizon
         then (if (s <=? r - 2) && (r - 2 <? s + du) then 1 else 0)
    else let j := r - 2 - horizon in
         if Z.even j then (if s <=? j / 2 then 1 else 0)
         else (if s + du >? j / 2 then 1 else 0).

Definition aircraft (id : string) (hours : Z) : Aircraft :=
  {| aircraft_id := id; flight_hours := 0; maint_interval_hours := 0;
     last_maintenance_date := "2024-01-01"; hours_since_last_maintenance := 0;
     hours_until_due := hours |}.

Definition part (id : string) (unit : float.t) (quantity : Z) : Part :=
  {| part_id := id; description := "critical part"; lead_time_days := 1;
     unit_cost := unit; quantity_on_hand := quantity |}.

(** Three aircraft with 10, 500 and 50 hours left. *)
Definition fleet_A : list Aircraft :=
  [aircraft "AIR-1001" 10; aircraft "AIR-1002" 500; aircraft "AIR-1003" 50].

Definition parts_A : list Part :=
  [part "PART-101" (5 # 2) 2; part "PART-102" 100%Q 5].

Definition plan_A : Assignment := plan_assignment 30 [(0, 1); (1, 1); (0, 1)].

Definition random_A : Random :=
  {| entropy := fun n => Z.of_nat n * 7; drawn := 0 |}.

(** A clock that stays on day 1000, and one that passes midnight after its
    first reading. *)
Definition clock_A : Clock := {| day_at := fun _ => 1000; reads := 0 |}.

Definition clock_midnight : Clock :=
  {| day_at := fun n => if bool_decide (n = 0%nat) then 1000 else 1001;
     reads := 0 |}.

(** The model built for [fleet_A] under the module's parameters. *)
Definition built_A : Builder :=
  Eval vm_compute in
    match build_model module_params fleet_A with
    | Return st => st
    | Raise _ => builder0
    end.

(** Two aircraft with 1 and 3 hours left. *)
Definition fleet_B : list Aircraft :=
  [aircraft "AIR-1001" 1; aircraft "AIR-1002" 3].

(** A horizon of two days with maintenance lasting exactly three, and the
    same horizon with a minimum of three days above the maximum of two. *)
Definition params_long : PlanningParams :=
  {| PLANNING_HORIZON_DAYS := 2; MAINT_DURATION_MIN := 3;
     MAINT_DURATION_MAX := 3; CREW_AVAILABLE := 2 |}.

Definition params_D : PlanningParams :=
  {| PLANNING_HORIZON_DAYS := 2; MAINT_DURATION_MIN := 3;
     MAINT_DURATION_MAX := 2; CREW_AVAILABLE := 2 |}.

Definition fleet_one : list Aircraft := [aircraft "AIR-1001" 10].

Definition plan_long : Assignment := plan_assignment 2 [(0, 3)].

(** The model built for [fleet_one] when no duration is allowed. *)
Definition built_D : Builder :=
  Eval vm_compute in
    match build_model params_D fleet_one with
    | Return st => st
    | Raise _ => builder0
    end.

(** The schedule returned for [fleet_A] and [parts_A]. *)
Definition rows_A : list MaintenanceTask :=
  Eval vm_compute in
    match generate_schedule module_params (checking_solver plan_A) random_A
            clock_A fleet_A parts_A with
    | Return rows => rows
    | Raise _ => []
    end.

(** ** Reading a built model *)

Definition has_var (m : CpModel) (v : IntVar) (lb ub : Z) : Prop :=
  variables m !! v = Some (lb, ub).

Definition posted (m : CpModel) (c : Constraint) : Prop :=
  c ∈ constraints m.

(** A model grows by appending variables and constraints. *)
Definition extends (m m' : CpModel) : Prop :=
  variables m `prefix_of` variables m' /\
  constraints m `prefix_of` constraints m'.

(** The six reified constraints of lines 65-74, for one aircraft and one
    day. *)
Definition link_constraints (s du on before after : IntVar) (d : Z)
  : list Constraint :=
  [ OnlyEnforceIf (Add (LE [(1, s)] d)) (Lit before);
    OnlyEnforceIf (Add (GT [(1, s)] d)) (Not before);
    OnlyEnforceIf (Add (GT [(1, s); (1, du)] d)) (Lit after);
    OnlyEnforceIf (Add (LE [(1, s); (1, du)] d)) (Not after);
    OnlyEnforceIf (AddBoolAnd [Lit before; Lit after]) (Lit on);
    OnlyEnforceIf (AddBoolOr [Not before; Not after]) (Not on) ].

Definition linked_day (st : Builder) (aid : string) (s du : IntVar) (d : Z)
  : Prop :=
  exists on before after,
    is_scheduled_on_day st !! (aid, d) = Some on /\
    has_var (model st) on 0 1 /\
    has_var (model st) before 0 1 /\
    has_var (model st) after 0 1 /\
    Forall (posted (model st)) (link_constraints s du on before after d).

Definition linked (P : PlanningParams) (st : Builder) (aid : string) : Prop :=
  exists s du,
    start_day st !! aid = Some s /\
    duration st !! aid = Some du /\
    has_var (model st) s 0 (PLANNING_HORIZON_DAYS P - 1) /\
    has_var (model st) du (MAINT_DURATION_MIN P) (MAINT_DURATION_MAX P) /\
    forall d, d ∈ range (PLANNING_HORIZON_DAYS P) -> linked_day st aid s du d.

(** The capacity row of line 79 for day [d]. *)
Definition capacity_posted (P : PlanningParams) (st : Builder)
    (aircraft_list : list string) (d : Z) : Prop :=
  exists ons,
    Forall2 (fun aid on => is_scheduled_on_day st !! (aid, d) = Some on)
            aircraft_list ons /\
    posted (model st) (Add (LE ((fun b => (1, b)) <$> ons) (CREW_AVAILABLE P))).

(** The window read back for an aircraft: [solver.Value(start_day[aid])] and
    [solver.Value(duration[aid])]. *)
Definition window_contains (st : Builder) (Value : Assignment) (aid : string)
    (d : Z) : Prop :=
  exists s du,
    start_day st !! aid = Some s /\ duration st !! aid = Some du /\
    Value s <= d < Value s + Value du.

(** The window an aircraft is given by the solver. *)
Definition in_window (s dur d : Z) : bool := (s <=? d) && (d <? s + dur).

Definition count_if {A : Type} (f : A -> bool) (l : list A) : Z :=
  foldr (fun x acc => (if f x then 1 else 0) + acc) 0 l.

(** ** Reading an allocation *)

Definition alloc_part_id (a : Allocation) : option string := a.1.1.
Definition alloc_quantity (a : Allocation) : Z := a.1.2.
Definition alloc_cost (a : Allocation) : float.t := a.2.

(** The aircraft got [quantity] units of the part [p] found at [idx]. *)
Definition allocated_from (inv : Inventory) (a : Allocation) (inv' : Inventory)
    (idx : nat) (p : Part) : Prop :=
  parts_copy inv !! idx = Some p /\
  1 <= quantity_on_hand p /\
  randint 1 (Z.min 3 (quantity_on_hand p)) (random inv)
    = Return (alloc_quantity a, random inv') /\
  1 <= alloc_quantity a <= Z.min 3 (quantity_on_hand p) /\
  alloc_part_id a = Some (part_id p) /\
  alloc_cost a = float.mul (unit_cost p) (float.of_int (alloc_quantity a)) /\
  parts_copy inv' =
    <[idx := set_quantity_on_hand (quantity_on_hand p - alloc_quantity a) p]>
      (parts_copy inv) /\
  total_parts_available inv' = total_parts_available inv - alloc_quantity a.

(** The aircraft got nothing and the stock is as it was. *)
Definition left_unresourced (inv : Inventory) (a : Allocation) (inv' : Inventory)
  : Prop :=
  a = unallocated /\ parts_copy inv' = parts_copy inv /\
  total_parts_available inv' = total_parts_available inv /\
  random inv' = random inv.

Definition allocation_step (inv : Inventory) (a : Allocation) (inv' : Inventory)
  : Prop :=
  left_unresourced inv a inv' \/ exists idx p, allocated_from inv a inv' idx p.

(** Stock held under one part identifier, and units of it handed out. *)
Definition stock (pid : string) (l : list Part) : Z :=
  foldr (fun p acc =>
           (if bool_decide (part_id p = pid) then quantity_on_hand p else 0) + acc)
        0 l.

Definition consumed (pid : string) (rows : list MaintenanceTask) : Z :=
  foldr (fun t acc =>
           (if bool_decide (task_part_id t = Some pid) then part_quantity t else 0)
           + acc)
        0 rows.

Definition stock_nonneg (l : list Part) : Prop :=
  Forall (fun p => 0 <= quantity_on_hand p) l.

(** ** Reading the returned rows *)

Definition task_allocation (t : MaintenanceTask) : Allocation :=
  (task_part_id t, part_quantity t, cost t).

(** The emitter after the first [i] rows of the fleet. *)
Definition emitter_after (st : Builder) (Value : Assignment)
    (fleet_df : list Aircraft) (parts_df : list Part) (g : Random) (c : Clock)
    (i : nat) : result Emitter :=
  for_each (schedule_row st Value) (take i fleet_df) (emitter0 parts_df g c).

(** The [i]-th row was stamped with readings [2i] and [2i+1] of the clock;
    taking them off its dates gives back the days of its window. *)
Definition row_start_day (c : Clock) (i : nat) (t : MaintenanceTask) : Z :=
  schedule_start t - day_at c (reads c + 2 * i).

Definition row_end_day (c : Clock) (i : nat) (t : MaintenanceTask) : Z :=
  schedule_end t - day_at c (reads c + 2 * i + 1).

Definition occupies (c : Clock) (d : Z) (it : nat * MaintenanceTask) : bool :=
  (row_start_day c it.1 it.2 <=? d) && (d <? row_end_day c it.1 it.2).

(** Aircraft under maintenance on day [d] of the plan. *)
Definition crew_needed (c : Clock) (rows : list MaintenanceTask) (d : Z) : Z :=
  count_if (occupies c d) (imap pair rows).

(** One turn of the loop of line 114, read as a relation. *)
Definition row_emitted (st : Builder) (Value : Assignment) (em : Emitter)
    (row : Aircraft) (em' : Emitter) (t : MaintenanceTask) : Prop :=
  exists s du,
    start_day st !! aircraft_id row = Some s /\
    duration st !! aircraft_id row = Some du /\
    schedule_rows em' = schedule_rows em ++ [t] /\
    task_aircraft_id t = aircraft_id row /\
    schedule_start t = day_at (clock em) (reads (clock em)) + Value s /\
    schedule_end t =
      day_at (clock em) (S (reads (clock em))) + (Value s + Value du) /\
    status t = "SCHEDULED" /\
    allocation_step (inventory em) (task_allocation t) (inventory em') /\
    day_at (clock em') = day_at (clock em) /\
    reads (clock em') = S (S (reads (clock em))) /\
    allocate (inventory em) = Return (task_allocation t, inventory em').

(** ** The weight, as computed and as specified *)

(** Line 90 when the division is defined. *)
Definition truncated_weight (max_hours urgency : Z) : Z :=
  Z.max 1 (float.to_int
             (float.mul
                (float.round (inject_Z (max_hours - urgency) / inject_Z max_hours))
                (float.of_int 100))).

(** The specification's maximum: the largest [hours_until_due], or one when
    the fleet is empty or every value is zero. *)
Definition spec_max_hours (fleet_df : list Aircraft) : Z :=
  if bool_decide (fleet_df = [])
     || forallb (fun a => hours_until_due a =? 0) fleet_df
  then 1
  else column_max (hours_until_due <$> fleet_df).

(** The specification's weight:
    [max(1, round(((max - hours) / max) * 100))] in exact arithmetic. *)
Definition spec_weight (max_hours urgency : Z) : Z :=
  Z.max 1 (float.rne (inject_Z (max_hours - urgency) / inject_Z max_hours * 100)).

(** The sum [sum(start_day[aid] * weights[aid] for aid in aircraft_list)]
    under an assignment. *)
Definition weighted_start_days (st : Builder) (weights : gmap string Z)
    (Value : Assignment) (fleet_df : list Aircraft) : Z :=
  foldr (fun a acc =>
           Value (start_day st !!! aircraft_id a) * (weights !!! aircraft_id a)
           + acc)
        0 fleet_df.

(** What a returned row records of its allocation, between the inventory
    before its turn and the inventory after it. *)
Definition unresourced (inv : Inventory) (t : MaintenanceTask) (inv' : Inventory)
  : Prop :=
  task_part_id t = None /\ part_quantity t = 0 /\ cost t = 0%Q /\
  parts_copy inv' = parts_copy inv /\
  (total_parts_available inv <= 0 \/
   Forall (fun p => quantity_on_hand p <= 0) (parts_copy inv)).

Definition resourced (inv : Inventory) (t : MaintenanceTask) (inv' : Inventory)
  : Prop :=
  exists idx p,
    parts_copy inv !! idx = Some p /\
    task_part_id t = Some (part_id p) /\
    1 <= part_quantity t <= Z.min 3 (quantity_on_hand p) /\
    cost t = float.mul (unit_cost p) (float.of_int (part_quantity t)) /\
    parts_copy inv' =
      <[idx := set_quantity_on_hand (quantity_on_hand p - part_quantity t) p]>
        (parts_copy inv) /\
    (exists p',
       parts_copy inv' !! idx = Some p' /\
       quantity_on_hand p' = quantity_on_hand p - part_quantity t /\
       quantity_on_hand p' < quantity_on_hand p /\
       part_id p' = part_id p /\ description p' = description p /\
       lead_time_days p' = lead_time_days p /\ unit_cost p' = unit_cost p) /\
    (forall j, j <> idx -> parts_copy inv' !! j = parts_copy inv !! j) /\
    length (parts_copy inv') = length (parts_copy inv) /\
    total_parts_available inv'
    = total_parts_available inv - part_quantity t.

(** The draw behind an allocation: none when nothing was allocated, else one
    [randint(1, min(3, avail))] on a part holding at least one unit. *)
Definition drawn_from (inv : Inventory) (a : Allocation) (inv' : Inventory)
  : Prop :=
  match alloc_part_id a with
  | None => random inv' = random inv
  | Some _ =>
      exists idx p,
        parts_copy inv !! idx = Some p /\
        1 <= quantity_on_hand p /\
        randint 1 (Z.min 3 (quantity_on_hand p)) (random inv)
          = Return (alloc_quantity a, random inv') /\
        1 <= alloc_quantity a <= 3
  end.

(** ** Reading the builder between two points of the loops *)

(** The builder's dictionaries are untouched and its model has grown. *)
Definition same_dicts (st st' : Builder) : Prop :=
  start_day st' = start_day st /\ duration st' = duration st /\
  is_scheduled_on_day st' = is_scheduled_on_day st /\
  extends (model st) (model st').

Definition declared (aid : string) (st : Builder) (d : Z) : Prop :=
  exists on, is_scheduled_on_day st !! (aid, d) = Some on /\
             has_var (model st) on 0 1.

Definition declares (aid : string) (st st' : Builder) : Prop :=
  start_day st' = start_day st /\ duration st' = duration st /\
  extends (model st) (model st') /\
  (forall aid' d, aid' <> aid ->
     is_scheduled_on_day st' !! (aid', d) = is_scheduled_on_day st !! (aid', d)) /\
  (forall d, declared aid st d -> declared aid st' d).


(** ** The Standard Library's binary64, for comparison *)

Definition b64_of_int (z : Z) : spec_float := binary_normalize 53 1024 z 0 false.

Definition b64_value (x : spec_float) : Q :=
  match x with
  | S754_finite s m e =>
      (inject_Z (if s then Z.neg m else Z.pos m) * float.pow2 e)%Q
  | _ => 0%Q
  end.

(** Line 90 computed with [SFdiv] and [SFmul]. *)
Definition b64_weight (max_hours urgency : Z) : Z :=
  Z.max 1 (float.to_int
             (b64_value
                (SFmul 53 1024
                   (SFdiv 53 1024 (b64_of_int (max_hours - urgency))
                                  (b64_of_int max_hours))
                   (b64_of_int 100)))).

Definition weights_agree_upto (n : Z) : bool :=
  forallb (fun m =>
             forallb (fun h => b64_weight m h =? truncated_weight m h)
                     (seqZ 0 (m + 1)))
          (seqZ 1 n).

(** ** Further readings of the inventory and of the returned rows *)

(** All units held by a frame of parts. *)
Definition total_stock (l : list Part) : Z :=
  foldr Z.add 0 (quantity_on_hand <$> l).

(** All units named by a schedule ([df["part_quantity"].sum()]). *)
Definition parts_handed_out (rows : list MaintenanceTask) : Z :=
  foldr Z.add 0 (part_quantity <$> rows).

(** The position the probing loop reads first: the cursor, wrapped. *)
Definition cursor (inv : Inventory) : nat :=
  if bool_decide (length (parts_copy inv) <= part_idx inv)%nat then 0%nat
  else part_idx inv.

(** [total_parts_available] is the sum of the working copy. *)
Definition total_tracked (inv : Inventory) : Prop :=
  total_parts_available inv = total_stock (parts_copy inv).

Definition is_unresourced (t : MaintenanceTask) : Prop :=
  task_part_id t = None /\ part_quantity t = 0 /\ cost t = 0%Q.

(** An inventory of two units of one part, and the schedule of [fleet_A]
    served from it. *)
Definition parts_scarce : list Part := [part "PART-101" (5 # 2) 2].

Definition rows_scarce : list MaintenanceTask :=
  Eval vm_compute in
    match generate_schedule module_params (checking_solver plan_A) random_A
            clock_A fleet_A parts_scarce with
    | Return rows => rows
    | Raise _ => []
    end.

(** The allocation columns of a schedule. *)
Definition allocations (rows : list MaintenanceTask) : list Allocation :=
  task_allocation <$> rows.

(** The schedule of [fleet_A] when midnight passes during the run. *)
Definition rows_A_late : list MaintenanceTask :=
  Eval vm_compute in
    match generate_schedule module_params (checking_solver plan_A) random_A
            clock_midnight fleet_A parts_A with
    | Return rows => rows
    | Raise _ => []
    end.

(** The quantities of an inventory, largest first. *)
Definition descending_quantities (parts_df : list Part) : list Z :=
  quantity_on_hand <$> sort_values_desc parts_df.

(** The probing loop took the part at [idx], [k] positions after the
    cursor, having read no positive stock on the way, and left the cursor on
    the position after it. *)
Definition first_fit (inv : Inventory) (a : Allocation) (inv' : Inventory)
    (k idx : nat) (p : Part) : Prop :=
  let n := length (parts_copy inv) in
  idx = ((cursor inv + k) mod n)%nat /\
  allocated_from inv a inv' idx p /\
  (forall j, (j < k)%nat ->
     exists q, parts_copy inv !! ((cursor inv + j) mod n)%nat = Some q /\
               quantity_on_hand q <= 0) /\
  part_idx inv' = ((idx + 1) mod n)%nat.

(** An inventory whose cursor stands on a part that is out of stock. *)
Definition inventory_W : Inventory :=
  {| parts_copy := [part "PART-101" (5 # 2) 4; part "PART-102" 100%Q 0];
     part_idx := 1;
     total_parts_available := 4;
     random := random_A |}.

Definition step_W : Allocation * Inventory :=
  Eval vm_compute in
    match allocate inventory_W with
    | Return r => r
    | Raise _ => (unallocated, inventory_W)
    end.

(** The first [i] turns went through the first [i] positions of the sorted
    inventory and left the others as they were. *)
Definition first_pass (sorted : list Part) (i : nat) (inv : Inventory) : Prop :=
  length (parts_copy inv) = length sorted /\
  ((i < length sorted)%nat -> part_idx inv = i) /\
  (forall j, (i <= j)%nat -> parts_copy inv !! j = sorted !! j) /\
  stock_nonneg (parts_copy inv) /\
  total_tracked inv.

(** How many rows of the fleet carry the identifier [aid]. *)
Definition rows_named (aid : string) (fleet_df : list Aircraft) : Z :=
  count_if (fun x => bool_decide (x = aid)) (aircraft_id <$> fleet_df).

(** The outcome of a run whose model no assignment satisfies: the division
    of line 90 comes first, the solve step after it. *)
Definition fails_unsolved (fleet_df : list Aircraft) : result (list MaintenanceTask) :=
  Raise (if bool_decide (max_hours_of fleet_df = 0) then ZeroDivisionError
         else RuntimeError "No feasible solution found").

(** Three rows for one aircraft, and two aircraft for a one-day plan with a
    single crew. *)
Definition fleet_thrice : list Aircraft :=
  [aircraft "AIR-1001" 10; aircraft "AIR-1001" 500; aircraft "AIR-1001" 50].

Definition params_one_day : PlanningParams :=
  {| PLANNING_HORIZON_DAYS := 1; MAINT_DURATION_MIN := 1;
     MAINT_DURATION_MAX := 2; CREW_AVAILABLE := 1 |}.

Definition fleet_two : list Aircraft :=
  [aircraft "AIR-1001" 10; aircraft "AIR-1002" 500].

(** A list of quantities that never grows. *)
Definition descending (l : list Part) : Prop :=
  forall i j p q, (i <= j)%nat -> l !! i = Some p -> l !! j = Some q ->
                  quantity_on_hand q <= quantity_on_hand p.

(** Two rows for one aircraft, and a plan for them: the variables of the
    second row are the ones the dictionaries keep. *)
Definition fleet_twice : list Aircraft :=
  [aircraft "AIR-1001" 10; aircraft "AIR-1001" 500].

Definition plan_twice : Assignment := plan_assignment 30 [(0, 1); (5, 1)].

Definition rows_twice : list MaintenanceTask :=
  Eval vm_compute in
    match generate_schedule module_params (checking_solver plan_twice)
            random_A clock_A fleet_twice parts_A with
    | Return rows => rows
    | Raise _ => []
    end.

(** A plan with a day but no crew. *)
Definition params_no_crew : PlanningParams :=
  {| PLANNING_HORIZON_DAYS := 1; MAINT_DURATION_MIN := 1;
     MAINT_DURATION_MAX := 2; CREW_AVAILABLE := -1 |}.

(** * Simulated input tables: [src/data_sim.py]

    [generate_fleet] and [generate_parts_inventory] draw the two tables the
    optimizer reads.  numpy's global generator is, like [random] above, a
    stream of raw draws and a position in it, and the wall clock is the same
    [Clock]; what [date.isoformat] prints for a day number is left to the
    caller. *)

Module np.

(** [int64] arithmetic wraps around. *)
Definition int64 (z : Z) : Z := (z + 2 ^ 63) mod 2 ^ 64 - 2 ^ 63.

(** [a % b] on two [int64] columns: the sign follows the divisor, and a zero
    divisor gives zero. *)
Definition remainder (a b : Z) : Z := if b =? 0 then 0 else a mod b.

(** [a - b] on two [int64] columns. *)
Definition subtract (a b : Z) : Z := int64 (a - b).

Definition next (g : Random) : Z * Random :=
  (entropy g (drawn g), {| entropy := entropy g; drawn := S (drawn g) |}).

(** [size] successive draws, each mapped by [f]. *)
Fixpoint sample {A : Type} (f : Z -> A) (size : nat) (g : Random)
  : list A * Random :=
  match size with
  | O => ([], g)
  | S k =>
      let '(r, g) := next g in
      let '(l, g) := sample f k g in
      (f r :: l, g)
  end.

(** [np.random.randint(low, high, size=size)]: values in [low .. high - 1];
    an empty range and a negative size raise [ValueError]. *)
Definition randint (low high size : Z) (g : Random)
  : result (list Z * Random) :=
  if (high <=? low) || (size <? 0) then Raise ValueError
  else Return (sample (fun r => low + r mod (high - low)) (Z.to_nat size) g).

(** [random_sample()]: a multiple of [2^-53] in [0, 1). *)
Definition random_sample (r : Z) : float.t :=
  (inject_Z (r mod 2 ^ 53) / inject_Z (2 ^ 53))%Q.

(** [np.random.uniform(low, high, size=size)]:
    [low + (high - low) * random_sample()] in binary64. *)
Definition uniform (low high : float.t) (size : Z) (g : Random)
  : result (list float.t * Random) :=
  if size <? 0 then Raise ValueError
  else
    let scale := float.round (high - low) in
    Return (sample (fun r => float.round (low + float.mul scale (random_sample r)))
                   (Z.to_nat size) g).

(** [np.round(x, 2)]: multiply by 100, round to the nearest integer with
    ties to even, divide by 100. *)
Definition round2 (x : float.t) : float.t :=
  float.round
    (inject_Z (float.rne (float.mul x (float.of_int 100))) / inject_Z 100).

End np.

(** [parts_copy["quantity_on_hand"].sum()] (line 112 of the optimizer) adds
    up an [int64] column, so what the code gets is the wrapped sum.  The
    inventory's quantities add up within [int64] when that is the exact sum
    the model's counter starts from. *)
Definition sum_fits_int64 (parts_df : list Part) : Prop :=
  np.int64 (total_stock parts_df) = total_stock parts_df.

Module data_sim.

(** [datetime.utcnow()], of which only the day is used. *)
Definition utcnow (c : Clock) : Z * Clock :=
  (day_at c (reads c), {| day_at := day_at c; reads := S (reads c) |}).

Definition NUM_AIRCRAFT : Z := 50.

Section Tables.

(** [date.isoformat()] of the day with a given number. *)
Variable isoformat : Z -> string.

(** Line 37: one reading of the clock per aircraft. *)
Fixpoint last_maintenance_dates (days_since_maint : list Z) (c : Clock)
  : list string * Clock :=
  match days_since_maint with
  | [] => ([], c)
  | d :: l =>
      let '(today, c) := utcnow c in
      let '(dates, c) := last_maintenance_dates l c in
      (isoformat (today - d) :: dates, c)
  end.

(** [pd.DataFrame({...})] from four columns: columns of different lengths
    raise [ValueError]. *)
Definition DataFrame {A B C D : Type} (a : list A) (b : list B) (c : list C)
    (d : list D) : result (list (A * B * C * D)) :=
  if bool_decide (length a = length b /\ length b = length c
                  /\ length c = length d)
  then Return (zip (zip (zip a b) c) d)
  else Raise ValueError.

(** Lines 47-48 on one row. *)
Definition fleet_row (r : string * Z * Z * string) : Aircraft :=
  let '(aid, hours, interval, date) := r in
  let since := np.remainder hours interval in
  {| aircraft_id := aid;
     flight_hours := hours;
     maint_interval_hours := interval;
     last_maintenance_date := date;
     hours_since_last_maintenance := since;
     hours_until_due := np.subtract interval since |}.

(** Lines 18-49. *)
Definition generate_fleet (num_aircraft : Z) (g : Random) (c : Clock)
  : result (list Aircraft * Random * Clock) :=
  let aircraft_ids : list string :=
    (fun i => "AIR-" +:+ pretty (1001 + i)) <$> range num_aircraft in
  '(flight_hours, g) ← np.randint 500 5000 num_aircraft g;
  '(maint_interval_hours, g) ← np.randint 400 1200 num_aircraft g;
  '(days_since_maint, g) ← np.randint 1 400 num_aircraft g;
  let '(last_maintenance_date, c) := last_maintenance_dates days_since_maint c in
  df ← DataFrame aircraft_ids flight_hours maint_interval_hours
                 last_maintenance_date;
  Return (fleet_row <$> (df : list _), g, c).

End Tables.

Definition parts_row (r : string * (string * Z) * float.t * Z) : Part :=
  let '(pid, (text, lead), unit, quantity) := r in
  {| part_id := pid; description := text; lead_time_days := lead;
     unit_cost := unit; quantity_on_hand := quantity |}.

(** Lines 51-76. *)
Definition generate_parts_inventory (num_parts : Z) (g : Random)
  : result (list Part * Random) :=
  let part_ids : list string :=
    (fun i => "PART-" +:+ pretty (101 + i)) <$> range num_parts in
  '(lead_time_days, g) ← np.randint 1 30 num_parts g;
  '(costs, g) ← np.uniform 100%Q 5000%Q num_parts g;
  let unit_cost : list float.t := np.round2 <$> costs in
  '(quantity_on_hand, g) ← np.randint 5 50 num_parts g;
  let descriptions : list string :=
    (fun i => "critical part " +:+ pretty i) <$> range num_parts in
  df ← DataFrame part_ids (zip descriptions lead_time_days) unit_cost
                 quantity_on_hand;
  Return (parts_row <$> (df : list _), g).

End data_sim.

(** What the row at position [i] of a simulated fleet holds. *)
Definition simulated_aircraft (isoformat : Z -> string) (c : Clock) (i : nat)
    (a : Aircraft) : Prop :=
  aircraft_id a = "AIR-" +:+ pretty (1001 + Z.of_nat i) /\
  500 <= flight_hours a < 5000 /\
  400 <= maint_interval_hours a < 1200 /\
  hours_since_last_maintenance a
    = flight_hours a mod maint_interval_hours a /\
  hours_until_due a
    = maint_interval_hours a - hours_since_last_maintenance a /\
  1 <= hours_until_due a <= maint_interval_hours a /\
  exists days, 1 <= days < 400 /\
    last_maintenance_date a
      = isoformat (day_at c (reads c + i) - days).

(** What the row at position [i] of a simulated inventory holds. *)
Definition simulated_part (i : nat) (p : Part) : Prop :=
  part_id p = "PART-" +:+ pretty (101 + Z.of_nat i) /\
  description p = "critical part " +:+ pretty (Z.of_nat i) /\
  1 <= lead_time_days p < 30 /\
  5 <= quantity_on_hand p < 50 /\
  (100 <= unit_cost p /\ unit_cost p <= 5000)%Q /\
  exists cents,
    10000 <= cents <= 500000 /\
    unit_cost p = float.round (inject_Z cents / inject_Z 100).

(** The generator and the clock after [n] more readings. *)
Definition advance (n : nat) (g : Random) : Random :=
  {| entropy := entropy g; drawn := drawn g + n |}.

Definition later (n : nat) (c : Clock) : Clock :=
  {| day_at := day_at c; reads := reads c + n |}.

Definition isoformat_A (z : Z) : string := "day " +:+ pretty z.

(** Three simulated aircraft and two simulated parts. *)
Definition fleet_S : list Aircraft :=
  Eval vm_compute in
    match data_sim.generate_fleet isoformat_A 3 random_A clock_A with
    | Return r => r.1.1
    | Raise _ => []
    end.

Definition parts_S : list Part :=
  Eval vm_compute in
    match data_sim.generate_parts_inventory 2 (advance 9 random_A) with
    | Return r => r.1
    | Raise _ => []
    end.


(** ** Plans

    A plan gives the fleet row at position [k] a window: a start day and a
    duration.  It is admissible when every window starts inside the horizon
    and has an allowed duration, and no day of the horizon holds more
    windows than there are crews. *)
Definition admissible (P : PlanningParams) (plan : list (Z * Z)) : Prop :=
  Forall (fun w => 0 <= w.1 <= PLANNING_HORIZON_DAYS P - 1 /\
                   MAINT_DURATION_MIN P <= w.2 <= MAINT_DURATION_MAX P) plan /\
  forall d, 0 <= d < PLANNING_HORIZON_DAYS P ->
    count_if (fun w => in_window w.1 w.2 d) plan <= CREW_AVAILABLE P.

(** The number of variables the builder creates for one fleet row: a start,
    a duration and three booleans per day. *)
Definition block_size (P : PlanningParams) : nat :=
  2 + 3 * Z.to_nat (PLANNING_HORIZON_DAYS P).

Definition indicator (b : bool) : Z := if b then 1 else 0.

(** The values a window gives to the variables of a row, in the order the
    builder creates them from [base] on. *)
Definition block_values (V : Assignment) (h base : nat) (w : Z * Z) : Prop :=
  V base = w.1 /\ V (S base) = w.2 /\
  forall d, (d < h)%nat ->
    V (base + 2 + d)%nat = indicator (in_window w.1 w.2 (Z.of_nat d)) /\
    V (base + 2 + h + 2 * d)%nat = indicator (w.1 <=? Z.of_nat d) /\
    V (base + 2 + h + 2 * d + 1)%nat = indicator (w.1 + w.2 >? Z.of_nat d).

Definition follows_plan (P : PlanningParams) (V : Assignment)
    (plan : list (Z * Z)) : Prop :=
  forall k w, plan !! k = Some w ->
    block_values V (Z.to_nat (PLANNING_HORIZON_DAYS P)) (k * block_size P) w.

(** The dictionaries point the row at position [k] to the variables of its
    block. *)
Definition points_to (P : PlanningParams) (st : Builder) (aid : string)
    (k : nat) : Prop :=
  start_day st !! aid = Some (k * block_size P)%nat /\
  duration st !! aid = Some (S (k * block_size P)) /\
  forall d, (d < Z.to_nat (PLANNING_HORIZON_DAYS P))%nat ->
    is_scheduled_on_day st !! (aid, Z.of_nat d)
    = Some (k * block_size P + 2 + d)%nat.

(** The solver finds a solution of [m] if there is one. *)
Definition complete (Solve : CpSolver) (m : CpModel) : Prop :=
  forall V, feasible V m = true -> solved (Solve m).1 = true.

(** The solver's [OPTIMAL] on [m] means that no assignment satisfying [m]
    has a smaller objective. *)
Definition optimal (Solve : CpSolver) (m : CpModel) : Prop :=
  forall terms V,
    (Solve m).1 = OPTIMAL -> objective m = Some terms ->
    feasible V m = true ->
    eval (Solve m).2 terms <= eval V terms.

(** The objective of line 94 for a plan: start day times weight, summed over
    the fleet. *)
Definition plan_objective (weights : gmap string Z) (fleet_df : list Aircraft)
    (plan : list (Z * Z)) : Z :=
  foldr (fun aw acc => aw.2.1 * (weights !!! aircraft_id aw.1) + acc) 0
        (zip fleet_df plan).

(** The windows an assignment gives to the fleet's rows. *)
Definition plan_of (st : Builder) (Value : Assignment)
    (fleet_df : list Aircraft) : list (Z * Z) :=
  (fun a => (Value (start_day st !!! aircraft_id a),
             Value (duration st !!! aircraft_id a))) <$> fleet_df.

(** A one-day plan for one aircraft, the assignment it stands for over a
    horizon of one day, and a solver that reports it as optimal where it
    satisfies the model. *)
Definition plan_single : list (Z * Z) := [(0, 1)].

Definition single_assignment : Assignment := plan_assignment 1 plan_single.

Definition confident_solver (candidate : Assignment) : CpSolver :=
  fun m =>
    if feasible candidate m then (OPTIMAL, candidate)
    else (UNKNOWN, candidate).

Definition built_single : Builder :=
  Eval vm_compute in
    match build_model params_one_day fleet_one with
    | Return st => st
    | Raise _ => builder0
    end.

Definition rows_single : list MaintenanceTask :=
  Eval vm_compute in
    match generate_schedule params_one_day (confident_solver single_assignment)
            random_A clock_A fleet_one parts_A with
    | Return rows => rows
    | Raise _ => []
    end.

(** A plan with the windows of two rows exchanged. *)
Definition swapped {A : Type} (i j : nat) (l : list A) : list A :=
  match l !! i, l !! j with
  | Some x, Some y => <[i := y]> (<[j := x]> l)
  | _, _ => l
  end.

(** Two crews for a horizon of two days, and the plan that starts both
    aircraft of [fleet_B] at once. *)
Definition params_two_crews : PlanningParams :=
  {| PLANNING_HORIZON_DAYS := 2; MAINT_DURATION_MIN := 1;
     MAINT_DURATION_MAX := 2; CREW_AVAILABLE := 2 |}.

Definition plan_both : list (Z * Z) := [(0, 1); (0, 1)].

Definition both_assignment : Assignment := plan_assignment 2 plan_both.

Definition built_B : Builder :=
  Eval vm_compute in
    match build_model params_two_crews fleet_B with
    | Return st => st
    | Raise _ => builder0
    end.

(** A fleet that lists the aircraft with the most hours left first, one crew
    over two days for maintenance of exactly one day, so that the two
    aircraft cannot start on the same day, and the two plans there are: the
    fleet's order, and the aircraft with fewer hours left first. *)
Definition fleet_reversed : list Aircraft :=
  [aircraft "AIR-1002" 3; aircraft "AIR-1001" 1].

Definition params_one_crew : PlanningParams :=
  {| PLANNING_HORIZON_DAYS := 2; MAINT_DURATION_MIN := 1;
     MAINT_DURATION_MAX := 1; CREW_AVAILABLE := 1 |}.

Definition plan_listed : list (Z * Z) := [(0, 1); (1, 1)].

Definition plan_urgent_first : list (Z * Z) := [(1, 1); (0, 1)].

Definition urgent_first_assignment : Assignment :=
  plan_assignment 2 plan_urgent_first.

Definition built_R : Builder :=
  Eval vm_compute in
    match build_model params_one_crew fleet_reversed with
    | Return st => st
    | Raise _ => builder0
    end.

Definition rows_R : list MaintenanceTask :=
  Eval vm_compute in
    match generate_schedule params_one_crew
            (confident_solver urgent_first_assignment)
            random_A clock_A fleet_reversed parts_A with
    | Return rows => rows
    | Raise _ => []
    end.

Definition weights_R : gmap string Z :=
  Eval vm_compute in
    match compute_weights fleet_reversed with
    | Return weights => weights
    | Raise _ => ∅
    end.

(** * Proofs *)

(** ** The result monad *)

Lemma bind_Return {A B : Type} (m : result A) (f : A -> result B) (b : B) :
  (m ≫= f) = Return b -> exists a, m = Return a /\ f a = Return b.
Proof. destruct m as [e|a]; simpl; [discriminate | eauto]. Qed.

Lemma getitem_Some `{Countable K} {V : Type} (m : gmap K V) k v :
  m !! k = Some v -> getitem m k = Return v.
Proof. unfold getitem. by intros ->. Qed.

Lemma getitem_Return `{Countable K} {V : Type} (m : gmap K V) k v :
  getitem m k = Return v -> m !! k = Some v.
Proof. unfold getitem. destruct (m !! k); [by intros [= ->] | discriminate]. Qed.

Lemma for_each_app {S A : Type} (body : S -> A -> result S) l1 l2 st :
  for_each body (l1 ++ l2) st = (for_each body l1 st ≫= for_each body l2).
Proof.
  revert st. induction l1 as [|x l1 IH]; intros st; simpl; [done|].
  destruct (body st x); simpl; [done | apply IH].
Qed.

(** ** Growth of a model *)

#[local] Instance extends_refl : Reflexive extends.
Proof. by intros m; split. Qed.

#[local] Instance extends_trans : Transitive extends.
Proof. intros m1 m2 m3 [? ?] [? ?]. split; by etrans. Qed.

Lemma has_var_extends m m' v lb ub :
  extends m m' -> has_var m v lb ub -> has_var m' v lb ub.
Proof.
  intros [[k Hk] _] Hv. unfold has_var in *. rewrite Hk.
  by apply lookup_app_l_Some.
Qed.

Lemma posted_extends m m' c : extends m m' -> posted m c -> posted m' c.
Proof.
  intros [_ [k Hk]] Hc. unfold posted in *. rewrite Hk.
  apply elem_of_app. by left.
Qed.

Lemma NewIntVar_spec lb ub m :
  extends m (NewIntVar lb ub m).2 /\
  has_var (NewIntVar lb ub m).2 (NewIntVar lb ub m).1 lb ub /\
  constraints (NewIntVar lb ub m).2 = constraints m.
Proof.
  unfold NewIntVar, extends, has_var; simpl.
  split; [split; [by apply prefix_app_r | done] |].
  split; [by apply list_lookup_middle | done].
Qed.

Lemma post_spec c m : extends m (post c m) /\ posted (post c m) c.
Proof.
  unfold post, extends, posted; simpl.
  split; [split; [done | by apply prefix_app_r] |].
  apply elem_of_app. right. by apply list_elem_of_singleton.
Qed.

#[local] Instance same_dicts_refl : Reflexive same_dicts.
Proof. intros st. by split; [|split; [|split]]. Qed.

#[local] Instance same_dicts_trans : Transitive same_dicts.
Proof.
  intros a b c (?&?&?&?) (?&?&?&?).
  split; [congruence|]. split; [congruence|]. split; [congruence | by etrans].
Qed.

Lemma linked_day_same_dicts st st' aid s du d :
  same_dicts st st' -> linked_day st aid s du d -> linked_day st' aid s du d.
Proof.
  intros (_ & _ & Hon & Hext) (on & b & a & H1 & H2 & H3 & H4 & H5).
  exists on, b, a. rewrite Hon.
  split; [done|]. do 3 (split; [by eapply has_var_extends|]).
  eapply Forall_impl; [done|]. eauto using posted_extends.
Qed.

(** *** Line 57: the loop that declares the daily booleans *)

Lemma declare_day_loop aid l st :
  exists st', for_each (declare_day aid) l st = Return st' /\
    declares aid st st' /\ forall d, d ∈ l -> declared aid st' d.
Proof.
  revert st. induction l as [|d l IH]; intros st; simpl.
  - exists st. split; [done|]. split; [|by intros d ?%elem_of_nil].
    by split; [|split; [|split]].
  - set (st1 := {| model := (NewBoolVar (model st)).2;
                   start_day := start_day st; duration := duration st;
                   is_scheduled_on_day :=
                     <[(aid, d) := (NewBoolVar (model st)).1]>
                       (is_scheduled_on_day st) |}).
    destruct (NewIntVar_spec 0 1 (model st)) as (Hext & Hvar & _).
    assert (Hd1 : declared aid st1 d).
    { eexists. split; [apply lookup_insert_eq | exact Hvar]. }
    assert (Hkeep : forall d', declared aid st d' -> declared aid st1 d').
    { intros d' (on & Hon & Hv). destruct (decide (d' = d)) as [->|Hne]; [done|].
      exists on. split; [|by eapply has_var_extends].
      simpl. rewrite lookup_insert_ne; [done | congruence]. }
    destruct (IH st1) as (st' & Hrun & (Hs & Hdu & Hext' & Hoth & Hkeep') & Hin).
    exists st'. split; [exact Hrun|]. split.
    + split; [done|]. split; [done|]. split; [by etrans|]. split; [|by eauto].
      intros aid' d' Hne. rewrite Hoth by done. simpl.
      rewrite lookup_insert_ne; [done | congruence].
    + intros d' [->|Hd']%elem_of_cons; eauto.
Qed.

Lemma mapM_Return {A B : Type} (f : A -> result B) (l : list A) (ys : list B) :
  mapM f l = Return ys <-> Forall2 (fun x y => f x = Return y) l ys.
Proof.
  revert ys. induction l as [|x l IH]; intros ys; simpl.
  - split.
    + intros [= <-]. constructor.
    + by intros ->%Forall2_nil_inv_l.
  - split.
    + intros (y & Hy & (k & Hk & [= <-])%bind_Return)%bind_Return.
      constructor; [done | by apply IH].
    + intros (y & k & Hy & Hk & ->)%Forall2_cons_inv_l.
      rewrite Hy. simpl. apply IH in Hk. by rewrite Hk.
Qed.

Lemma mapM_total {A B : Type} (f : A -> result B) (l : list A) :
  (forall x, x ∈ l -> exists y, f x = Return y) ->
  exists ys, mapM f l = Return ys.
Proof.
  induction l as [|x l IH]; intros Hf; simpl; [by eexists|].
  destruct (Hf x) as [y ->]; [left|].
  destruct IH as [k ->]; [intros; apply Hf; by right|].
  by eexists.
Qed.

(** *** Lines 60-74: the loop that links each day *)

Lemma link_day_spec aid st d s du :
  start_day st !! aid = Some s -> duration st !! aid = Some du ->
  declared aid st d ->
  exists st', link_day aid st d = Return st' /\ same_dicts st st' /\
              linked_day st' aid s du d.
Proof.
  intros Hs Hdu (on & Hon & Hvon).
  unfold link_day. cbn [NewBoolVar NewIntVar].
  rewrite !(getitem_Some _ _ _ Hs), !(getitem_Some _ _ _ Hdu),
          !(getitem_Some _ _ _ Hon).
  cbn [mbind result_bind].
  eexists. split; [reflexivity|].
  set (m1 := (NewIntVar 0 1 (model st)).2).
  set (m2 := (NewIntVar 0 1 m1).2).
  set (before := length (variables (model st))).
  set (after := length (variables m1)).
  assert (E1 : extends (model st) m1) by apply NewIntVar_spec.
  assert (E2 : extends m1 m2) by apply NewIntVar_spec.
  assert (Vb : has_var m1 before 0 1) by apply NewIntVar_spec.
  assert (Va : has_var m2 after 0 1) by apply (NewIntVar_spec 0 1 m1).
  match goal with |- same_dicts _ (with_model ?m _) /\ _ => set (m8 := m) end.
  assert (E8 : extends m2 m8).
  { unfold m8. repeat (etrans; [|apply post_spec]). reflexivity. }
  assert (E : extends (model st) m8) by (etrans; [|etrans]; eassumption).
  split; [by split; [|split; [|split]]|].
  exists on, before, after. cbn [with_model model is_scheduled_on_day].
  split; [done|].
  split; [eapply has_var_extends; [exact E | exact Hvon]|].
  split; [eapply has_var_extends; [|exact Vb]; by etrans|].
  split; [eapply has_var_extends; [exact E8 | exact Va]|].
  unfold link_constraints, posted, m8, post; cbn [constraints].
  repeat constructor; set_solver.
Qed.

Lemma link_day_loop aid s du l st :
  start_day st !! aid = Some s -> duration st !! aid = Some du ->
  (forall d, d ∈ l -> declared aid st d) ->
  exists st', for_each (link_day aid) l st = Return st' /\ same_dicts st st' /\
              forall d, d ∈ l -> linked_day st' aid s du d.
Proof.
  revert st. induction l as [|d l IH]; intros st Hs Hdu Hdecl; simpl.
  - exists st. split; [done|]. split; [reflexivity|]. by intros d ?%elem_of_nil.
  - destruct (link_day_spec aid st d s du) as (st1 & -> & Hsame & Hlink);
      [done | done | apply Hdecl; left |].
    pose proof Hsame as (Es & Edu & Eon & Eext).
    destruct (IH st1) as (st' & Hrun & Hsame' & Hlinks).
    + by rewrite Es.
    + by rewrite Edu.
    + intros d' Hd'. destruct (Hdecl d') as (on & Hon & Hv); [by right|].
      exists on. rewrite Eon. split; [done | by eapply has_var_extends].
    + exists st'. split; [exact Hrun|]. split; [by etrans|].
      intros d' [->|Hd']%elem_of_cons; [|by apply Hlinks].
      by eapply linked_day_same_dicts.
Qed.

(** *** Line 53: one aircraft, then the whole list *)

Lemma linked_same_dicts P st st' aid :
  same_dicts st st' -> linked P st aid -> linked P st' aid.
Proof.
  intros Hsame (s & du & Hs & Hdu & Hvs & Hvdu & Hdays).
  pose proof Hsame as (Es & Edu & Eon & Eext).
  exists s, du. rewrite Es, Edu.
  split; [done|]. split; [done|].
  split; [by eapply has_var_extends|]. split; [by eapply has_var_extends|].
  intros d Hd. eapply linked_day_same_dicts; eauto.
Qed.

Lemma declare_aircraft_spec P aid st :
  exists s du,
    let st' := declare_aircraft P aid st in
    start_day st' = <[aid := s]> (start_day st) /\
    duration st' = <[aid := du]> (duration st) /\
    is_scheduled_on_day st' = is_scheduled_on_day st /\
    extends (model st) (model st') /\
    has_var (model st') s 0 (PLANNING_HORIZON_DAYS P - 1) /\
    has_var (model st') du (MAINT_DURATION_MIN P) (MAINT_DURATION_MAX P).
Proof.
  exists (length (variables (model st))), (S (length (variables (model st)))).
  unfold declare_aircraft, NewIntVar, extends, has_var. simpl.
  split; [done|]. split; [|split; [done|]].
  { f_equal. rewrite length_app. simpl. lia. }
  split; [split; [|done]|split].
  - rewrite <- app_assoc. by apply prefix_app_r.
  - rewrite <- app_assoc. by apply list_lookup_middle.
  - apply list_lookup_middle. rewrite length_app. simpl. lia.
Qed.

Lemma add_aircraft_spec P st aid :
  exists st', add_aircraft P st aid = Return st' /\
    extends (model st) (model st') /\
    linked P st' aid /\
    (forall aid', aid' <> aid -> linked P st aid' -> linked P st' aid').
Proof.
  unfold add_aircraft.
  destruct (declare_aircraft_spec P aid st)
    as (s & du & Es1 & Edu1 & Eon1 & E1 & Vs1 & Vdu1).
  set (st1 := declare_aircraft P aid st) in *.
  destruct (declare_day_loop aid (range (PLANNING_HORIZON_DAYS P)) st1)
    as (st2 & -> & (Es2 & Edu2 & E2 & Hoth2 & _) & Hdecl2).
  cbn [mbind result_bind].
  destruct (link_day_loop aid s du (range (PLANNING_HORIZON_DAYS P)) st2)
    as (st3 & -> & Hsame3 & Hlinks).
  { rewrite Es2, Es1. apply lookup_insert_eq. }
  { rewrite Edu2, Edu1. apply lookup_insert_eq. }
  { done. }
  pose proof Hsame3 as (Es3 & Edu3 & Eon3 & E3).
  exists st3. split; [done|].
  assert (E12 : extends (model st) (model st2)) by (by etrans).
  assert (E : extends (model st) (model st3)) by (by etrans).
  split; [exact E|]. split.
  - exists s, du. rewrite Es3, Edu3, Es2, Edu2, Es1, Edu1.
    split; [apply lookup_insert_eq|]. split; [apply lookup_insert_eq|].
    split; [eapply has_var_extends; [|exact Vs1]; by etrans|].
    split; [eapply has_var_extends; [|exact Vdu1]; by etrans|].
    exact Hlinks.
  - intros aid' Hne (s' & du' & Hs & Hdu & Hvs & Hvdu & Hdays).
    exists s', du'. rewrite Es3, Edu3, Es2, Edu2, Es1, Edu1.
    rewrite !lookup_insert_ne by done.
    split; [done|]. split; [done|].
    split; [by eapply has_var_extends|]. split; [by eapply has_var_extends|].
    intros d Hd. destruct (Hdays d Hd) as (on & b & a & Hon & H1 & H2 & H3 & H4).
    exists on, b, a. rewrite Eon3, Hoth2, Eon1 by done.
    split; [exact Hon|]. do 3 (split; [by eapply has_var_extends|]).
    eapply Forall_impl; [done|]. eauto using posted_extends.
Qed.

Lemma add_aircraft_loop P l st :
  exists st', for_each (add_aircraft P) l st = Return st' /\
    extends (model st) (model st') /\
    forall aid, aid ∈ l \/ linked P st aid -> linked P st' aid.
Proof.
  revert st. induction l as [|x l IH]; intros st; simpl.
  - exists st. split; [done|]. split; [reflexivity|].
    intros aid [?%elem_of_nil|?]; done.
  - destruct (add_aircraft_spec P st x) as (st1 & -> & E1 & Hnew & Hold).
    destruct (IH st1) as (st' & Hrun & E' & Hall).
    exists st'. split; [exact Hrun|]. split; [by etrans|].
    intros aid Haid. apply Hall.
    destruct (decide (aid = x)) as [->|Hne]; [by right|].
    destruct Haid as [[->|Hin]%elem_of_cons|Hl]; [done | by left | right; eauto].
Qed.

(** *** Lines 78-79: the capacity rows *)

Lemma capacity_posted_same_dicts P st st' l d :
  same_dicts st st' -> capacity_posted P st l d -> capacity_posted P st' l d.
Proof.
  intros (_ & _ & Eon & E) (ons & Hons & Hpost).
  exists ons. rewrite Eon. split; [done | by eapply posted_extends].
Qed.

Lemma add_capacity_spec P l st d :
  (forall aid, aid ∈ l -> is_Some (is_scheduled_on_day st !! (aid, d))) ->
  exists st', add_capacity P l st d = Return st' /\ same_dicts st st' /\
              capacity_posted P st' l d.
Proof.
  intros Hdecl. unfold add_capacity.
  destruct (mapM_total (fun aid => getitem (is_scheduled_on_day st) (aid, d)) l)
    as [ons Hons].
  { intros aid [on Hon]%Hdecl. exists on. by apply getitem_Some. }
  rewrite Hons. cbn [mbind result_bind].
  eexists. split; [reflexivity|].
  split; [split; [|split; [|split]]; try done; apply post_spec|].
  exists ons. split; [|apply post_spec].
  apply mapM_Return in Hons. eapply Forall2_impl; [exact Hons|].
  intros aid on. apply getitem_Return.
Qed.

Lemma add_capacity_loop P l days st :
  (forall aid d, aid ∈ l -> d ∈ days ->
     is_Some (is_scheduled_on_day st !! (aid, d))) ->
  exists st', for_each (add_capacity P l) days st = Return st' /\
    same_dicts st st' /\ forall d, d ∈ days -> capacity_posted P st' l d.
Proof.
  revert st. induction days as [|d days IH]; intros st Hdecl; simpl.
  - exists st. split; [done|]. split; [reflexivity|]. by intros d ?%elem_of_nil.
  - destruct (add_capacity_spec P l st d) as (st1 & -> & Hsame & Hcap).
    { intros aid Haid. apply Hdecl; [done | left]. }
    pose proof Hsame as (_ & _ & Eon & _).
    destruct (IH st1) as (st' & Hrun & Hsame' & Hcaps).
    { intros aid d' Haid Hd'. rewrite Eon. apply Hdecl; [done | by right]. }
    exists st'. split; [exact Hrun|]. split; [by etrans|].
    intros d' [->|Hd']%elem_of_cons; [|by apply Hcaps].
    by eapply capacity_posted_same_dicts.
Qed.

(** The constraint part of the model is always built, every listed aircraft
    is linked on every day of the horizon, and every day has its capacity
    row. *)
Lemma build_constraints_spec P l :
  exists st, build_constraints P l = Return st /\
    (forall aid, aid ∈ l -> linked P st aid) /\
    (forall d, d ∈ range (PLANNING_HORIZON_DAYS P) -> capacity_posted P st l d).
Proof.
  unfold build_constraints.
  destruct (add_aircraft_loop P l builder0) as (st1 & -> & _ & Hlinked).
  cbn [mbind result_bind].
  destruct (add_capacity_loop P l (range (PLANNING_HORIZON_DAYS P)) st1)
    as (st2 & -> & Hsame & Hcaps).
  { intros aid d Haid Hd.
    destruct (Hlinked aid) as (s & du & _ & _ & _ & _ & Hdays); [by left|].
    destruct (Hdays d Hd) as (on & _ & _ & Hon & _). by exists on. }
  exists st2. split; [done|]. split; [|done].
  intros aid Haid. eapply linked_same_dicts; [done|]. apply Hlinked. by left.
Qed.

(** ** Meaning of the posted constraints *)

Lemma feasible_spec sol m :
  feasible sol m = true <->
  (forall v lb ub, has_var m v lb ub -> lb <= sol v <= ub) /\
  (forall c, posted m c -> holds sol c = true).
Proof.
  unfold feasible, has_var, posted.
  rewrite andb_true_iff, !forallb_forall. split.
  - intros [Hdom Hcs]. split.
    + intros v lb ub Hv.
      assert (Hin : In (v, (lb, ub)) (imap pair (variables m))).
      { apply list_elem_of_In, list_elem_of_lookup. exists v.
        by rewrite list_lookup_imap, Hv. }
      apply Hdom in Hin. unfold in_domain in Hin. simpl in Hin. lia.
    + intros c Hc. by apply Hcs, list_elem_of_In.
  - intros [Hdom Hcs]. split.
    + intros [v [lb ub]] (i & Hi)%list_elem_of_In%list_elem_of_lookup.
      rewrite list_lookup_imap in Hi.
      destruct (variables m !! i) as [[lb' ub']|] eqn:Hv; [|done].
      injection Hi as <- <- <-.
      apply Hdom in Hv. unfold in_domain. simpl. lia.
    + intros c Hc. by apply Hcs, list_elem_of_In.
Qed.

(** Under a feasible assignment the daily boolean is one exactly on the days
    of the window: both directions of the reification are posted. *)
Lemma link_constraints_sound sol m s du on before after d :
  feasible sol m = true ->
  has_var m on 0 1 -> has_var m before 0 1 -> has_var m after 0 1 ->
  Forall (posted m) (link_constraints s du on before after d) ->
  (sol on = 0 \/ sol on = 1) /\
  (sol on = 1 <-> sol s <= d /\ sol s + sol du > d).
Proof.
  intros [Hdom Hcs]%feasible_spec Von Vb Va Hposted.
  apply Hdom in Von, Vb, Va.
  unfold link_constraints in Hposted.
  repeat match goal with
         | H : Forall _ (_ :: _) |- _ =>
             apply Forall_cons in H; destruct H as [?%Hcs H]
         end.
  clear Hposted Hdom Hcs.
  unfold holds in *; simpl in *.
  rewrite ?Z.gtb_ltb in *.
  assert (Hon : sol on = 0 \/ sol on = 1) by lia.
  assert (Hb : sol before = 0 \/ sol before = 1) by lia.
  assert (Ha : sol after = 0 \/ sol after = 1) by lia.
  split; [exact Hon|].
  destruct Hon as [Eon|Eon], Hb as [Eb|Eb], Ha as [Ea|Ea];
    rewrite ?Eon, ?Eb, ?Ea in *; simpl in *;
    repeat match goal with
           | H : (_ <=? _) = true |- _ => apply Z.leb_le in H
           | H : (_ <? _) = true |- _ => apply Z.ltb_lt in H
           end;
    try discriminate; lia.
Qed.

Lemma capacity_sound sol m ons crew :
  feasible sol m = true ->
  posted m (Add (LE ((fun b => (1, b)) <$> ons) crew)) ->
  eval sol ((fun b => (1, b)) <$> ons) <= crew.
Proof.
  intros [_ Hcs]%feasible_spec Hc%Hcs.
  unfold holds in Hc; simpl in Hc. by apply Z.leb_le.
Qed.

Lemma linked_sound P st sol aid d :
  feasible sol (model st) = true ->
  linked P st aid -> d ∈ range (PLANNING_HORIZON_DAYS P) ->
  exists s du on,
    start_day st !! aid = Some s /\ duration st !! aid = Some du /\
    is_scheduled_on_day st !! (aid, d) = Some on /\
    0 <= sol s <= PLANNING_HORIZON_DAYS P - 1 /\
    MAINT_DURATION_MIN P <= sol du <= MAINT_DURATION_MAX P /\
    sol on = (if in_window (sol s) (sol du) d then 1 else 0).
Proof.
  intros Hfeas (s & du & Hs & Hdu & Vs & Vdu & Hdays) Hd.
  destruct (Hdays d Hd) as (on & b & a & Hon & Von & Vb & Va & Hposted).
  exists s, du, on. do 3 (split; [done|]).
  pose proof Hfeas as [Hdom _]%feasible_spec.
  split; [by apply Hdom|]. split; [by apply Hdom|].
  destruct (link_constraints_sound sol _ s du on b a d Hfeas Von Vb Va Hposted)
    as [H01 Hiff].
  unfold in_window.
  destruct (Z.leb_spec (sol s) d), (Z.ltb_spec d (sol s + sol du)); simpl; lia.
Qed.

Lemma elem_of_range n d : d ∈ range n <-> 0 <= d < n.
Proof. unfold range. rewrite elem_of_seqZ. lia. Qed.

(** ** The objective and the assembled model *)

Lemma with_model_Minimize_same_dicts st terms :
  same_dicts st (with_model (Minimize terms (model st)) st).
Proof. by split; [|split; [|split]]. Qed.

Lemma build_model_Return P fleet_df st :
  build_model P fleet_df = Return st ->
  exists st0 weights terms,
    build_constraints P (aircraft_id <$> fleet_df) = Return st0 /\
    compute_weights fleet_df = Return weights /\
    mapM (objective_term st0 weights) (aircraft_id <$> fleet_df) = Return terms /\
    st = with_model (Minimize terms (model st0)) st0.
Proof.
  unfold build_model.
  intros (st0 & H0 & (w & Hw & (terms & Ht & [= <-])%bind_Return)%bind_Return)%bind_Return.
  by exists st0, w, terms.
Qed.

Lemma build_model_linked P fleet_df st :
  build_model P fleet_df = Return st ->
  (forall aid, aid ∈ aircraft_id <$> fleet_df -> linked P st aid) /\
  (forall d, d ∈ range (PLANNING_HORIZON_DAYS P) ->
     capacity_posted P st (aircraft_id <$> fleet_df) d).
Proof.
  intros (st0 & w & terms & H0 & _ & _ & ->)%build_model_Return.
  destruct (build_constraints_spec P (aircraft_id <$> fleet_df))
    as (st0' & H0' & Hlinked & Hcap).
  rewrite H0 in H0'. injection H0' as <-.
  split.
  - intros aid Haid. eapply linked_same_dicts; [|by apply Hlinked].
    apply with_model_Minimize_same_dicts.
  - intros d Hd. eapply capacity_posted_same_dicts; [|by apply Hcap].
    apply with_model_Minimize_same_dicts.
Qed.

(** ** Rounding is monotone *)

Section FloatFacts.
Import float.
Local Open Scope Q_scope.

Lemma pow2_pos e : 0 < pow2 e.
Proof. apply Qpower_0_lt. reflexivity. Qed.

Lemma pow2_add a b : pow2 (a + b) == pow2 a * pow2 b.
Proof. apply Qpower_plus. discriminate. Qed.

Lemma pow2_le a b : (a <= b)%Z -> pow2 a <= pow2 b.
Proof. intros H. apply Qpower_le_compat_l; [exact H | discriminate]. Qed.

Lemma pow2_lt_inv a b : pow2 a < pow2 b -> (a < b)%Z.
Proof. intros H. eapply Qpower_lt_compat_l_inv; [exact H | reflexivity]. Qed.

Lemma pow2_inject n : (0 <= n)%Z -> pow2 n == inject_Z (2 ^ n).
Proof. intros H. unfold pow2. by rewrite Zpower_Qpower. Qed.

Lemma Qnum_pos x : 0 < x <-> (0 < Qnum x)%Z.
Proof. destruct x as [n d]. unfold Qlt. simpl. lia. Qed.

Lemma ilog2_spec x : 0 < x -> pow2 (ilog2 x) <= x /\ x < pow2 (ilog2 x + 1).
Proof.
  intros Hx. pose proof Hx as Hn%Qnum_pos.
  destruct x as [n d]; simpl in Hn. unfold ilog2; simpl Qnum; simpl Qden.
  set (ln := Z.log2 n). set (ld := Z.log2 (Z.pos d)).
  assert (HN : pow2 ln <= inject_Z n /\ inject_Z n < pow2 (ln + 1)).
  { destruct (Z.log2_spec n Hn) as [H1 H2]. fold ln in H1, H2.
    assert (0 <= ln)%Z by apply Z.log2_nonneg.
    rewrite !pow2_inject by lia. rewrite <- Zle_Qle, <- Zlt_Qlt.
    split; [done|]. by rewrite Z.add_1_r. }
  assert (HD : pow2 ld <= inject_Z (Z.pos d) /\ inject_Z (Z.pos d) < pow2 (ld + 1)).
  { destruct (Z.log2_spec (Z.pos d)) as [H1 H2]; [done|]. fold ld in H1, H2.
    assert (0 <= ld)%Z by apply Z.log2_nonneg.
    rewrite !pow2_inject by lia. rewrite <- Zle_Qle, <- Zlt_Qlt.
    split; [done|]. by rewrite Z.add_1_r. }
  assert (HxD : (n # d) * inject_Z (Z.pos d) == inject_Z n).
  { rewrite (Qmake_Qdiv n d). field. discriminate. }
  assert (HDpos : 0 < inject_Z (Z.pos d)) by reflexivity.
  set (x := n # d) in *. set (D := inject_Z (Z.pos d)) in *.
  set (N := inject_Z n) in *.
  destruct HN as [HN1 HN2], HD as [HD1 HD2].
  destruct (Qle_bool (pow2 (ln - ld)) x) eqn:Hb.
  - apply Qle_bool_iff in Hb. split; [exact Hb|].
    apply (Qmult_lt_r _ _ D HDpos). rewrite HxD.
    eapply Qlt_le_trans; [exact HN2|].
    replace (ln + 1)%Z with ((ln - ld + 1) + ld)%Z by lia.
    rewrite pow2_add. apply Qmult_le_l; [apply pow2_pos | exact HD1].
  - assert (Hlt : x < pow2 (ln - ld)).
    { apply Qnot_le_lt. intros H%Qle_bool_iff. congruence. }
    replace (ln - ld - 1 + 1)%Z with (ln - ld)%Z by lia.
    split; [|exact Hlt].
    apply (Qmult_le_r _ _ D HDpos). rewrite HxD.
    eapply Qle_trans; [|exact HN1].
    replace ln with ((ln - ld - 1) + (ld + 1))%Z at 2 by lia.
    rewrite pow2_add. apply Qmult_le_l; [apply pow2_pos|].
    by apply Qlt_le_weak.
Qed.

Lemma ilog2_mono x y : 0 < x -> x <= y -> (ilog2 x <= ilog2 y)%Z.
Proof.
  intros Hx Hxy.
  assert (Hy : 0 < y) by (eapply Qlt_le_trans; eassumption).
  destruct (ilog2_spec x Hx) as [H1 _], (ilog2_spec y Hy) as [_ H2].
  assert (H : pow2 (ilog2 x) < pow2 (ilog2 y + 1)).
  { eapply Qle_lt_trans; [exact H1|]. eapply Qle_lt_trans; eassumption. }
  apply pow2_lt_inv in H. lia.
Qed.

Lemma rne_bounds x : (Qfloor x <= rne x <= Qfloor x + 1)%Z.
Proof.
  unfold rne. destruct (_ ?= _); [destruct (Z.even _)| |]; lia.
Qed.

Lemma rne_mono x y : x <= y -> (rne x <= rne y)%Z.
Proof.
  intros Hxy. pose proof (Qfloor_resp_le x y Hxy) as Hf.
  destruct (Z.eq_dec (Qfloor x) (Qfloor y)) as [E|NE].
  - unfold rne. rewrite <- E.
    destruct (Qcompare_spec (x - inject_Z (Qfloor x)) (1 # 2)) as [Hx|Hx|Hx];
      destruct (Qcompare_spec (y - inject_Z (Qfloor x)) (1 # 2)) as [Hy|Hy|Hy];
      try destruct (Z.even _); try lia; exfalso; lra.
  - pose proof (rne_bounds x). pose proof (rne_bounds y). lia.
Qed.

Lemma rne_inject z : rne (inject_Z z) = z.
Proof.
  unfold rne. rewrite Qfloor_Z.
  destruct (Qcompare_spec (inject_Z z - inject_Z z) (1 # 2)) as [H|H|H];
    [exfalso; lra | done | exfalso; lra].
Qed.

(** The significand of a rounded positive number has 53 bits, or is
    [2^53] when rounding carries into the next binade. *)
Lemma round_pos_bounds x :
  0 < x ->
  pow2 (ilog2 x) <= round_pos x /\ round_pos x <= pow2 (ilog2 x + 1).
Proof.
  intros Hx. destruct (ilog2_spec x Hx) as [H1 H2].
  unfold round_pos. set (e := (ilog2 x - 52)%Z).
  pose proof (pow2_pos e) as He. pose proof (pow2_pos (- e)) as Hme.
  assert (Hlo : inject_Z (2 ^ 52) <= x * pow2 (- e)).
  { rewrite <- (pow2_inject 52) by lia.
    replace 52%Z with (ilog2 x + - e)%Z by lia.
    rewrite pow2_add. by apply Qmult_le_r. }
  assert (Hhi : x * pow2 (- e) <= inject_Z (2 ^ 53)).
  { rewrite <- (pow2_inject 53) by lia.
    replace 53%Z with (ilog2 x + 1 + - e)%Z by lia.
    rewrite pow2_add. apply Qmult_le_r; [done | by apply Qlt_le_weak]. }
  apply rne_mono in Hlo, Hhi. rewrite rne_inject in Hlo, Hhi.
  split.
  - replace (ilog2 x) with (52 + e)%Z at 1 by lia.
    rewrite pow2_add, (pow2_inject 52) by lia.
    apply Qmult_le_r; [done|]. by rewrite <- Zle_Qle.
  - replace (ilog2 x + 1)%Z with (53 + e)%Z by lia.
    rewrite pow2_add, (pow2_inject 53) by lia.
    apply Qmult_le_r; [done|]. by rewrite <- Zle_Qle.
Qed.

Lemma round_pos_mono x y : 0 < x -> x <= y -> round_pos x <= round_pos y.
Proof.
  intros Hx Hxy.
  assert (Hy : 0 < y) by (eapply Qlt_le_trans; eassumption).
  pose proof (ilog2_mono x y Hx Hxy) as He.
  destruct (Z.eq_dec (ilog2 x) (ilog2 y)) as [E|NE].
  - unfold round_pos. rewrite <- E. set (e := (ilog2 x - 52)%Z).
    apply Qmult_le_r; [apply pow2_pos|]. rewrite <- Zle_Qle.
    apply rne_mono. apply Qmult_le_r; [apply pow2_pos | done].
  - eapply Qle_trans; [apply (round_pos_bounds x Hx)|].
    eapply Qle_trans; [|apply (round_pos_bounds y Hy)].
    apply pow2_le. lia.
Qed.

Lemma round_pos_pos x : 0 < x -> 0 < round_pos x.
Proof.
  intros Hx. eapply Qlt_le_trans; [apply (pow2_pos (ilog2 x))|].
  by apply round_pos_bounds.
Qed.

Lemma round_cases x :
  (x == 0 /\ round x = 0) \/
  (0 < x /\ round x = round_pos x) \/
  (x < 0 /\ round x = - round_pos (- x)).
Proof.
  unfold round. destruct x as [[|n|n] d]; simpl Qnum.
  - left. split; reflexivity.
  - right. left. split; reflexivity.
  - right. right. split; reflexivity.
Qed.

Lemma round_mono x y : x <= y -> round x <= round y.
Proof.
  intros Hxy.
  destruct (round_cases x) as [[Hx ->]|[[Hx ->]|[Hx ->]]];
    destruct (round_cases y) as [[Hy ->]|[[Hy ->]|[Hy ->]]];
    try (exfalso; lra).
  - lra.
  - apply Qlt_le_weak. by apply round_pos_pos.
  - by apply round_pos_mono.
  - assert (0 < round_pos (- x)) by (apply round_pos_pos; lra). lra.
  - assert (0 < round_pos (- x)) by (apply round_pos_pos; lra).
    assert (0 < round_pos y) by (by apply round_pos_pos). lra.
  - assert (round_pos (- y) <= round_pos (- x)).
    { apply round_pos_mono; lra. }
    lra.
Qed.

Lemma to_int_nonneg x : 0 <= x -> to_int x = Qfloor x.
Proof.
  destruct x as [n d]. unfold Qle, to_int, Qfloor; simpl. intros H.
  apply Z.quot_div_nonneg; lia.
Qed.

Lemma to_int_nonpos x : x <= 0 -> to_int x = Qceiling x.
Proof.
  destruct x as [n d]. unfold Qle, to_int, Qceiling, Qfloor; simpl. intros H.
  rewrite <- (Z.opp_involutive n) at 1.
  rewrite Z.quot_opp_l by lia. f_equal.
  apply Z.quot_div_nonneg; lia.
Qed.

Lemma to_int_mono x y : x <= y -> (to_int x <= to_int y)%Z.
Proof.
  intros Hxy. destruct (Qlt_le_dec x 0) as [Hx|Hx].
  - rewrite (to_int_nonpos x) by lra.
    destruct (Qlt_le_dec y 0) as [Hy|Hy].
    + rewrite (to_int_nonpos y) by lra. by apply Qceiling_resp_le.
    + rewrite (to_int_nonneg y) by done.
      assert (Qceiling x <= 0)%Z.
      { change 0%Z with (Qceiling 0). apply Qceiling_resp_le. lra. }
      assert (0 <= Qfloor y)%Z.
      { change 0%Z with (Qfloor 0). by apply Qfloor_resp_le. }
      lia.
  - rewrite (to_int_nonneg x), (to_int_nonneg y) by lra.
    by apply Qfloor_resp_le.
Qed.

Lemma of_int_100 : of_int 100 == 100.
Proof. vm_compute. reflexivity. Qed.

(** [int(x * 100)] grows with [x]. *)
Lemma percent_mono x y :
  x <= y -> (to_int (mul x (of_int 100)) <= to_int (mul y (of_int 100)))%Z.
Proof.
  intros Hxy. apply to_int_mono, round_mono.
  apply Qmult_le_compat_r; [done|]. rewrite of_int_100. lra.
Qed.

Lemma truediv_Return a b x :
  truediv a b = Return x -> b <> 0%Z /\ x = round (inject_Z a / inject_Z b).
Proof.
  unfold truediv. destruct (Z.eqb_spec b 0); [done|]. by intros [= <-].
Qed.

Lemma Qdiv_le_pos a1 a2 m :
  (0 < m)%Z -> (a2 <= a1)%Z ->
  inject_Z a2 / inject_Z m <= inject_Z a1 / inject_Z m.
Proof.
  intros Hm Ha. unfold Qdiv. apply Qmult_le_compat_r.
  - by rewrite <- Zle_Qle.
  - apply Qinv_le_0_compat. change 0 with (inject_Z 0).
    rewrite <- Zle_Qle. lia.
Qed.

Lemma Qdiv_nonneg_neg a m :
  (m < 0)%Z -> (0 <= a)%Z -> inject_Z a / inject_Z m <= 0.
Proof.
  intros Hm Ha.
  assert (H1 : 0 <= inject_Z a)
    by (change 0 with (inject_Z 0); rewrite <- Zle_Qle; lia).
  assert (H2 : inject_Z m < 0)
    by (change 0 with (inject_Z 0); rewrite <- Zlt_Qlt; lia).
  assert (H3 : inject_Z a / inject_Z m * inject_Z m == inject_Z a).
  { field. intros E. rewrite E in H2. by apply Qlt_irrefl in H2. }
  apply Qnot_lt_le. intros H4. nra.
Qed.
End FloatFacts.

(** ** The urgency weight (line 90) *)

Lemma weight_of_Return max_hours urgency w :
  weight_of max_hours urgency = Return w ->
  max_hours <> 0 /\
  w = Z.max 1 (float.to_int
                 (float.mul
                    (float.round (inject_Z (max_hours - urgency) / inject_Z max_hours))
                    (float.of_int 100))).
Proof.
  unfold weight_of.
  intros (x & [Hm ->]%truediv_Return & [= <-])%bind_Return. done.
Qed.

Lemma weight_of_total max_hours urgency :
  max_hours <> 0 -> exists w, weight_of max_hours urgency = Return w.
Proof.
  intros Hm. unfold weight_of, float.truediv.
  destruct (Z.eqb_spec max_hours 0); [done|]. by eexists.
Qed.

(** For a positive maximum the weight never grows with the hours left. *)
Lemma weight_of_anti max_hours h1 h2 w1 w2 :
  0 < max_hours -> h1 <= h2 ->
  weight_of max_hours h1 = Return w1 -> weight_of max_hours h2 = Return w2 ->
  w2 <= w1.
Proof.
  intros Hm Hh [_ ->]%weight_of_Return [_ ->]%weight_of_Return.
  apply Z.max_le_compat_l, percent_mono, round_mono, Qdiv_le_pos; lia.
Qed.

(** For a negative maximum every aircraft at or below it weighs one. *)
Lemma weight_of_neg max_hours h w :
  max_hours < 0 -> h <= max_hours -> weight_of max_hours h = Return w -> w = 1.
Proof.
  intros Hm Hh [_ ->]%weight_of_Return.
  apply Z.max_l.
  transitivity (float.to_int (float.mul (float.round 0) (float.of_int 100)));
    [|by vm_compute].
  apply percent_mono, round_mono, Qdiv_nonneg_neg; lia.
Qed.

(** "Normalize to [1..100]": with hours between zero and the maximum the
    weight is a percentage. *)
Lemma weight_of_range max_hours h w :
  0 <= h <= max_hours -> weight_of max_hours h = Return w -> 1 <= w <= 100.
Proof.
  intros Hh [Hm ->]%weight_of_Return. split; [lia|].
  apply Z.max_lub; [lia|].
  assert (H1 : float.to_int (float.mul (float.round 1) (float.of_int 100)) = 100)
    by (by vm_compute).
  rewrite <- H1. apply percent_mono, round_mono.
  apply Qle_shift_div_r.
  - change 0%Q with (inject_Z 0). rewrite <- Zlt_Qlt. lia.
  - rewrite Qmult_1_l, <- Zle_Qle. lia.
Qed.

Lemma weights_agree_upto_100 : weights_agree_upto 100 = true.
Proof. vm_compute. reflexivity. Qed.

Lemma weights_agree_upto_spec n max_hours urgency :
  weights_agree_upto n = true ->
  1 <= max_hours <= n -> 0 <= urgency <= max_hours ->
  truncated_weight max_hours urgency = b64_weight max_hours urgency.
Proof.
  intros H Hm Hh.
  unfold weights_agree_upto in H. rewrite forallb_forall in H.
  specialize (H max_hours). rewrite forallb_forall in H.
  symmetry. apply Z.eqb_eq, H.
  - apply list_elem_of_In, elem_of_seqZ. lia.
  - apply list_elem_of_In, elem_of_seqZ. lia.
Qed.

(** On every maximum up to 100 and all hours from zero up to it, the weight
    is the one the Standard Library's binary64 division and multiplication
    give; among them 29/100*100, which falls just short of 29. *)
Lemma truncated_weight_binary64 max_hours urgency :
  1 <= max_hours <= 100 -> 0 <= urgency <= max_hours ->
  truncated_weight max_hours urgency = b64_weight max_hours urgency.
Proof. exact (weights_agree_upto_spec 100 _ _ weights_agree_upto_100). Qed.

Example truncated_weight_29_percent : truncated_weight 100 71 = 28.
Proof. by vm_compute. Qed.

Example mul_tenth_by_three :
  (float.mul (float.round (1 # 10)) (float.of_int 3)
   == b64_value (SFmul 53 1024 (SFdiv 53 1024 (b64_of_int 1) (b64_of_int 10))
                       (b64_of_int 3)))%Q.
Proof. by vm_compute. Qed.

(** ** The weights dictionary (lines 83-91) *)

Lemma foldl_max_spec t h :
  foldl Z.max h t ∈ h :: t /\ forall x, x ∈ h :: t -> x <= foldl Z.max h t.
Proof.
  revert h. induction t as [|y t IH]; intros h; simpl.
  - split; [left|]. by intros x ->%list_elem_of_singleton.
  - destruct (IH (Z.max h y)) as [Hin Hub]. split.
    + apply elem_of_cons in Hin as [E|Hin]; [|by do 2 right].
      rewrite E. destruct (Z.max_spec h y) as [[_ ->]|[_ ->]];
        [right; left | left].
    + intros x Hx.
      assert (Hm : Z.max h y <= foldl Z.max (Z.max h y) t) by (apply Hub; left).
      apply elem_of_cons in Hx as [->|[->|Hx]%elem_of_cons]; [lia | lia |].
      apply Hub. by right.
Qed.

Lemma max_hours_of_nil : max_hours_of [] = 1.
Proof. reflexivity. Qed.

Lemma max_hours_of_ge fleet_df a :
  a ∈ fleet_df -> hours_until_due a <= max_hours_of fleet_df.
Proof.
  intros Ha. unfold max_hours_of.
  destruct fleet_df as [|b l]; [by apply elem_of_nil in Ha|].
  rewrite bool_decide_eq_false_2 by done. simpl.
  apply foldl_max_spec. rewrite <- fmap_cons. by apply list_elem_of_fmap_2.
Qed.

Lemma max_hours_of_attained fleet_df :
  fleet_df <> [] ->
  exists a, a ∈ fleet_df /\ hours_until_due a = max_hours_of fleet_df.
Proof.
  intros Hne. unfold max_hours_of.
  destruct fleet_df as [|b l]; [done|].
  rewrite bool_decide_eq_false_2 by done. simpl.
  destruct (foldl_max_spec (hours_until_due <$> l) (hours_until_due b)) as [Hin _].
  rewrite <- fmap_cons in Hin.
  apply list_elem_of_fmap in Hin as (a & E & Ha). by exists a.
Qed.

Lemma add_weight_Return m W a W' :
  add_weight m W a = Return W' ->
  exists w, weight_of m (hours_until_due a) = Return w /\
            W' = <[aircraft_id a := w]> W.
Proof.
  unfold add_weight. intros (w & Hw & [= <-])%bind_Return. by exists w.
Qed.

(** An identifier absent from the rows keeps its entry. *)
Lemma weights_other m l W0 W aid :
  for_each (add_weight m) l W0 = Return W ->
  aid ∉ aircraft_id <$> l -> W !! aid = W0 !! aid.
Proof.
  revert W0. induction l as [|a l IH]; intros W0; simpl.
  - by intros [= <-].
  - intros (W1 & (w & _ & ->)%add_weight_Return & Hrun)%bind_Return Hnot.
    apply not_elem_of_cons in Hnot as [Hne Hnot].
    rewrite (IH _ Hrun Hnot). by apply lookup_insert_ne.
Qed.

(** Every identifier of the rows holds the weight of one of its rows. *)
Lemma weights_member m l W0 W aid :
  for_each (add_weight m) l W0 = Return W ->
  aid ∈ aircraft_id <$> l ->
  exists a w, a ∈ l /\ aircraft_id a = aid /\
              weight_of m (hours_until_due a) = Return w /\ W !! aid = Some w.
Proof.
  revert W0. induction l as [|a l IH]; intros W0; simpl.
  - by intros _ ?%elem_of_nil.
  - intros (W1 & (w & Hw & ->)%add_weight_Return & Hrun)%bind_Return Hin.
    destruct (decide (aid ∈ aircraft_id <$> l)) as [Hl|Hl].
    + destruct (IH _ Hrun Hl) as (a' & w' & Ha' & E & Hw' & HW).
      exists a', w'. split; [by right | done].
    + apply elem_of_cons in Hin as [->|Hin]; [|done].
      exists a, w. split; [left|]. split; [done|]. split; [done|].
      rewrite (weights_other _ _ _ _ _ Hrun Hl). apply lookup_insert_eq.
Qed.

(** With distinct identifiers each row finds its own weight. *)
Lemma weights_own m l W0 W a :
  for_each (add_weight m) l W0 = Return W ->
  NoDup (aircraft_id <$> l) -> a ∈ l ->
  exists w, weight_of m (hours_until_due a) = Return w /\
            W !! aircraft_id a = Some w.
Proof.
  revert W0. induction l as [|b l IH]; intros W0; simpl.
  - by intros _ _ ?%elem_of_nil.
  - intros (W1 & (w & Hw & ->)%add_weight_Return & Hrun)%bind_Return
            [Hnot Hnd]%NoDup_cons [->|Ha]%elem_of_cons.
    + exists w. split; [done|].
      rewrite (weights_other _ _ _ _ _ Hrun Hnot). apply lookup_insert_eq.
    + by eapply IH.
Qed.

Lemma weights_rows m l W0 W a :
  for_each (add_weight m) l W0 = Return W -> a ∈ l ->
  exists w, weight_of m (hours_until_due a) = Return w.
Proof.
  revert W0. induction l as [|b l IH]; intros W0; simpl.
  - by intros _ ?%elem_of_nil.
  - intros (W1 & (w & Hw & ->)%add_weight_Return & Hrun)%bind_Return
            [->|Ha]%elem_of_cons; [by exists w | by eapply IH].
Qed.

Lemma weights_total m l W0 :
  m <> 0 -> exists W, for_each (add_weight m) l W0 = Return W.
Proof.
  intros Hm. revert W0. induction l as [|a l IH]; intros W0; simpl.
  - by eexists.
  - destruct (weight_of_total m (hours_until_due a) Hm) as [w Hw].
    assert (E : add_weight m W0 a = Return (<[aircraft_id a := w]> W0))
      by (unfold add_weight; by rewrite Hw).
    rewrite E. simpl. apply IH.
Qed.

Lemma compute_weights_total fleet_df :
  max_hours_of fleet_df <> 0 ->
  exists W, compute_weights fleet_df = Return W.
Proof. intros Hm. by apply weights_total. Qed.

(** Hours that are not negative and not all equal have a positive maximum. *)
Lemma max_hours_of_pos fleet_df a1 a2 :
  a1 ∈ fleet_df -> a2 ∈ fleet_df ->
  0 <= hours_until_due a1 < hours_until_due a2 ->
  0 < max_hours_of fleet_df.
Proof.
  intros _ Ha2 Hlt. pose proof (max_hours_of_ge _ _ Ha2). lia.
Qed.

(** A fleet whose hours are all zero stops the run before the solve. *)
Lemma compute_weights_zero fleet_df :
  fleet_df <> [] -> max_hours_of fleet_df = 0 ->
  compute_weights fleet_df = Raise ZeroDivisionError.
Proof.
  intros Hne Hm. unfold compute_weights. rewrite Hm.
  destruct fleet_df as [|a l]; [done|]. reflexivity.
Qed.

(** ** The model is built whenever the weights are *)

Lemma objective_terms_total st weights l :
  (forall aid, aid ∈ l -> is_Some (start_day st !! aid)) ->
  (forall aid, aid ∈ l -> is_Some (weights !! aid)) ->
  exists terms, mapM (objective_term st weights) l = Return terms.
Proof.
  intros Hs Hw. apply mapM_total. intros aid Haid.
  destruct (Hs aid Haid) as [s Es], (Hw aid Haid) as [w Ew].
  exists (w, s). unfold objective_term.
  by rewrite (getitem_Some _ _ _ Es), (getitem_Some _ _ _ Ew).
Qed.

Lemma objective_term_Return st weights aid t :
  objective_term st weights aid = Return t ->
  start_day st !! aid = Some t.2 /\ weights !! aid = Some t.1.
Proof.
  unfold objective_term.
  intros (s & Hs%getitem_Return & (w & Hw%getitem_Return & [= <-])%bind_Return)%bind_Return.
  done.
Qed.

Lemma build_model_total P fleet_df :
  max_hours_of fleet_df <> 0 ->
  exists st, build_model P fleet_df = Return st.
Proof.
  intros Hm. unfold build_model.
  destruct (build_constraints_spec P (aircraft_id <$> fleet_df))
    as (st0 & -> & Hlinked & _).
  destruct (compute_weights_total fleet_df Hm) as [W HW]. rewrite HW.
  cbn [mbind result_bind].
  destruct (objective_terms_total st0 W (aircraft_id <$> fleet_df))
    as [terms ->].
  - intros aid (s & du & Hs & _)%Hlinked. by exists s.
  - intros aid Haid.
    destruct (weights_member _ _ _ _ _ HW Haid) as (a & w & _ & _ & _ & E).
    by exists w.
  - by eexists.
Qed.

Lemma build_model_zero P fleet_df :
  fleet_df <> [] -> max_hours_of fleet_df = 0 ->
  build_model P fleet_df = Raise ZeroDivisionError.
Proof.
  intros Hne Hm. unfold build_model.
  destruct (build_constraints_spec P (aircraft_id <$> fleet_df))
    as (st0 & -> & _).
  cbn [mbind result_bind]. by rewrite compute_weights_zero.
Qed.

(** ** Part allocation (lines 118-148) *)

Lemma randint_spec a b g :
  a <= b ->
  exists q g', randint a b g = Return (q, g') /\ a <= q <= b /\
               entropy g' = entropy g /\ drawn g' = S (drawn g).
Proof.
  intros Hab. unfold randint.
  destruct (Z.ltb_spec b a); [lia|].
  eexists _, _. split; [reflexivity|]. simpl. split; [|done].
  pose proof (Z.mod_pos_bound (entropy g (drawn g)) (b - a + 1)). lia.
Qed.

Lemma allocation_step_fields inv1 inv2 a inv' :
  parts_copy inv1 = parts_copy inv2 ->
  total_parts_available inv1 = total_parts_available inv2 ->
  random inv1 = random inv2 ->
  allocation_step inv2 a inv' -> allocation_step inv1 a inv'.
Proof.
  intros E1 E2 E3 [(-> & H1 & H2 & H3)|(idx & p & H)].
  - left. unfold left_unresourced. rewrite E1, E2, E3. done.
  - right. exists idx, p. unfold allocated_from in *. by rewrite E1, E2, E3.
Qed.

(** The probing loop never raises on a non-empty inventory: the row it reads
    exists, the range it draws from starts at one and ends at one or more,
    and the modulus is the positive length. *)
Lemma probe_spec remaining inv :
  parts_copy inv <> [] ->
  exists a inv', probe remaining inv = Return (a, inv') /\
                 allocation_step inv a inv' /\
                 length (parts_copy inv') = length (parts_copy inv).
Proof.
  revert inv. induction remaining as [|r IH]; intros inv Hne.
  - exists unallocated, inv. split; [done|]. split; [by left | done].
  - cbn [probe].
    set (n := length (parts_copy inv)).
    assert (Hn : (0 < n)%nat).
    { unfold n. destruct (parts_copy inv); [done | simpl; lia]. }
    set (idx := if bool_decide (n <= part_idx inv)%nat then 0%nat
                else part_idx inv).
    assert (Hidx : (idx < n)%nat).
    { unfold idx. case_bool_decide; lia. }
    destruct (lookup_lt_is_Some_2 (parts_copy inv) idx Hidx) as [prow Hrow].
    unfold loc. rewrite Hrow. cbn [mbind result_bind].
    assert (Hmod : forall k, pymod k n = Return (k mod n)%nat).
    { intros k. unfold pymod. rewrite bool_decide_eq_false_2; [done | lia]. }
    destruct (Z.ltb_spec 0 (quantity_on_hand prow)) as [Hpos|Hnonpos].
    + destruct (randint_spec 1 (Z.min 3 (quantity_on_hand prow)) (random inv))
        as (q & g' & Hdraw & Hq & _); [lia|].
      rewrite Hdraw, Hmod. cbn [mbind result_bind].
      eexists _, _. split; [reflexivity|]. split.
      * right. exists idx, prow. unfold allocated_from; simpl.
        split; [done|]. split; [lia|]. done.
      * simpl. by rewrite length_insert.
    + rewrite Hmod. cbn [mbind result_bind].
      match goal with |- context [probe r ?i] => set (inv2 := i) end.
      destruct (IH inv2 Hne) as (a & inv' & Hrun & Hstep & Hlen).
      exists a, inv'. split; [exact Hrun|]. split; [|exact Hlen].
      by eapply allocation_step_fields; [..|exact Hstep].
Qed.

Lemma allocate_spec inv :
  exists a inv', allocate inv = Return (a, inv') /\
                 allocation_step inv a inv' /\
                 length (parts_copy inv') = length (parts_copy inv).
Proof.
  unfold allocate.
  destruct (0 <? total_parts_available inv); simpl.
  - case_bool_decide as Hne; simpl.
    + exists unallocated, inv. split; [done|]. split; [by left | done].
    + by apply probe_spec.
  - exists unallocated, inv. split; [done|]. split; [by left | done].
Qed.

(** *** What one step does to the stock *)

Lemma stock_insert pid l idx p q :
  l !! idx = Some p ->
  stock pid (<[idx := set_quantity_on_hand q p]> l) =
  stock pid l
  - (if bool_decide (part_id p = pid) then quantity_on_hand p - q else 0).
Proof.
  revert idx. induction l as [|x l IH]; intros [|idx]; simpl; try done.
  - intros [= ->]. case_bool_decide; lia.
  - intros Hl. rewrite (IH idx Hl). lia.
Qed.

Lemma stock_nonneg_insert l idx p q :
  stock_nonneg l -> 0 <= q ->
  stock_nonneg (<[idx := set_quantity_on_hand q p]> l).
Proof.
  intros Hl Hq. unfold stock_nonneg in *. revert idx.
  induction Hl as [|x l Hx Hl IH]; intros [|idx]; simpl; constructor; eauto.
Qed.

Lemma stock_nonneg_stock pid l : stock_nonneg l -> 0 <= stock pid l.
Proof.
  unfold stock_nonneg.
  induction 1 as [|x l Hx Hl IH]; simpl; [done|]. case_bool_decide; lia.
Qed.

Lemma allocation_step_nonneg inv a inv' :
  allocation_step inv a inv' ->
  stock_nonneg (parts_copy inv) -> stock_nonneg (parts_copy inv').
Proof.
  intros [(_ & -> & _)|(idx & p & _ & _ & _ & Hq & _ & _ & -> & _)] Hnn;
    [done|].
  apply stock_nonneg_insert; [done | lia].
Qed.

(** Units handed out and units left always add up to what was there. *)
Lemma allocation_step_stock pid inv a inv' :
  allocation_step inv a inv' ->
  stock pid (parts_copy inv') +
  (if bool_decide (alloc_part_id a = Some pid) then alloc_quantity a else 0)
  = stock pid (parts_copy inv).
Proof.
  intros [(-> & -> & _)|(idx & p & Hrow & _ & _ & _ & Hid & _ & -> & _)].
  - simpl. lia.
  - rewrite (stock_insert _ _ _ _ _ Hrow), Hid.
    destruct (decide (part_id p = pid)) as [E|NE].
    + rewrite !bool_decide_eq_true_2 by congruence. lia.
    + rewrite !bool_decide_eq_false_2 by congruence. lia.
Qed.

Lemma stock_insert_desc pid p l :
  stock pid (insert_desc p l) =
  (if bool_decide (part_id p = pid) then quantity_on_hand p else 0) + stock pid l.
Proof.
  induction l as [|x l IH]; simpl; [done|].
  destruct (_ <=? _); simpl; [done|]. rewrite IH. lia.
Qed.

Lemma stock_sort_values_desc pid l : stock pid (sort_values_desc l) = stock pid l.
Proof.
  induction l as [|x l IH]; simpl; [done|]. by rewrite stock_insert_desc, IH.
Qed.

Lemma stock_nonneg_insert_desc p l :
  0 <= quantity_on_hand p -> stock_nonneg l -> stock_nonneg (insert_desc p l).
Proof.
  intros Hp. unfold stock_nonneg. induction 1 as [|x l Hx Hl IH]; simpl.
  - by constructor.
  - destruct (quantity_on_hand x <=? quantity_on_hand p).
    + constructor; [done|]. by constructor.
    + by constructor.
Qed.

Lemma stock_nonneg_sort_values_desc l :
  stock_nonneg l -> stock_nonneg (sort_values_desc l).
Proof.
  unfold stock_nonneg at 1. induction 1 as [|x l Hx Hl IH]; simpl; [constructor|].
  by apply stock_nonneg_insert_desc.
Qed.

(** ** Emission (lines 114-158) *)

Lemma schedule_row_spec st Value em row :
  is_Some (start_day st !! aircraft_id row) ->
  is_Some (duration st !! aircraft_id row) ->
  exists em' t, schedule_row st Value em row = Return em' /\
                row_emitted st Value em row em' t.
Proof.
  intros [s Hs] [du Hdu]. unfold schedule_row.
  rewrite (getitem_Some _ _ _ Hs), (getitem_Some _ _ _ Hdu).
  cbn [mbind result_bind].
  destruct (allocate_spec (inventory em)) as ([[pid q] cst] & inv' & Hal & Hstep & _).
  rewrite Hal. cbn [mbind result_bind now_normalize].
  eexists _, _. split; [reflexivity|].
  exists s, du. simpl. unfold task_allocation. simpl. done.
Qed.

Lemma schedule_row_Return st Value em row em' :
  schedule_row st Value em row = Return em' ->
  exists t, row_emitted st Value em row em' t.
Proof.
  intros Hrun.
  assert (Hs : is_Some (start_day st !! aircraft_id row)).
  { unfold schedule_row in Hrun.
    apply bind_Return in Hrun as (s & Hs%getitem_Return & _). by exists s. }
  assert (Hdu : is_Some (duration st !! aircraft_id row)).
  { unfold schedule_row in Hrun.
    apply bind_Return in Hrun as (s & _ & Hrun).
    apply bind_Return in Hrun as (du & Hdu%getitem_Return & _). by exists du. }
  destruct (schedule_row_spec st Value em row Hs Hdu) as (em2 & t & E & Hrow).
  rewrite Hrun in E. injection E as <-. by exists t.
Qed.

Lemma emit_loop_total st Value l em :
  (forall a, a ∈ l -> is_Some (start_day st !! aircraft_id a) /\
                      is_Some (duration st !! aircraft_id a)) ->
  exists em', for_each (schedule_row st Value) l em = Return em'.
Proof.
  revert em. induction l as [|a l IH]; intros em Hok; simpl; [by eexists|].
  destruct (Hok a) as [Hs Hdu]; [left|].
  destruct (schedule_row_spec st Value em a Hs Hdu) as (em1 & t & -> & _).
  simpl. apply IH. intros b Hb. apply Hok. by right.
Qed.

(** The rows appended by the loop, one per aircraft and in fleet order, each
    stamped with two successive readings of the clock. *)
Lemma emit_loop_rows st Value l em em' :
  for_each (schedule_row st Value) l em = Return em' ->
  exists new,
    schedule_rows em' = schedule_rows em ++ new /\
    length new = length l /\
    day_at (clock em') = day_at (clock em) /\
    reads (clock em') = (reads (clock em) + 2 * length l)%nat /\
    length (parts_copy (inventory em')) = length (parts_copy (inventory em)) /\
    forall i a, l !! i = Some a ->
      exists t s du,
        new !! i = Some t /\
        start_day st !! aircraft_id a = Some s /\
        duration st !! aircraft_id a = Some du /\
        task_aircraft_id t = aircraft_id a /\
        status t = "SCHEDULED" /\
        schedule_start t
          = day_at (clock em) (reads (clock em) + 2 * i) + Value s /\
        schedule_end t
          = day_at (clock em) (reads (clock em) + 2 * i + 1)
            + (Value s + Value du).
Proof.
  revert em. induction l as [|a l IH]; intros em; simpl.
  - intros [= <-]. exists []. rewrite app_nil_r.
    split; [done|]. split; [done|]. split; [done|]. split; [lia|].
    split; [done|]. by intros i a' ?.
  - intros (em1 & Hrow & Hrun)%bind_Return.
    pose proof (schedule_row_Return _ _ _ _ _ Hrow)
      as (t & s & du & Hs & Hdu & Hrows & Hid & Hst & Hend & Hstatus & Halloc
            & Hday & Hreads & _).
    destruct (IH _ Hrun) as (new & Hrows' & Hlen & Hday' & Hreads' & Hparts & Hnew).
    exists (t :: new).
    split; [by rewrite Hrows', Hrows, <- app_assoc|].
    split; [simpl; lia|].
    split; [congruence|].
    split; [lia|].
    split.
    { rewrite Hparts.
      destruct Halloc as [(_ & -> & _)|(idx & p & H)]; [done|].
      destruct H as (_ & _ & _ & _ & _ & _ & -> & _). by rewrite length_insert. }
    intros [|i] b; simpl.
    + intros [= <-]. exists t, s, du.
      rewrite Nat.add_0_r, Nat.add_1_r. done.
    + intros Hb. destruct (Hnew i b Hb) as (t' & s' & du' & H1 & H2 & H3 & H4 & H5 & H6 & H7).
      exists t', s', du'. rewrite Hday, Hreads in H6, H7.
      do 5 (split; [done|]).
      split; [rewrite H6 | rewrite H7]; do 2 f_equal; lia.
Qed.

(** *** The emitter after a prefix of the fleet *)

Lemma emitter_after_S st Value fleet_df parts_df g c i a :
  fleet_df !! i = Some a ->
  emitter_after st Value fleet_df parts_df g c (S i) =
  (emitter_after st Value fleet_df parts_df g c i
     ≫= fun em => schedule_row st Value em a).
Proof.
  intros Ha. unfold emitter_after.
  rewrite (take_S_r _ _ _ Ha), for_each_app.
  destruct (for_each _ (take i fleet_df) _) as [e|em]; simpl; [done|].
  by destruct (schedule_row st Value em a).
Qed.

Lemma emitter_after_prefix st Value fleet_df parts_df g c em i :
  emit st Value fleet_df parts_df g c = Return em ->
  exists em_i,
    emitter_after st Value fleet_df parts_df g c i = Return em_i /\
    for_each (schedule_row st Value) (drop i fleet_df) em_i = Return em.
Proof.
  unfold emit, emitter_after. rewrite <- (take_drop i fleet_df) at 1.
  rewrite for_each_app. intros (em_i & H1 & H2)%bind_Return. by exists em_i.
Qed.

(** The [i]-th returned row is the one appended by the [i]-th turn. *)
Lemma emitted_row st Value fleet_df parts_df g c em i t :
  emit st Value fleet_df parts_df g c = Return em ->
  schedule_rows em !! i = Some t ->
  exists a em_i em_i',
    fleet_df !! i = Some a /\
    emitter_after st Value fleet_df parts_df g c i = Return em_i /\
    emitter_after st Value fleet_df parts_df g c (S i) = Return em_i' /\
    row_emitted st Value em_i a em_i' t.
Proof.
  intros Hemit Ht.
  destruct (emit_loop_rows _ _ _ _ _ Hemit) as (new & Hrows & Hlen & _).
  simpl in Hrows. rewrite Hrows in Ht.
  assert (Hi : (i < length fleet_df)%nat).
  { rewrite <- Hlen. by eapply lookup_lt_Some. }
  destruct (lookup_lt_is_Some_2 fleet_df i Hi) as [a Ha].
  destruct (emitter_after_prefix _ _ _ _ _ _ _ i Hemit) as (em_i & Hi1 & Hrest).
  rewrite (drop_S _ _ _ Ha) in Hrest. simpl in Hrest.
  apply bind_Return in Hrest as (em_i' & Hrow & Hrest).
  exists a, em_i, em_i'. split; [done|]. split; [done|].
  split; [by rewrite (emitter_after_S _ _ _ _ _ _ _ _ Ha), Hi1|].
  destruct (schedule_row_Return _ _ _ _ _ Hrow) as (t' & Hrow').
  enough (t' = t) as <- by done.
  pose proof Hrow' as (_ & _ & _ & _ & Hrows_i' & _).
  destruct (emit_loop_rows _ _ _ _ _ Hi1) as (new_i & Hrows_i & Hlen_i & _).
  destruct (emit_loop_rows _ _ _ _ _ Hrest) as (new_r & Hrows_r & _).
  simpl in Hrows_i. rewrite length_take_le in Hlen_i by lia.
  rewrite Hrows_r, Hrows_i', Hrows_i in Hrows.
  rewrite <- Hrows in Ht.
  rewrite <- !app_assoc in Ht. rewrite lookup_app_r in Ht by lia.
  rewrite Hlen_i, Nat.sub_diag in Ht. simpl in Ht. congruence.
Qed.

(** ** The run as a whole *)

Lemma generate_schedule_Return P Solve g c fleet_df parts_df rows :
  generate_schedule P Solve g c fleet_df parts_df = Return rows ->
  exists st em,
    build_model P fleet_df = Return st /\
    solved (Solve (model st)).1 = true /\
    emit st (Solve (model st)).2 fleet_df parts_df g c = Return em /\
    rows = schedule_rows em.
Proof.
  unfold generate_schedule. intros (st & Hb & Hrun)%bind_Return.
  destruct (Solve (model st)) as [status Value] eqn:Hsolve.
  destruct (solved status) eqn:Hst; simpl in Hrun; [|done].
  apply bind_Return in Hrun as (em & Hem & [= <-]).
  exists st, em. rewrite Hsolve. done.
Qed.

Lemma emit_total P fleet_df st Value parts_df g c :
  build_model P fleet_df = Return st ->
  exists em, emit st Value fleet_df parts_df g c = Return em.
Proof.
  intros [Hlinked _]%build_model_linked. apply emit_loop_total.
  intros a Ha.
  destruct (Hlinked (aircraft_id a)) as (s & du & Hs & Hdu & _).
  { by apply list_elem_of_fmap_2. }
  split; by eexists.
Qed.

Lemma checking_solver_sound candidate : sound (checking_solver candidate).
Proof.
  intros m. unfold checking_solver.
  destruct (feasible candidate m) eqn:E; simpl; [done|].
  intros [?|?]; discriminate.
Qed.

Lemma rows_A_returned :
  generate_schedule module_params (checking_solver plan_A) random_A clock_A
                    fleet_A parts_A = Return rows_A.
Proof. vm_compute. reflexivity. Qed.

(** ** Counting the aircraft of a day *)

Lemma eval_indicators (Value : Assignment) {A : Type} (f : A -> bool) l ons :
  Forall2 (fun x on => Value on = if f x then 1 else 0) l ons ->
  eval Value ((fun b => (1, b)) <$> ons) = count_if f l.
Proof.
  induction 1 as [|x on l ons Hx _ IH]; [done|].
  change (eval Value ((fun b => (1, b)) <$> on :: ons))
    with (1 * Value on + eval Value ((fun b => (1, b)) <$> ons)).
  change (count_if f (x :: l)) with ((if f x then 1 else 0) + count_if f l).
  rewrite IH, Hx. lia.
Qed.

Lemma count_if_lookup {A B : Type} (f : A -> bool) (g : B -> bool) l1 l2 :
  length l1 = length l2 ->
  (forall i x y, l1 !! i = Some x -> l2 !! i = Some y -> f x = g y) ->
  count_if f l1 = count_if g l2.
Proof.
  revert l2. induction l1 as [|x l1 IH]; intros [|y l2]; simpl; try done.
  intros [= Hlen] Hfg.
  rewrite (Hfg 0%nat x y) by done.
  rewrite (IH l2 Hlen); [done|].
  intros i x' y' Hx' Hy'. by apply (Hfg (S i)).
Qed.

(** The daily capacity in terms of the windows: under a feasible assignment
    at most [CREW_AVAILABLE] of the listed aircraft have a window holding
    day [d]. *)
Lemma capacity_of_windows P fleet_df st Value d :
  build_model P fleet_df = Return st ->
  feasible Value (model st) = true ->
  0 <= d < PLANNING_HORIZON_DAYS P ->
  count_if (fun aid => in_window (Value (start_day st !!! aid))
                                 (Value (duration st !!! aid)) d)
           (aircraft_id <$> fleet_df)
  <= CREW_AVAILABLE P.
Proof.
  intros [Hlinked Hcap]%build_model_linked Hfeas Hd%elem_of_range.
  destruct (Hcap d Hd) as (ons & Hons & Hposted).
  rewrite <- (eval_indicators Value _ _ ons);
    [by eapply capacity_sound|].
  eapply Forall2_impl with
    (P := fun aid on => aid ∈ aircraft_id <$> fleet_df /\
                        is_scheduled_on_day st !! (aid, d) = Some on).
  - clear -Hons. induction Hons as [|aid on l ons H _ IH]; constructor.
    + split; [left | done].
    + eapply Forall2_impl; [exact IH|]. intros ? ? [? ?]. split; [by right | done].
  - intros aid on [Haid Hon].
    destruct (linked_sound P st Value aid d Hfeas (Hlinked aid Haid) Hd)
      as (s & du & on' & Hs & Hdu & Hon' & _ & _ & Hval).
    rewrite Hon in Hon'. injection Hon' as <-.
    by rewrite (lookup_total_correct _ _ _ Hs), (lookup_total_correct _ _ _ Hdu).
Qed.

(** The count read back from the dates of the returned rows is the count
    over the windows the solver holds. *)
Lemma crew_needed_windows P Solve g c fleet_df parts_df rows d :
  generate_schedule P Solve g c fleet_df parts_df = Return rows ->
  exists st,
    build_model P fleet_df = Return st /\
    crew_needed c rows d =
    count_if (fun aid =>
                in_window ((Solve (model st)).2 (start_day st !!! aid))
                          ((Solve (model st)).2 (duration st !!! aid)) d)
             (aircraft_id <$> fleet_df).
Proof.
  intros (st & em & Hb & Hsolved & Hemit & ->)%generate_schedule_Return.
  exists st. split; [exact Hb|].
  set (Value := (Solve (model st)).2) in *.
  unfold crew_needed.
  destruct (emit_loop_rows _ _ _ _ _ Hemit) as (new & Hrows & Hlen & _ & _ & _ & Hnew).
  simpl in Hrows, Hnew. rewrite Hrows.
  apply count_if_lookup.
  { by rewrite length_imap, length_fmap. }
  intros i [j t] aid Ht Haid.
  rewrite list_lookup_imap in Ht. rewrite list_lookup_fmap in Haid.
  destruct (fleet_df !! i) as [a|] eqn:Ha; [|done]. injection Haid as <-.
  destruct (Hnew i a Ha) as (t' & s & du & Ht' & Hs & Hdu & _ & _ & Hstart & Hend).
  rewrite Ht' in Ht. injection Ht as <- <-.
  rewrite (lookup_total_correct _ _ _ Hs), (lookup_total_correct _ _ _ Hdu).
  unfold occupies, in_window, row_start_day, row_end_day. simpl.
  rewrite Hstart, Hend. f_equal; [f_equal|f_equal]; lia.
Qed.

(** * The claims *)

(** C1. In every schedule returned by [generate_schedule] with a solver that
    only reports assignments satisfying the model, on each day [d] of the
    horizon the number of rows whose window (start day up to, not including,
    start day plus duration) holds [d] is at most [CREW_AVAILABLE]; the
    windows read back from the rows' dates are the ones the solver holds for
    the aircraft. *)
Theorem capacity_respected P Solve g c fleet_df parts_df rows d :
  sound Solve ->
  generate_schedule P Solve g c fleet_df parts_df = Return rows ->
  0 <= d < PLANNING_HORIZON_DAYS P ->
  crew_needed c rows d <= CREW_AVAILABLE P /\
  exists st,
    build_model P fleet_df = Return st /\
    crew_needed c rows d =
    count_if (fun aid =>
                in_window ((Solve (model st)).2 (start_day st !!! aid))
                          ((Solve (model st)).2 (duration st !!! aid)) d)
             (aircraft_id <$> fleet_df).
Proof.
  intros Hsound Hrun Hd.
  destruct (crew_needed_windows P Solve g c fleet_df parts_df rows d Hrun)
    as (st & Hb & Hcount).
  split; [|by exists st].
  apply generate_schedule_Return in Hrun as (st' & em & Hb' & Hsolved & _).
  assert (st' = st) as -> by congruence.
  rewrite Hcount. apply (capacity_of_windows P fleet_df st); [exact Hb | | exact Hd].
  apply Hsound. destruct (Solve (model st)).1; try done; auto.
Qed.

Lemma capacity_respected_witness :
  exists rows,
    generate_schedule module_params (checking_solver plan_A) random_A clock_A
                      fleet_A parts_A = Return rows /\
    crew_needed clock_A rows 0 <= 2.
Proof.
  exists rows_A. split; [exact rows_A_returned|].
  apply (capacity_respected module_params (checking_solver plan_A) random_A
           clock_A fleet_A parts_A rows_A 0).
  - apply checking_solver_sound.
  - exact rows_A_returned.
  - simpl. lia.
Defined.

(** C2. For every aircraft of the fleet and every day [d] of the horizon, in
    every assignment that satisfies the built model the boolean of that
    aircraft and day is one if and only if [start_day <= d] and
    [start_day + duration > d], and zero otherwise: the link holds in both
    directions. *)
Theorem reified_link_bidirectional P fleet_df st Value aid d :
  build_model P fleet_df = Return st ->
  feasible Value (model st) = true ->
  aid ∈ aircraft_id <$> fleet_df ->
  0 <= d < PLANNING_HORIZON_DAYS P ->
  exists s du on,
    start_day st !! aid = Some s /\
    duration st !! aid = Some du /\
    is_scheduled_on_day st !! (aid, d) = Some on /\
    (Value on = 0 \/ Value on = 1) /\
    (Value on = 1 <-> Value s <= d /\ Value s + Value du > d).
Proof.
  intros [Hlinked _]%build_model_linked Hfeas Haid Hd%elem_of_range.
  destruct (Hlinked aid Haid) as (s & du & Hs & Hdu & _ & _ & Hdays).
  destruct (Hdays d Hd) as (on & b & a & Hon & Von & Vb & Va & Hposted).
  exists s, du, on. do 3 (split; [done|]).
  exact (link_constraints_sound Value (model st) s du on b a d
           Hfeas Von Vb Va Hposted).
Qed.

Lemma reified_link_bidirectional_witness :
  exists s du on,
    start_day built_A !! "AIR-1002" = Some s /\
    duration built_A !! "AIR-1002" = Some du /\
    is_scheduled_on_day built_A !! ("AIR-1002", 1) = Some on /\
    (plan_A on = 0 \/ plan_A on = 1) /\
    (plan_A on = 1 <-> plan_A s <= 1 /\ plan_A s + plan_A du > 1).
Proof.
  apply (reified_link_bidirectional module_params fleet_A built_A plan_A
           "AIR-1002" 1).
  - vm_compute. reflexivity.
  - vm_compute. reflexivity.
  - apply list_elem_of_In. simpl. tauto.
  - simpl. lia.
Defined.

(** C3, as the code has it.  The specification's [round] is a truncation in
    the code: for hours 1 and 3 the first aircraft weighs 66, where rounding
    two thirds of a hundred gives 67. *)
Lemma weight_truncates_counterexample :
  (exists weights,
     compute_weights fleet_B = Return weights /\
     weights !! "AIR-1001" = Some 66) /\
  spec_weight (spec_max_hours fleet_B) 1 = 67.
Proof.
  split; [|by vm_compute].
  eexists. split; [vm_compute; reflexivity|]. by vm_compute.
Qed.

Lemma weights_lookup fleet_df weights aid :
  compute_weights fleet_df = Return weights ->
  aid ∈ aircraft_id <$> fleet_df ->
  exists a, a ∈ fleet_df /\ aircraft_id a = aid /\
    weights !! aid
      = Some (truncated_weight (max_hours_of fleet_df) (hours_until_due a)).
Proof.
  intros HW Haid.
  destruct (weights_member _ _ _ _ _ HW Haid) as (a & w & Ha & E & Hw & Hl).
  apply weight_of_Return in Hw as [_ ->]. by exists a.
Qed.

Lemma weights_lookup_own fleet_df weights a :
  compute_weights fleet_df = Return weights ->
  NoDup (aircraft_id <$> fleet_df) -> a ∈ fleet_df ->
  weights !! aircraft_id a
    = Some (truncated_weight (max_hours_of fleet_df) (hours_until_due a)).
Proof.
  intros HW Hnd Ha.
  destruct (weights_own _ _ _ _ _ HW Hnd Ha) as (w & Hw & Hl).
  by apply weight_of_Return in Hw as [_ ->].
Qed.

Lemma eval_objective_terms st weights Value fleet_df terms :
  Forall2 (fun aid t => objective_term st weights aid = Return t)
          (aircraft_id <$> fleet_df) terms ->
  eval Value terms = weighted_start_days st weights Value fleet_df.
Proof.
  revert terms. induction fleet_df as [|a l IH]; intros terms.
  - by intros ->%Forall2_nil_inv_l.
  - rewrite fmap_cons.
    intros (t & terms' & [Hs Hw]%objective_term_Return & Hrest & ->)%Forall2_cons_inv_l.
    change (eval Value (t :: terms')) with (t.1 * Value t.2 + eval Value terms').
    rewrite (IH _ Hrest). unfold weighted_start_days; simpl.
    rewrite (lookup_total_correct _ _ _ Hs), (lookup_total_correct _ _ _ Hw).
    lia.
Qed.

(** C3, amended.  Whenever the maximum of [hours_until_due] is not zero (it
    is taken as one for an empty fleet) the model is built, its objective is
    the sum over the fleet of [start_day * weight], every weight is
    [max(1, int(((max - hours) / max) * 100))] for an aircraft with that
    identifier (the aircraft itself when identifiers are distinct), [int]
    truncating, and the maximum is attained in the fleet and bounds it. *)
Theorem objective_weighted_sum P fleet_df :
  max_hours_of fleet_df <> 0 ->
  exists st weights terms,
    build_model P fleet_df = Return st /\
    compute_weights fleet_df = Return weights /\
    objective (model st) = Some terms /\
    (forall Value,
       eval Value terms = weighted_start_days st weights Value fleet_df) /\
    (forall aid, aid ∈ aircraft_id <$> fleet_df ->
       exists a, a ∈ fleet_df /\ aircraft_id a = aid /\
         weights !! aid
           = Some (truncated_weight (max_hours_of fleet_df) (hours_until_due a))) /\
    (NoDup (aircraft_id <$> fleet_df) ->
     forall a, a ∈ fleet_df ->
       weights !! aircraft_id a
         = Some (truncated_weight (max_hours_of fleet_df) (hours_until_due a))) /\
    (fleet_df = [] -> max_hours_of fleet_df = 1) /\
    (forall a, a ∈ fleet_df -> hours_until_due a <= max_hours_of fleet_df) /\
    (fleet_df <> [] ->
     exists a, a ∈ fleet_df /\ hours_until_due a = max_hours_of fleet_df).
Proof.
  intros Hm. destruct (build_model_total P fleet_df Hm) as [st Hb].
  pose proof Hb as (st0 & W & terms & H0 & HW & Hterms & ->)%build_model_Return.
  exists (with_model (Minimize terms (model st0)) st0), W, terms.
  split; [exact Hb|]. split; [exact HW|]. split; [reflexivity|].
  split.
  { intros Value. apply (eval_objective_terms st0). by apply mapM_Return. }
  split; [intros aid; by apply weights_lookup|].
  split; [intros Hnd a; by apply weights_lookup_own|].
  split; [by intros ->|].
  split; [intros a; apply max_hours_of_ge | apply max_hours_of_attained].
Qed.

Lemma objective_weighted_sum_witness :
  exists st weights terms,
    build_model module_params fleet_A = Return st /\
    compute_weights fleet_A = Return weights /\
    objective (model st) = Some terms /\
    (forall Value,
       eval Value terms = weighted_start_days st weights Value fleet_A) /\
    (forall a, a ∈ fleet_A -> hours_until_due a <= max_hours_of fleet_A).
Proof.
  destruct (objective_weighted_sum module_params fleet_A)
    as (st & weights & terms & Hb & HW & Hobj & Heval & _ & _ & _ & Hmax & _).
  - by vm_compute.
  - exact (ex_intro _ st (ex_intro _ weights (ex_intro _ terms
             (conj Hb (conj HW (conj Hobj (conj Heval Hmax))))))).
Defined.

(** C9.  In a fleet whose maximum of hours is not zero (as it is whenever
    hours are not negative and two of them differ) the weights are computed,
    and an aircraft with fewer hours left never weighs less: the quotient,
    the product by one hundred and the truncation are all monotone, also
    after rounding to binary64.  With distinct identifiers these are the
    weights the dictionary holds for the two aircraft. *)
Theorem weight_monotone fleet_df a1 a2 :
  max_hours_of fleet_df <> 0 ->
  a1 ∈ fleet_df -> a2 ∈ fleet_df ->
  hours_until_due a1 < hours_until_due a2 ->
  exists weights w1 w2,
    compute_weights fleet_df = Return weights /\
    weight_of (max_hours_of fleet_df) (hours_until_due a1) = Return w1 /\
    weight_of (max_hours_of fleet_df) (hours_until_due a2) = Return w2 /\
    w2 <= w1 /\
    (NoDup (aircraft_id <$> fleet_df) ->
     weights !! aircraft_id a1 = Some w1 /\
     weights !! aircraft_id a2 = Some w2).
Proof.
  intros Hm Ha1 Ha2 Hlt.
  destruct (compute_weights_total fleet_df Hm) as [weights HW].
  destruct (weights_rows _ _ _ _ _ HW Ha1) as [w1 Hw1].
  destruct (weights_rows _ _ _ _ _ HW Ha2) as [w2 Hw2].
  exists weights, w1, w2.
  split; [exact HW|]. split; [exact Hw1|]. split; [exact Hw2|]. split.
  - pose proof (max_hours_of_ge _ _ Ha1) as Hle1.
    pose proof (max_hours_of_ge _ _ Ha2) as Hle2.
    destruct (Z.lt_trichotomy (max_hours_of fleet_df) 0) as [Hneg|[E|Hpos]];
      [|done|].
    + rewrite (weight_of_neg _ _ _ Hneg Hle1 Hw1).
      rewrite (weight_of_neg _ _ _ Hneg Hle2 Hw2). done.
    + eapply weight_of_anti; [exact Hpos | | exact Hw1 | exact Hw2]. lia.
  - intros Hnd.
    destruct (weights_own _ _ _ _ _ HW Hnd Ha1) as (w1' & Hw1' & Hl1).
    destruct (weights_own _ _ _ _ _ HW Hnd Ha2) as (w2' & Hw2' & Hl2).
    split; congruence.
Qed.

Lemma weight_monotone_witness :
  exists w1 w2,
    weight_of (max_hours_of fleet_A) 10 = Return w1 /\
    weight_of (max_hours_of fleet_A) 50 = Return w2 /\
    w2 <= w1.
Proof.
  destruct (weight_monotone fleet_A (aircraft "AIR-1001" 10)
              (aircraft "AIR-1003" 50))
    as (weights & w1 & w2 & _ & H1 & H2 & Hle & _).
  - by vm_compute.
  - apply list_elem_of_In. simpl. tauto.
  - apply list_elem_of_In. simpl. tauto.
  - simpl. lia.
  - exact (ex_intro _ w1 (ex_intro _ w2 (conj H1 (conj H2 Hle)))).
Defined.

(** ** The solve step (lines 97-103) *)

Lemma generate_schedule_unsolved P Solve g c fleet_df parts_df st :
  build_model P fleet_df = Return st ->
  solved (Solve (model st)).1 = false ->
  generate_schedule P Solve g c fleet_df parts_df
    = Raise (RuntimeError "No feasible solution found").
Proof.
  intros Hb Hst. unfold generate_schedule. rewrite Hb. cbn [mbind result_bind].
  destruct (Solve (model st)) as [status Value]. simpl in Hst. by rewrite Hst.
Qed.

Lemma generate_schedule_solved P Solve g c fleet_df parts_df st :
  build_model P fleet_df = Return st ->
  solved (Solve (model st)).1 = true ->
  exists em,
    emit st (Solve (model st)).2 fleet_df parts_df g c = Return em /\
    generate_schedule P Solve g c fleet_df parts_df = Return (schedule_rows em).
Proof.
  intros Hb Hst.
  destruct (emit_total P fleet_df st (Solve (model st)).2 parts_df g c Hb)
    as [em Hem].
  exists em. split; [exact Hem|].
  unfold generate_schedule. rewrite Hb. cbn [mbind result_bind].
  destruct (Solve (model st)) as [status Value]. simpl in Hst, Hem.
  rewrite Hst. simpl. by rewrite Hem.
Qed.

Lemma solved_statuses status :
  solved status = true <-> status = OPTIMAL \/ status = FEASIBLE.
Proof.
  destruct status; simpl; split; intros H; try discriminate;
    try (destruct H; discriminate); auto.
Qed.

Lemma unsolved_statuses status :
  solved status = false <-> status <> OPTIMAL /\ status <> FEASIBLE.
Proof.
  destruct status; simpl; split; intros H; try discriminate;
    try (split; discriminate); destruct H; congruence.
Qed.

(** C4.  The run raises its "No feasible solution found" error exactly when
    the model was built and the status the solver reports is neither
    [OPTIMAL] nor [FEASIBLE] (so it is [UNKNOWN], [MODEL_INVALID] or
    [INFEASIBLE]); with [OPTIMAL] or [FEASIBLE] it does not raise but
    returns one row per aircraft, in fleet order, whose window is the one
    the solver holds for that aircraft. *)
Theorem infeasible_exactly_when_unsolved P Solve g c fleet_df parts_df :
  (forall msg,
     generate_schedule P Solve g c fleet_df parts_df = Raise (RuntimeError msg)
     <-> msg = "No feasible solution found" /\
         exists st, build_model P fleet_df = Return st /\
                    (Solve (model st)).1 <> OPTIMAL /\
                    (Solve (model st)).1 <> FEASIBLE) /\
  (forall st,
     build_model P fleet_df = Return st ->
     (Solve (model st)).1 = UNKNOWN \/ (Solve (model st)).1 = MODEL_INVALID \/
     (Solve (model st)).1 = INFEASIBLE ->
     generate_schedule P Solve g c fleet_df parts_df
     = Raise (RuntimeError "No feasible solution found")) /\
  (forall st,
     build_model P fleet_df = Return st ->
     (Solve (model st)).1 = OPTIMAL \/ (Solve (model st)).1 = FEASIBLE ->
     exists rows,
       generate_schedule P Solve g c fleet_df parts_df = Return rows /\
       length rows = length fleet_df /\
       forall i a, fleet_df !! i = Some a ->
         exists t s du,
           rows !! i = Some t /\
           task_aircraft_id t = aircraft_id a /\
           start_day st !! aircraft_id a = Some s /\
           duration st !! aircraft_id a = Some du /\
           row_start_day c i t = (Solve (model st)).2 s /\
           row_end_day c i t
             = (Solve (model st)).2 s + (Solve (model st)).2 du).
Proof.
  split; [|split].
  - intros msg. split.
    + intros Hrun.
      destruct (build_model P fleet_df) as [e|st] eqn:Hb.
      { unfold generate_schedule in Hrun. rewrite Hb in Hrun. simpl in Hrun.
        injection Hrun as ->.
        destruct fleet_df as [|a l].
        - destruct (build_model_total P []) as [st Hst]; [done|].
          congruence.
        - destruct (decide (max_hours_of (a :: l) = 0)) as [E|NE].
          + rewrite build_model_zero in Hb by done. discriminate.
          + destruct (build_model_total P (a :: l)) as [st Hst]; [done|].
            congruence. }
      destruct (solved (Solve (model st)).1) eqn:Hst.
      * destruct (generate_schedule_solved P Solve g c fleet_df parts_df st Hb Hst)
          as (em & _ & E).
        congruence.
      * rewrite (generate_schedule_unsolved _ _ _ _ _ _ st Hb Hst) in Hrun.
        injection Hrun as <-. split; [reflexivity|]. exists st.
        split; [reflexivity|]. by apply unsolved_statuses.
    + intros (-> & st & Hb & Hst%unsolved_statuses).
      by eapply generate_schedule_unsolved.
  - intros st Hb Hst.
    apply (generate_schedule_unsolved P Solve g c fleet_df parts_df st Hb).
    apply unsolved_statuses.
    destruct Hst as [E|[E|E]]; rewrite E; by split.
  - intros st Hb Hst%solved_statuses.
    destruct (generate_schedule_solved P Solve g c fleet_df parts_df st Hb Hst)
      as (em & Hem & Hrun).
    exists (schedule_rows em). split; [exact Hrun|].
    destruct (emit_loop_rows _ _ _ _ _ Hem) as (new & Hrows & Hlen & _ & _ & _ & Hnew).
    simpl in Hrows, Hnew. rewrite Hrows. split; [exact Hlen|].
    intros i a Ha.
    destruct (Hnew i a Ha) as (t & s & du & Ht & Hs & Hdu & Hid & _ & Hstart & Hend).
    exists t, s, du. do 4 (split; [assumption|]).
    unfold row_start_day, row_end_day. rewrite Hstart, Hend.
    simpl. split; lia.
Qed.

Lemma built_D_returned : build_model params_D fleet_one = Return built_D.
Proof. vm_compute. reflexivity. Qed.

Lemma infeasible_exactly_when_unsolved_witness :
  (exists rows,
     generate_schedule module_params (checking_solver plan_A) random_A clock_A
                       fleet_A parts_A = Return rows /\
     length rows = 3%nat) /\
  (checking_solver plan_long (model built_D)).1 = UNKNOWN /\
  generate_schedule params_D (checking_solver plan_long) random_A clock_A
                    fleet_one parts_A
  = Raise (RuntimeError "No feasible solution found").
Proof.
  split; [|split].
  - destruct (proj2 (proj2 (infeasible_exactly_when_unsolved module_params
                       (checking_solver plan_A) random_A clock_A fleet_A parts_A))
                built_A) as (rows & Hrun & Hlen & _).
    + vm_compute. reflexivity.
    + right. vm_compute. reflexivity.
    + exact (ex_intro _ rows (conj Hrun Hlen)).
  - vm_compute. reflexivity.
  - apply (proj1 (proj2 (infeasible_exactly_when_unsolved params_D
                    (checking_solver plan_long) random_A clock_A fleet_one
                    parts_A)) built_D built_D_returned).
    left. vm_compute. reflexivity.
Defined.

(** C5, as the code has it.  Nothing is checked before the solve: with a
    horizon of two days and maintenance lasting three the run returns a
    schedule. *)
Lemma no_config_validation_counterexample :
  MAINT_DURATION_MAX params_long > PLANNING_HORIZON_DAYS params_long /\
  exists t,
    generate_schedule params_long (checking_solver plan_long) random_A clock_A
                      fleet_one [] = Return [t] /\
    schedule_start t = 1000 /\ schedule_end t = 1003.
Proof.
  split; [by vm_compute|].
  eexists. split; [vm_compute; reflexivity|]. split; reflexivity.
Qed.

(** A duration domain with its minimum above its maximum admits no value. *)
Lemma empty_duration_domain P fleet_df st Value :
  build_model P fleet_df = Return st ->
  MAINT_DURATION_MAX P < MAINT_DURATION_MIN P ->
  fleet_df <> [] ->
  feasible Value (model st) = false.
Proof.
  intros [Hlinked _]%build_model_linked Hlt Hne.
  destruct (feasible Value (model st)) eqn:Hfeas; [|done].
  destruct fleet_df as [|a l]; [done|].
  destruct (Hlinked (aircraft_id a)) as (s & du & _ & _ & _ & Vdu & _);
    [rewrite fmap_cons; left|].
  apply feasible_spec in Hfeas as [Hdom _]. apply Hdom in Vdu. lia.
Qed.

(** C5, amended.  With the minimum duration above the maximum and at least
    one aircraft (whose hours have a non-zero maximum), the model is still
    built and handed to the solver; no assignment satisfies it, so the run
    fails at the solve step with "No feasible solution found". *)
Theorem empty_duration_fails_at_solve P Solve g c fleet_df parts_df :
  sound Solve ->
  MAINT_DURATION_MAX P < MAINT_DURATION_MIN P ->
  fleet_df <> [] ->
  max_hours_of fleet_df <> 0 ->
  exists st,
    build_model P fleet_df = Return st /\
    solved (Solve (model st)).1 = false /\
    generate_schedule P Solve g c fleet_df parts_df
      = Raise (RuntimeError "No feasible solution found").
Proof.
  intros Hsound Hlt Hne Hm.
  destruct (build_model_total P fleet_df Hm) as [st Hb].
  assert (Hst : solved (Solve (model st)).1 = false).
  { destruct (solved (Solve (model st)).1) eqn:Hst; [|done].
    assert (Hfeas : feasible (Solve (model st)).2 (model st) = true).
    { apply Hsound. destruct (Solve (model st)).1; try done; auto. }
    by rewrite (empty_duration_domain P fleet_df st _ Hb Hlt Hne) in Hfeas. }
  exists st. split; [exact Hb|]. split; [exact Hst|].
  by eapply generate_schedule_unsolved.
Qed.

Lemma empty_duration_fails_at_solve_witness :
  generate_schedule params_D (checking_solver plan_long) random_A clock_A
                    fleet_one parts_A
  = Raise (RuntimeError "No feasible solution found").
Proof.
  destruct (empty_duration_fails_at_solve params_D (checking_solver plan_long)
              random_A clock_A fleet_one parts_A) as (st & _ & _ & Hrun).
  - apply checking_solver_sound.
  - simpl. lia.
  - discriminate.
  - vm_compute. discriminate.
  - exact Hrun.
Defined.

(** ** The dates (lines 150-158) *)

(** When every reading of the clock falls on the same day, that day anchors
    both dates of every row. *)
Lemma dates_with_steady_clock P Solve g c fleet_df parts_df rows anchor :
  (forall n, day_at c n = anchor) ->
  generate_schedule P Solve g c fleet_df parts_df = Return rows ->
  exists st,
    build_model P fleet_df = Return st /\
    length rows = length fleet_df /\
    forall i a, fleet_df !! i = Some a ->
      exists t s du,
        rows !! i = Some t /\
        start_day st !! aircraft_id a = Some s /\
        duration st !! aircraft_id a = Some du /\
        schedule_start t = anchor + (Solve (model st)).2 s /\
        schedule_end t
          = anchor + ((Solve (model st)).2 s + (Solve (model st)).2 du) /\
        status t = "SCHEDULED".
Proof.
  intros Hclock (st & em & Hb & _ & Hem & ->)%generate_schedule_Return.
  exists st. split; [exact Hb|].
  destruct (emit_loop_rows _ _ _ _ _ Hem) as (new & Hrows & Hlen & _ & _ & _ & Hnew).
  simpl in Hrows, Hnew. rewrite Hrows. split; [exact Hlen|].
  intros i a Ha.
  destruct (Hnew i a Ha) as (t & s & du & Ht & Hs & Hdu & _ & Hstatus & Hstart & Hend).
  exists t, s, du. rewrite Hclock in Hstart, Hend. by repeat split.
Qed.

(** C8 at a run that passes midnight between the two readings of the clock
    taken for a row.  The only aircraft is given start day 0 and a duration
    of one day (variables 0 and 1 of the model); its start is stamped from
    day 1000 and its end from day 1001, so the one-day window comes out two
    days long. *)
Theorem dates_straddle_midnight :
  plan_assignment 30 [(0, 1)] 0%nat = 0 /\
  plan_assignment 30 [(0, 1)] 1%nat = 1 /\
  exists t,
    generate_schedule module_params
      (checking_solver (plan_assignment 30 [(0, 1)]))
      random_A clock_midnight fleet_one [] = Return [t] /\
    schedule_start t = 1000 /\ schedule_end t = 1002 /\
    schedule_end t - schedule_start t = 2.
Proof.
  split; [reflexivity|]. split; [reflexivity|].
  eexists. split; [vm_compute; reflexivity|]. by repeat split.
Qed.

(** ** The allocation seen from the returned rows *)

(** A probe that allocates nothing has read a non-positive stock at each of
    its [remaining] positions. *)
Lemma probe_unallocated remaining inv a inv' :
  probe remaining inv = Return (a, inv') -> alloc_part_id a = None ->
  let n := length (parts_copy inv) in
  let start := if bool_decide (n <= part_idx inv)%nat then 0%nat
               else part_idx inv in
  forall k, (k < remaining)%nat ->
    exists p, parts_copy inv !! ((start + k) mod n)%nat = Some p /\
              quantity_on_hand p <= 0.
Proof.
  revert inv. induction remaining as [|r IH]; intros inv Hrun Hnone n start k Hk;
    [lia|].
  cbn [probe] in Hrun. fold n in Hrun. fold start in Hrun.
  apply bind_Return in Hrun as (prow & Hrow & Hrun).
  unfold loc in Hrow.
  destruct (parts_copy inv !! start) as [p|] eqn:Hp; [|done].
  injection Hrow as ->.
  assert (Hstart : (start < n)%nat) by (by eapply lookup_lt_Some).
  destruct (Z.ltb_spec 0 (quantity_on_hand prow)) as [Hpos|Hnonpos].
  - apply bind_Return in Hrun as ([q g'] & _ & Hrun).
    apply bind_Return in Hrun as (idx' & _ & [= <- <-]). done.
  - apply bind_Return in Hrun as (idx' & Hmod & Hrun).
    unfold pymod in Hmod. case_bool_decide; [done|]. injection Hmod as <-.
    destruct k as [|k].
    + exists prow. rewrite Nat.add_0_r, Nat.mod_small by done. done.
    + specialize (IH _ Hrun Hnone k ltac:(lia)). cbn [parts_copy part_idx] in IH.
      fold n in IH. rewrite bool_decide_eq_false_2 in IH.
      * rewrite Nat.Div0.add_mod_idemp_l in IH.
        by replace (start + S k)%nat with (start + 1 + k)%nat by lia.
      * pose proof (Nat.mod_upper_bound (start + 1) n). lia.
Qed.

Lemma allocate_unallocated inv a inv' :
  allocate inv = Return (a, inv') -> alloc_part_id a = None ->
  total_parts_available inv <= 0 \/
  Forall (fun p => quantity_on_hand p <= 0) (parts_copy inv).
Proof.
  unfold allocate. intros Hrun Hnone.
  destruct (Z.ltb_spec 0 (total_parts_available inv)); [|by left].
  right. simpl in Hrun. case_bool_decide as Hne; simpl in Hrun.
  { rewrite Hne. constructor. }
  pose proof (probe_unallocated _ _ _ _ Hrun Hnone) as Hall. simpl in Hall.
  set (n := length (parts_copy inv)) in *.
  set (start := if bool_decide (n <= part_idx inv)%nat then 0%nat
                else part_idx inv) in *.
  assert (Hstart : (start < n)%nat).
  { assert (0 < n)%nat by (unfold n; destruct (parts_copy inv); [done|simpl; lia]).
    unfold start. case_bool_decide; lia. }
  apply Forall_lookup. intros j p Hj.
  assert (Hjn : (j < n)%nat) by (by eapply lookup_lt_Some).
  destruct (Hall ((j + n - start) mod n)%nat) as (p' & Hp' & Hq).
  { apply Nat.mod_upper_bound. lia. }
  rewrite Nat.Div0.add_mod_idemp_r in Hp'.
  replace (start + (j + n - start))%nat with (j + 1 * n)%nat in Hp' by lia.
  rewrite Nat.Div0.mod_add, Nat.mod_small in Hp' by done.
  congruence.
Qed.

Lemma row_emitted_recorded st Value em a em' t :
  row_emitted st Value em a em' t ->
  unresourced (inventory em) t (inventory em') \/
  resourced (inventory em) t (inventory em').
Proof.
  intros (s & du & _ & _ & _ & _ & _ & _ & _ & Hstep & _ & _ & Hal).
  destruct Hstep as [(E & Hparts & _)|(idx & p & H)].
  - left. injection E as E1 E2 E3.
    split; [done|]. split; [done|]. split; [done|]. split; [done|].
    eapply allocate_unallocated; [exact Hal|]. done.
  - right. destruct H as (Hp & _ & _ & Hq & Hid & Hcost & Hparts & Htotal).
    unfold task_allocation, alloc_quantity, alloc_part_id, alloc_cost in *.
    simpl in Hq, Hid, Hcost, Hparts, Htotal.
    exists idx, p. do 5 (split; [assumption|]).
    split; [|split; [|split; [|exact Htotal]]].
    + exists (set_quantity_on_hand (quantity_on_hand p - part_quantity t) p).
      split; [|simpl; repeat split; lia].
      rewrite Hparts. apply list_lookup_insert_eq. by eapply lookup_lt_Some.
    + intros j Hj. rewrite Hparts. by apply list_lookup_insert_ne.
    + by rewrite Hparts, length_insert.
Qed.

Lemma allocation_step_drawn inv a inv' :
  allocation_step inv a inv' -> drawn_from inv a inv'.
Proof.
  unfold drawn_from.
  intros [(-> & _ & _ & Hg)|(idx & p & Hp & Hpos & Hdraw & Hq & -> & _)].
  - done.
  - exists idx, p. do 3 (split; [done|]). lia.
Qed.

(** Every returned row records the allocation of its turn. *)
Lemma returned_row_recorded P Solve g c fleet_df parts_df rows i t :
  generate_schedule P Solve g c fleet_df parts_df = Return rows ->
  rows !! i = Some t ->
  exists st em em',
    build_model P fleet_df = Return st /\
    emitter_after st (Solve (model st)).2 fleet_df parts_df g c i
      = Return em /\
    emitter_after st (Solve (model st)).2 fleet_df parts_df g c (S i)
      = Return em' /\
    (unresourced (inventory em) t (inventory em') \/
     resourced (inventory em) t (inventory em')).
Proof.
  intros (st & em & Hb & _ & Hem & ->)%generate_schedule_Return Ht.
  destruct (emitted_row _ _ _ _ _ _ _ _ _ Hem Ht)
    as (a & em_i & em_i' & _ & Hi & Hi' & Hrow).
  exists st, em_i, em_i'. do 3 (split; [assumption|]).
  by eapply row_emitted_recorded.
Qed.

(** C7.  Allocation never raises.  For every returned row, with the
    inventory as it stood before and after the row's turn: either the row is
    unresourced ([part_id] null, quantity 0, cost 0, stock untouched, the
    inventory being empty or without positive stock), or it names a part of
    the working copy, its quantity lies between 1 and [min(3, stock of that
    part)], its cost is [unit_cost * part_quantity], and afterwards the
    working copy holds at that position the same part with
    [quantity_on_hand] lowered by exactly the quantity, every other position
    is as it was, and the running total went down by the same quantity. *)
Theorem task_allocation_fields P Solve g c fleet_df parts_df :
  (forall inv, exists a inv', allocate inv = Return (a, inv')) /\
  (forall rows i t,
     generate_schedule P Solve g c fleet_df parts_df = Return rows ->
     rows !! i = Some t ->
     exists st em em',
       build_model P fleet_df = Return st /\
       emitter_after st (Solve (model st)).2 fleet_df parts_df g c i
         = Return em /\
       emitter_after st (Solve (model st)).2 fleet_df parts_df g c (S i)
         = Return em' /\
       (unresourced (inventory em) t (inventory em') \/
        resourced (inventory em) t (inventory em'))).
Proof.
  split.
  - intros inv. destruct (allocate_spec inv) as (a & inv' & H & _). by exists a, inv'.
  - intros rows i t. apply returned_row_recorded.
Qed.

(** *** Invariants of the emission loop *)

Lemma consumed_app pid rows t :
  consumed pid (rows ++ [t]) =
  consumed pid rows
  + (if bool_decide (task_part_id t = Some pid) then part_quantity t else 0).
Proof. induction rows as [|x rows IH]; simpl; [lia|]. rewrite IH. lia. Qed.

Lemma emit_loop_stock pid st Value l em em' :
  for_each (schedule_row st Value) l em = Return em' ->
  (stock_nonneg (parts_copy (inventory em)) ->
   stock_nonneg (parts_copy (inventory em'))) /\
  stock pid (parts_copy (inventory em')) + consumed pid (schedule_rows em')
  = stock pid (parts_copy (inventory em)) + consumed pid (schedule_rows em).
Proof.
  revert em. induction l as [|a l IH]; intros em; simpl.
  - by intros [= <-].
  - intros (em1 & Hrow & Hrun)%bind_Return.
    destruct (schedule_row_Return _ _ _ _ _ Hrow)
      as (t & s & du & _ & _ & Hrows & _ & _ & _ & _ & Hstep & _).
    destruct (IH _ Hrun) as [Hnn Hsum]. split.
    + intros H. by apply Hnn, (allocation_step_nonneg _ _ _ Hstep).
    + rewrite Hsum, Hrows, consumed_app.
      pose proof (allocation_step_stock pid _ _ _ Hstep) as E.
      unfold task_allocation, alloc_part_id, alloc_quantity in E. simpl in E. lia.
Qed.

(** C6.  With no negative stock in the inventory handed in: after every
    turn of the allocation loop no part of the working copy holds a negative
    quantity, and for every part identifier the quantities of the returned
    rows naming it add up to at most the stock the inventory held under
    it. *)
Theorem stock_never_negative P Solve g c fleet_df parts_df rows :
  stock_nonneg parts_df ->
  generate_schedule P Solve g c fleet_df parts_df = Return rows ->
  (exists st,
     build_model P fleet_df = Return st /\
     forall i em,
       emitter_after st (Solve (model st)).2 fleet_df parts_df g c i
         = Return em ->
       stock_nonneg (parts_copy (inventory em))) /\
  (forall pid, consumed pid rows <= stock pid parts_df).
Proof.
  intros Hnn (st & em & Hb & _ & Hem & ->)%generate_schedule_Return.
  assert (Hnn0 : stock_nonneg (parts_copy (inventory (emitter0 parts_df g c)))).
  { simpl. by apply stock_nonneg_sort_values_desc. }
  split.
  - exists st. split; [exact Hb|]. intros i em_i Hi.
    by apply (emit_loop_stock "PART" _ _ _ _ _ Hi).
  - intros pid.
    destruct (emit_loop_stock pid _ _ _ _ _ Hem) as [Hfin Hsum].
    simpl in Hsum. rewrite stock_sort_values_desc in Hsum.
    pose proof (stock_nonneg_stock pid _ (Hfin Hnn0)). lia.
Qed.

(** ** Errors of the run *)

Lemma build_model_Raise P fleet_df e :
  build_model P fleet_df = Raise e -> e = ZeroDivisionError.
Proof.
  intros Hb. destruct fleet_df as [|a l].
  - destruct (build_model_total P []) as [st Hst]; [done|]. congruence.
  - destruct (decide (max_hours_of (a :: l) = 0)) as [E|NE].
    + rewrite build_model_zero in Hb by done. congruence.
    + destruct (build_model_total P (a :: l)) as [st Hst]; [done|].
      congruence.
Qed.

Lemma generate_schedule_Raise P Solve g c fleet_df parts_df e :
  generate_schedule P Solve g c fleet_df parts_df = Raise e ->
  e = ZeroDivisionError \/ e = RuntimeError "No feasible solution found".
Proof.
  intros Hrun. destruct (build_model P fleet_df) as [e'|st] eqn:Hb.
  - left. unfold generate_schedule in Hrun. rewrite Hb in Hrun.
    injection Hrun as <-. by eapply build_model_Raise.
  - right. destruct (solved (Solve (model st)).1) eqn:Hst.
    + destruct (generate_schedule_solved P Solve g c fleet_df parts_df st Hb Hst)
        as (em & _ & E). congruence.
    + rewrite (generate_schedule_unsolved _ _ _ _ _ _ st Hb Hst) in Hrun.
      congruence.
Qed.

(** C10.  Every allocation succeeds; when it allocates, the quantity is the
    result of one [randint(1, min(3, avail))] on a part with [avail >= 1], a
    non-empty range, and lies between 1 and 3; when it does not, nothing is
    drawn.  So no run ends in the [ValueError] of an empty range, and every
    returned row naming a part has a quantity between 1 and 3. *)
Theorem draw_never_fails :
  (forall inv, exists a inv',
     allocate inv = Return (a, inv') /\ drawn_from inv a inv') /\
  (forall P Solve g c fleet_df parts_df,
     generate_schedule P Solve g c fleet_df parts_df <> Raise ValueError) /\
  (forall P Solve g c fleet_df parts_df rows t,
     generate_schedule P Solve g c fleet_df parts_df = Return rows ->
     t ∈ rows -> task_part_id t <> None -> 1 <= part_quantity t <= 3).
Proof.
  split; [|split].
  - intros inv. destruct (allocate_spec inv) as (a & inv' & H & Hstep & _).
    exists a, inv'. split; [exact H | by apply allocation_step_drawn].
  - intros P Solve g c fleet_df parts_df Hrun.
    by destruct (generate_schedule_Raise _ _ _ _ _ _ _ Hrun).
  - intros P Solve g c fleet_df parts_df rows t Hrun (i & Ht)%list_elem_of_lookup Hsome.
    destruct (returned_row_recorded P Solve g c fleet_df parts_df rows i t
                Hrun Ht) as (st & em & em' & _ & _ & _ & Hrec).
    destruct Hrec as [(Hnone & _)|(idx & p & _ & _ & Hq & _)]; [done | lia].
Qed.

Lemma task_allocation_fields_witness :
  exists t st em em' p p',
    rows_A !! 1%nat = Some t /\
    build_model module_params fleet_A = Return st /\
    emitter_after st (checking_solver plan_A (model st)).2 fleet_A parts_A
                  random_A clock_A 1 = Return em /\
    emitter_after st (checking_solver plan_A (model st)).2 fleet_A parts_A
                  random_A clock_A 2 = Return em' /\
    task_part_id t = Some (part_id p) /\
    part_id p' = part_id p /\
    1 <= part_quantity t /\
    quantity_on_hand p' = quantity_on_hand p - part_quantity t.
Proof.
  destruct (rows_A !! 1%nat) as [t|] eqn:Ht; [|vm_compute in Ht; discriminate].
  destruct (proj2 (task_allocation_fields module_params (checking_solver plan_A)
                     random_A clock_A fleet_A parts_A)
              rows_A 1%nat t rows_A_returned Ht)
    as (st & em & em' & Hb & H1 & H2 & [Hnone|Hres]).
  - exfalso. destruct Hnone as (Hid & _).
    vm_compute in Ht. injection Ht as <-. discriminate.
  - destruct Hres as (idx & p & _ & Hid & Hq & _ & _ & (p' & _ & Hless & _ & Hpid & _) & _).
    exists t, st, em, em', p, p'.
    exact (conj eq_refl (conj Hb (conj H1 (conj H2
             (conj Hid (conj Hpid (conj (proj1 Hq) Hless))))))).
Defined.

Lemma stock_never_negative_witness :
  consumed "PART-102" rows_A <= stock "PART-102" parts_A /\
  consumed "PART-101" rows_A <= stock "PART-101" parts_A.
Proof.
  destruct (stock_never_negative module_params (checking_solver plan_A)
              random_A clock_A fleet_A parts_A rows_A) as [_ H].
  - unfold stock_nonneg, parts_A. repeat constructor; simpl; lia.
  - exact rows_A_returned.
  - exact (conj (H "PART-102") (H "PART-101")).
Defined.

Lemma draw_never_fails_witness :
  exists t, rows_A !! 2%nat = Some t /\ 1 <= part_quantity t <= 3.
Proof.
  destruct (rows_A !! 2%nat) as [t|] eqn:Ht; [|vm_compute in Ht; discriminate].
  exists t. split; [reflexivity|].
  apply (proj2 (proj2 draw_never_fails) module_params (checking_solver plan_A)
           random_A clock_A fleet_A parts_A rows_A t rows_A_returned).
  - apply list_elem_of_lookup. by exists 2%nat.
  - vm_compute in Ht. injection Ht as <-. discriminate.
Defined.

(** * Further properties of [generate_schedule] *)

(** ** The running total of the inventory *)

Lemma total_stock_cons x l :
  total_stock (x :: l) = quantity_on_hand x + total_stock l.
Proof. reflexivity. Qed.

Lemma total_stock_insert l idx p q :
  l !! idx = Some p ->
  total_stock (<[idx := set_quantity_on_hand q p]> l)
  = total_stock l - quantity_on_hand p + q.
Proof.
  revert idx. induction l as [|x l IH]; intros [|idx] Hl; try done.
  - injection Hl as ->.
    change (<[0%nat := set_quantity_on_hand q p]> (p :: l))
      with (set_quantity_on_hand q p :: l).
    rewrite !total_stock_cons. simpl. lia.
  - change (<[S idx := set_quantity_on_hand q p]> (x :: l))
      with (x :: <[idx := set_quantity_on_hand q p]> l).
    rewrite !total_stock_cons, (IH idx Hl). lia.
Qed.

Lemma total_stock_insert_desc p l :
  total_stock (insert_desc p l) = quantity_on_hand p + total_stock l.
Proof.
  induction l as [|x l IH]; [done|]. cbn [insert_desc].
  destruct (_ <=? _); [done|]. rewrite !total_stock_cons, IH. lia.
Qed.

Lemma total_stock_sort_values_desc l :
  total_stock (sort_values_desc l) = total_stock l.
Proof.
  induction l as [|x l IH]; [done|].
  change (sort_values_desc (x :: l)) with (insert_desc x (sort_values_desc l)).
  rewrite total_stock_insert_desc, IH. reflexivity.
Qed.

Lemma total_stock_nonneg l : stock_nonneg l -> 0 <= total_stock l.
Proof.
  unfold stock_nonneg.
  induction 1 as [|x l Hx Hl IH]; [done|]. rewrite total_stock_cons. lia.
Qed.

Lemma total_stock_zero l :
  stock_nonneg l -> total_stock l = 0 ->
  Forall (fun p => quantity_on_hand p = 0) l.
Proof.
  unfold stock_nonneg. induction 1 as [|x l Hx Hl IH]; [constructor|].
  rewrite total_stock_cons. intros Hsum. pose proof (total_stock_nonneg l Hl).
  constructor; [lia | apply IH; lia].
Qed.

Lemma total_stock_nonpos l :
  Forall (fun p => quantity_on_hand p <= 0) l -> total_stock l <= 0.
Proof.
  induction 1 as [|x l Hx Hl IH]; [done|]. rewrite total_stock_cons. lia.
Qed.

Lemma inventory0_tracked parts_df g : total_tracked (inventory0 parts_df g).
Proof.
  unfold total_tracked, inventory0. simpl.
  case_bool_decide as E; [by rewrite E | reflexivity].
Qed.

(** One allocation moves the total and the stock by the same amount. *)
Lemma allocation_step_total inv a inv' :
  allocation_step inv a inv' ->
  total_stock (parts_copy inv') + alloc_quantity a = total_stock (parts_copy inv)
  /\ (total_tracked inv -> total_tracked inv').
Proof.
  unfold total_tracked.
  intros [(-> & -> & -> & _)|(idx & p & Hp & _ & _ & _ & _ & _ & -> & ->)].
  - change (alloc_quantity unallocated) with 0. split; [lia | done].
  - rewrite (total_stock_insert _ _ _ _ Hp). split; [lia|]. intros ->. lia.
Qed.

Lemma parts_handed_out_cons t rows :
  parts_handed_out (t :: rows) = part_quantity t + parts_handed_out rows.
Proof. reflexivity. Qed.

Lemma parts_handed_out_app rows t :
  parts_handed_out (rows ++ [t]) = parts_handed_out rows + part_quantity t.
Proof.
  induction rows as [|x rows IH]; [unfold parts_handed_out; simpl; lia|].
  rewrite <- app_comm_cons, !parts_handed_out_cons, IH. lia.
Qed.

Lemma emit_loop_tracked st Value l em em' :
  for_each (schedule_row st Value) l em = Return em' ->
  (total_tracked (inventory em) -> total_tracked (inventory em')) /\
  total_stock (parts_copy (inventory em')) + parts_handed_out (schedule_rows em')
  = total_stock (parts_copy (inventory em)) + parts_handed_out (schedule_rows em).
Proof.
  revert em. induction l as [|a l IH]; intros em; simpl.
  - by intros [= <-].
  - intros (em1 & Hrow & Hrun)%bind_Return.
    destruct (schedule_row_Return _ _ _ _ _ Hrow)
      as (t & s & du & _ & _ & Hrows & _ & _ & _ & _ & Hstep & _).
    destruct (IH _ Hrun) as [Htr Hsum].
    destruct (allocation_step_total _ _ _ Hstep) as [Hq Htr1].
    split; [auto|].
    rewrite Hsum, Hrows, parts_handed_out_app.
    unfold task_allocation, alloc_quantity in Hq. simpl in Hq. lia.
Qed.

(** X1.  For an inventory whose quantities add up within [int64], after any
    number of turns of the emission loop the counter [total_parts_available]
    is the sum of the working copy's quantities, and the units left in the
    working copy plus the units named by the rows emitted so far are the
    units the inventory was handed in with. *)
Theorem total_tracks_stock st Value fleet_df parts_df g c i em :
  sum_fits_int64 parts_df ->
  emitter_after st Value fleet_df parts_df g c i = Return em ->
  total_parts_available (inventory em) = total_stock (parts_copy (inventory em))
  /\ total_stock (parts_copy (inventory em)) + parts_handed_out (schedule_rows em)
     = total_stock parts_df.
Proof.
  intros _ Hrun. destruct (emit_loop_tracked _ _ _ _ _ Hrun) as [Htr Hsum].
  split; [apply Htr, inventory0_tracked|].
  rewrite Hsum. simpl. rewrite total_stock_sort_values_desc.
  unfold parts_handed_out. simpl. lia.
Qed.

Lemma total_tracks_stock_witness :
  exists em,
    emitter_after built_A plan_A fleet_A parts_A random_A clock_A 2 = Return em /\
    total_parts_available (inventory em) = total_stock (parts_copy (inventory em))
    /\ total_stock (parts_copy (inventory em))
       + parts_handed_out (schedule_rows em) = 7.
Proof.
  eexists. split; [vm_compute; reflexivity|].
  apply (total_tracks_stock built_A plan_A fleet_A parts_A random_A clock_A 2).
  - vm_compute. reflexivity.
  - vm_compute. reflexivity.
Defined.

(** ** Who goes without a part *)

Lemma allocate_exhausted inv :
  total_tracked inv -> total_stock (parts_copy inv) = 0 ->
  allocate inv = Return (unallocated, inv).
Proof.
  unfold total_tracked, allocate. intros -> ->. reflexivity.
Qed.

Lemma unallocated_exhausted inv a inv' :
  total_tracked inv -> stock_nonneg (parts_copy inv) ->
  allocate inv = Return (a, inv') -> alloc_part_id a = None ->
  total_stock (parts_copy inv) = 0.
Proof.
  intros Htr Hnn Hal Hnone.
  pose proof (total_stock_nonneg _ Hnn).
  destruct (allocate_unallocated _ _ _ Hal Hnone) as [Hle|Hall].
  - rewrite Htr in Hle. lia.
  - apply total_stock_nonpos in Hall. lia.
Qed.

Lemma emit_loop_exhausted st Value l em em' :
  for_each (schedule_row st Value) l em = Return em' ->
  total_tracked (inventory em) ->
  total_stock (parts_copy (inventory em)) = 0 ->
  exists new, schedule_rows em' = schedule_rows em ++ new /\
              length new = length l /\ Forall is_unresourced new.
Proof.
  revert em. induction l as [|a l IH]; intros em; simpl.
  - intros [= <-] _ _. exists []. by rewrite app_nil_r.
  - intros (em1 & Hrow & Hrun)%bind_Return Htr Hzero.
    destruct (schedule_row_Return _ _ _ _ _ Hrow)
      as (t & s & du & _ & _ & Hrows & _ & _ & _ & _ & _ & _ & _ & Hal).
    rewrite (allocate_exhausted _ Htr Hzero) in Hal.
    unfold task_allocation, unallocated in Hal. injection Hal as E1 E2 E3 Einv.
    destruct (IH _ Hrun) as (new & Hrows' & Hlen & Hall).
    { by rewrite <- Einv. }
    { by rewrite <- Einv. }
    exists (t :: new). split; [by rewrite Hrows', Hrows, <- app_assoc|].
    split; [simpl; lia|]. constructor; [|done].
    by split; [|split].
Qed.

Lemma unresourced_exhausted P Solve g c fleet_df parts_df rows i t :
  stock_nonneg parts_df ->
  generate_schedule P Solve g c fleet_df parts_df = Return rows ->
  rows !! i = Some t -> task_part_id t = None ->
  parts_handed_out (take i rows) = total_stock parts_df /\
  forall j t', (i <= j)%nat -> rows !! j = Some t' -> is_unresourced t'.
Proof.
  intros Hnn (st & em & Hb & _ & Hem & ->)%generate_schedule_Return Ht Hnone.
  set (Value := (Solve (model st)).2) in *.
  destruct (emitted_row _ _ _ _ _ _ _ _ _ Hem Ht)
    as (a & em_i & em_i' & Ha & Hi & Hi' & Hrow).
  destruct (emit_loop_tracked _ _ _ _ _ Hi) as [Htr Hsum].
  specialize (Htr (inventory0_tracked parts_df g)).
  assert (Hnn_i : stock_nonneg (parts_copy (inventory em_i))).
  { apply (emit_loop_stock "PART" _ _ _ _ _ Hi). simpl.
    by apply stock_nonneg_sort_values_desc. }
  pose proof Hrow as (_ & _ & _ & _ & _ & _ & _ & _ & _ & _ & _ & _ & Hal).
  assert (Hzero : total_stock (parts_copy (inventory em_i)) = 0).
  { eapply unallocated_exhausted; [exact Htr | exact Hnn_i | exact Hal | exact Hnone]. }
  destruct (emitter_after_prefix _ _ _ _ _ _ _ i Hem) as (em_i2 & Hi2 & Hrest).
  assert (em_i2 = em_i) as -> by congruence.
  destruct (emit_loop_exhausted _ _ _ _ _ Hrest Htr Hzero) as (new & Hrows & Hlen & Hall).
  destruct (emit_loop_rows _ _ _ _ _ Hi) as (pre & Hpre & Hlenpre & _).
  simpl in Hpre. assert (Hi_lt : (i < length fleet_df)%nat) by (by eapply lookup_lt_Some).
  rewrite length_take_le in Hlenpre by lia.
  rewrite Hrows, Hpre. split.
  - rewrite take_app_length' by done.
    rewrite Hpre in Hsum. simpl in Hsum.
    rewrite total_stock_sort_values_desc in Hsum.
    unfold parts_handed_out in Hsum at 2. simpl in Hsum. lia.
  - intros j t' Hj Ht'. rewrite lookup_app_r in Ht' by lia.
    eapply Forall_lookup_1; [exact Hall | exact Ht'].
Qed.

(** X2.  With no negative stock handed in and quantities that add up within
    [int64], an aircraft goes without a part only once the whole inventory
    has been handed out to the aircraft before it; every aircraft after it
    goes without too. *)
Theorem unresourced_only_when_exhausted P Solve g c fleet_df parts_df rows i t :
  stock_nonneg parts_df ->
  sum_fits_int64 parts_df ->
  generate_schedule P Solve g c fleet_df parts_df = Return rows ->
  rows !! i = Some t -> task_part_id t = None ->
  parts_handed_out (take i rows) = total_stock parts_df /\
  forall j t', (i <= j)%nat -> rows !! j = Some t' -> is_unresourced t'.
Proof.
  intros Hnn _. by apply unresourced_exhausted.
Qed.


Lemma rows_scarce_returned :
  generate_schedule module_params (checking_solver plan_A) random_A clock_A
                    fleet_A parts_scarce = Return rows_scarce.
Proof. vm_compute. reflexivity. Qed.

Lemma unresourced_only_when_exhausted_witness :
  exists t,
    rows_scarce !! 2%nat = Some t /\
    parts_handed_out (take 2 rows_scarce) = total_stock parts_scarce.
Proof.
  destruct (rows_scarce !! 2%nat) as [t|] eqn:Ht; [|vm_compute in Ht; discriminate].
  exists t. split; [reflexivity|].
  apply (unresourced_only_when_exhausted module_params (checking_solver plan_A)
           random_A clock_A fleet_A parts_scarce rows_scarce 2 t).
  - unfold stock_nonneg, parts_scarce. repeat constructor; simpl; lia.
  - vm_compute. reflexivity.
  - exact rows_scarce_returned.
  - exact Ht.
  - vm_compute in Ht. injection Ht as <-. reflexivity.
Defined.

(** An inventory without positive stock stays as it is. *)
Lemma emit_loop_no_stock st Value l em em' :
  for_each (schedule_row st Value) l em = Return em' ->
  Forall (fun p => quantity_on_hand p <= 0) (parts_copy (inventory em)) ->
  exists new, schedule_rows em' = schedule_rows em ++ new /\
              Forall is_unresourced new.
Proof.
  revert em. induction l as [|a l IH]; intros em; simpl.
  - intros [= <-] _. exists []. by rewrite app_nil_r.
  - intros (em1 & Hrow & Hrun)%bind_Return Hall.
    destruct (schedule_row_Return _ _ _ _ _ Hrow)
      as (t & s & du & _ & _ & Hrows & _ & _ & _ & _ & Hstep & _).
    destruct Hstep as [(E & Hparts & _)|(idx & p & Hp & Hpos & _)].
    + destruct (IH _ Hrun) as (new & Hrows' & Hnew); [by rewrite Hparts|].
      exists (t :: new). split; [by rewrite Hrows', Hrows, <- app_assoc|].
      constructor; [|done].
      unfold task_allocation, unallocated in E. injection E as E1 E2 E3.
      by split; [|split].
    + exfalso. pose proof (Forall_lookup_1 _ _ _ _ Hall Hp) as Hle.
      simpl in Hle. lia.
Qed.

Lemma Forall_insert_desc (Q : Part -> Prop) p l :
  Q p -> Forall Q l -> Forall Q (insert_desc p l).
Proof.
  intros Hp. induction 1 as [|x l Hx Hl IH]; simpl.
  - by constructor.
  - destruct (_ <=? _); [constructor; [done|]|]; by constructor.
Qed.

Lemma Forall_sort_values_desc (Q : Part -> Prop) l :
  Forall Q l -> Forall Q (sort_values_desc l).
Proof.
  induction 1 as [|x l Hx Hl IH]; [constructor|].
  by apply Forall_insert_desc.
Qed.

(** X3.  When no part of the inventory holds a positive quantity (an empty
    inventory among them), every returned row is unresourced: no part, a
    quantity of zero and a cost of zero. *)
Theorem no_stock_no_parts P Solve g c fleet_df parts_df rows :
  Forall (fun p => quantity_on_hand p <= 0) parts_df ->
  generate_schedule P Solve g c fleet_df parts_df = Return rows ->
  Forall is_unresourced rows.
Proof.
  intros Hall (st & em & Hb & _ & Hem & ->)%generate_schedule_Return.
  destruct (emit_loop_no_stock _ _ _ _ _ Hem) as (new & Hrows & Hnew).
  - simpl. by apply Forall_sort_values_desc.
  - by rewrite Hrows.
Qed.

Lemma no_stock_no_parts_witness :
  exists rows,
    generate_schedule module_params (checking_solver plan_A) random_A clock_A
                      fleet_A [] = Return rows /\
    Forall is_unresourced rows.
Proof.
  eexists. split; [vm_compute; reflexivity|].
  apply (no_stock_no_parts module_params (checking_solver plan_A) random_A
           clock_A fleet_A []).
  - constructor.
  - vm_compute. reflexivity.
Defined.

(** ** Bounds on what a schedule asks for *)

Lemma float_round_nonneg x : (0 <= x)%Q -> (0 <= float.round x)%Q.
Proof. intros Hx. change 0%Q with (float.round 0). by apply round_mono. Qed.

Lemma of_int_nonneg z : 0 <= z -> (0 <= float.of_int z)%Q.
Proof.
  intros Hz. apply float_round_nonneg.
  change 0%Q with (inject_Z 0). by rewrite <- Zle_Qle.
Qed.

Lemma row_emitted_bounds st Value em a em' t :
  row_emitted st Value em a em' t ->
  0 <= part_quantity t <= 3 /\
  (Forall (fun p => (0 <= unit_cost p)%Q) (parts_copy (inventory em)) ->
   (0 <= cost t)%Q /\
   Forall (fun p => (0 <= unit_cost p)%Q) (parts_copy (inventory em'))).
Proof.
  intros (s & du & _ & _ & _ & _ & _ & _ & _ & Hstep & _).
  destruct Hstep as [(E & Hparts & _)|(idx & p & Hp & _ & _ & Hq & _ & Hcost & Hparts & _)].
  - unfold task_allocation, unallocated in E. injection E as E1 E2 E3.
    rewrite E2, E3, Hparts. split; [lia|]. intros H. by split.
  - unfold task_allocation, alloc_quantity, alloc_cost in *. simpl in *.
    split; [lia|]. intros Hall.
    pose proof (Forall_lookup_1 _ _ _ _ Hall Hp) as Hu. simpl in Hu. split.
    + rewrite Hcost. apply float_round_nonneg.
      apply Qmult_le_0_compat; [done | apply of_int_nonneg; lia].
    + rewrite Hparts. apply Forall_insert; [done | done].
Qed.

Lemma emit_loop_bounds st Value l em em' :
  for_each (schedule_row st Value) l em = Return em' ->
  exists new,
    schedule_rows em' = schedule_rows em ++ new /\
    Forall (fun t => 0 <= part_quantity t <= 3) new /\
    (Forall (fun p => (0 <= unit_cost p)%Q) (parts_copy (inventory em)) ->
     Forall (fun t => (0 <= cost t)%Q) new).
Proof.
  revert em. induction l as [|a l IH]; intros em; simpl.
  - intros [= <-]. exists []. rewrite app_nil_r. by repeat split.
  - intros (em1 & Hrow & Hrun)%bind_Return.
    destruct (schedule_row_Return _ _ _ _ _ Hrow) as (t & Hrow').
    destruct (row_emitted_bounds _ _ _ _ _ _ Hrow') as [Hq Hc].
    pose proof Hrow' as (_ & _ & _ & _ & Hrows & _).
    destruct (IH _ Hrun) as (new & Hrows' & Hqs & Hcs).
    exists (t :: new). split; [by rewrite Hrows', Hrows, <- app_assoc|].
    split; [by constructor|].
    intros Hall. destruct (Hc Hall) as [Hct Hall1]. constructor; auto.
Qed.

Lemma parts_handed_out_bound rows :
  Forall (fun t => 0 <= part_quantity t <= 3) rows ->
  0 <= parts_handed_out rows <= 3 * Z.of_nat (length rows).
Proof.
  induction 1 as [|t rows Ht _ IH]; [done|].
  rewrite parts_handed_out_cons. simpl length. lia.
Qed.

(** X4.  Every returned row asks for between zero and three units, so a
    schedule asks for at most three units per row in all; with no negative
    stock handed in it never asks for more than the inventory held; and with
    no negative unit cost no row has a negative cost. *)
Theorem schedule_demand_bounded P Solve g c fleet_df parts_df rows :
  generate_schedule P Solve g c fleet_df parts_df = Return rows ->
  Forall (fun t => 0 <= part_quantity t <= 3) rows /\
  0 <= parts_handed_out rows <= 3 * Z.of_nat (length rows) /\
  (stock_nonneg parts_df -> parts_handed_out rows <= total_stock parts_df) /\
  (Forall (fun p => (0 <= unit_cost p)%Q) parts_df ->
   Forall (fun t => (0 <= cost t)%Q) rows).
Proof.
  intros (st & em & Hb & _ & Hem & ->)%generate_schedule_Return.
  destruct (emit_loop_bounds _ _ _ _ _ Hem) as (new & Hrows & Hqs & Hcs).
  simpl in Hrows. rewrite Hrows.
  split; [exact Hqs|]. split; [by apply parts_handed_out_bound|]. split.
  - intros Hnn.
    destruct (emit_loop_tracked _ _ _ _ _ Hem) as [_ Hsum].
    assert (Hfin : stock_nonneg (parts_copy (inventory em))).
    { apply (emit_loop_stock "PART" _ _ _ _ _ Hem). simpl.
      by apply stock_nonneg_sort_values_desc. }
    apply total_stock_nonneg in Hfin.
    rewrite Hrows in Hsum. simpl in Hsum.
    rewrite total_stock_sort_values_desc in Hsum.
    unfold parts_handed_out in Hsum at 2. simpl in Hsum. lia.
  - intros Hall. apply Hcs. simpl. by apply Forall_sort_values_desc.
Qed.

Lemma schedule_demand_bounded_witness :
  0 <= parts_handed_out rows_A <= 9 /\
  (stock_nonneg parts_A -> parts_handed_out rows_A <= total_stock parts_A).
Proof.
  destruct (schedule_demand_bounded module_params (checking_solver plan_A)
              random_A clock_A fleet_A parts_A rows_A rows_A_returned)
    as (_ & H1 & H2 & _).
  exact (conj H1 H2).
Defined.

(** ** The allocation does not look at the schedule *)

Lemma emit_loop_allocations st Value st' Value' l l' em1 em1' em2 em2' :
  for_each (schedule_row st Value) l em1 = Return em1' ->
  for_each (schedule_row st' Value') l' em2 = Return em2' ->
  length l = length l' ->
  inventory em1 = inventory em2 ->
  allocations (schedule_rows em1) = allocations (schedule_rows em2) ->
  inventory em1' = inventory em2' /\
  allocations (schedule_rows em1') = allocations (schedule_rows em2').
Proof.
  revert l' em1 em2. induction l as [|a l IH]; intros [|b l'] em1 em2; simpl;
    try done.
  - by intros [= <-] [= <-].
  - intros (e1 & Hrow1 & Hrun1)%bind_Return (e2 & Hrow2 & Hrun2)%bind_Return
           [= Hlen] Hinv Hrows.
    destruct (schedule_row_Return _ _ _ _ _ Hrow1)
      as (t1 & s1 & du1 & _ & _ & Hr1 & _ & _ & _ & _ & _ & _ & _ & Hal1).
    destruct (schedule_row_Return _ _ _ _ _ Hrow2)
      as (t2 & s2 & du2 & _ & _ & Hr2 & _ & _ & _ & _ & _ & _ & _ & Hal2).
    assert (Hpair : (task_allocation t2, inventory e2)
                    = (task_allocation t1, inventory e1)) by congruence.
    pose proof (f_equal fst Hpair) as Ht. pose proof (f_equal snd Hpair) as Hi.
    cbn [fst snd] in Ht, Hi.
    apply (IH l' e1 e2 Hrun1 Hrun2 Hlen); [congruence|].
    unfold allocations in *. rewrite Hr1, Hr2, !fmap_app, Hrows.
    cbn [fmap list_fmap]. by rewrite Ht.
Qed.

(** X5.  Which part each row gets, how many units and at what cost depends
    only on the number of aircraft, the inventory and the random draws: two
    runs over fleets of the same length with the same inventory and generator
    return the same allocation columns, whatever the planning parameters,
    the solver, the clock and the aircraft are. *)
Theorem allocation_ignores_schedule P P' Solve Solve' g c c'
    fleet_df fleet_df' parts_df rows rows' :
  generate_schedule P Solve g c fleet_df parts_df = Return rows ->
  generate_schedule P' Solve' g c' fleet_df' parts_df = Return rows' ->
  length fleet_df = length fleet_df' ->
  allocations rows = allocations rows'.
Proof.
  intros (st & em & _ & _ & Hem & ->)%generate_schedule_Return
         (st' & em' & _ & _ & Hem' & ->)%generate_schedule_Return Hlen.
  by apply (emit_loop_allocations _ _ _ _ _ _ _ _ _ _ Hem Hem' Hlen).
Qed.

Lemma allocation_ignores_schedule_witness :
  allocations rows_A = allocations rows_A_late.
Proof.
  apply (allocation_ignores_schedule module_params module_params
           (checking_solver plan_A) (checking_solver plan_A) random_A
           clock_A clock_midnight fleet_A fleet_A parts_A rows_A rows_A_late).
  - exact rows_A_returned.
  - vm_compute. reflexivity.
  - reflexivity.
Defined.

(** ** The rotation over the parts *)

Lemma first_fit_fields inv1 inv2 a inv' k idx p :
  parts_copy inv1 = parts_copy inv2 ->
  total_parts_available inv1 = total_parts_available inv2 ->
  random inv1 = random inv2 ->
  cursor inv1 = cursor inv2 ->
  first_fit inv2 a inv' k idx p -> first_fit inv1 a inv' k idx p.
Proof.
  intros E1 E2 E3 E4. unfold first_fit, allocated_from.
  by rewrite E1, E2, E3, E4.
Qed.

Lemma probe_first_fit remaining inv a inv' :
  probe remaining inv = Return (a, inv') -> alloc_part_id a <> None ->
  exists k idx p, (k < remaining)%nat /\ first_fit inv a inv' k idx p.
Proof.
  revert inv. induction remaining as [|r IH]; intros inv Hrun Hsome.
  { simpl in Hrun. injection Hrun as <- <-. done. }
  cbn [probe] in Hrun.
  set (n := length (parts_copy inv)) in *.
  change (if bool_decide (n <= part_idx inv)%nat then 0%nat else part_idx inv)
    with (cursor inv) in Hrun.
  set (start := cursor inv) in *.
  apply bind_Return in Hrun as (prow & Hrow & Hrun).
  unfold loc in Hrow.
  destruct (parts_copy inv !! start) as [p|] eqn:Hp; [|done].
  injection Hrow as ->.
  assert (Hstart : (start < n)%nat) by (by eapply lookup_lt_Some).
  destruct (Z.ltb_spec 0 (quantity_on_hand prow)) as [Hpos|Hnonpos].
  - apply bind_Return in Hrun as ([q g'] & Hdraw & Hrun).
    apply bind_Return in Hrun as (idx' & Hmod & [= <- <-]).
    unfold pymod in Hmod. case_bool_decide; [done|]. injection Hmod as <-.
    exists 0%nat, start, prow. split; [lia|].
    unfold first_fit. fold n. fold start.
    rewrite Nat.add_0_r, Nat.mod_small by done.
    split; [done|]. split; [|split; [intros j Hj; lia | done]].
    unfold allocated_from, alloc_quantity, alloc_part_id, alloc_cost; simpl.
    assert (Hq : 1 <= q <= Z.min 3 (quantity_on_hand prow)).
    { unfold randint in Hdraw.
      destruct (Z.ltb_spec (Z.min 3 (quantity_on_hand prow)) 1); [done|].
      injection Hdraw as <- _.
      pose proof (Z.mod_pos_bound (entropy (random inv) (drawn (random inv)))
                    (Z.min 3 (quantity_on_hand prow) - 1 + 1)). lia. }
    split; [done|]. split; [lia|]. done.
  - apply bind_Return in Hrun as (idx' & Hmod & Hrun).
    unfold pymod in Hmod. case_bool_decide; [done|]. injection Hmod as <-.
    match type of Hrun with probe r ?i = _ => set (inv2 := i) in * end.
    assert (Hc2 : cursor inv2 = ((start + 1) mod n)%nat).
    { unfold cursor, inv2; cbn [parts_copy part_idx]. fold n.
      rewrite bool_decide_eq_false_2; [done|].
      pose proof (Nat.mod_upper_bound (start + 1) n). lia. }
    destruct (IH inv2 Hrun Hsome) as (k & idx & p & Hk & Hff).
    exists (S k), idx, p. split; [lia|].
    destruct Hff as (Hidx & Hfrom & Hbefore & Hcur).
    cbn [parts_copy inv2] in Hidx, Hbefore, Hcur. fold n in Hidx, Hbefore, Hcur.
    rewrite Hc2 in Hidx, Hbefore.
    rewrite Nat.Div0.add_mod_idemp_l in Hidx.
    unfold first_fit. fold n. fold start.
    split; [rewrite Hidx; f_equal; lia|].
    split; [exact Hfrom|]. split; [|exact Hcur].
    intros [|j] Hj.
    + exists prow. rewrite Nat.add_0_r, Nat.mod_small by done. done.
    + destruct (Hbefore j ltac:(lia)) as (q & Hq & Hle).
      rewrite Nat.Div0.add_mod_idemp_l in Hq.
      exists q. split; [|done].
      by replace (start + S j)%nat with (start + 1 + j)%nat by lia.
Qed.

Lemma allocation_is_first_fit_aux inv a inv' :
  allocate inv = Return (a, inv') -> alloc_part_id a <> None ->
  exists k idx p,
    (k < length (parts_copy inv))%nat /\ first_fit inv a inv' k idx p.
Proof.
  unfold allocate. intros Hrun Hsome.
  destruct ((0 <? total_parts_available inv)
            && negb (bool_decide (parts_copy inv = []))).
  - by eapply probe_first_fit.
  - injection Hrun as <- <-. done.
Qed.

(** X6.  An allocation takes the first part with positive stock found from
    the cursor onwards, wrapping round: it is at most [len - 1] positions
    after the cursor, every position read before it held no positive stock,
    and the cursor is left on the position after the part taken. *)
Theorem allocation_is_first_fit inv a inv' :
  allocate inv = Return (a, inv') -> alloc_part_id a <> None ->
  exists k idx p,
    (k < length (parts_copy inv))%nat /\ first_fit inv a inv' k idx p.
Proof. apply allocation_is_first_fit_aux. Qed.

Lemma allocation_is_first_fit_witness :
  exists k idx p,
    (k < 2)%nat /\ first_fit inventory_W step_W.1 step_W.2 k idx p.
Proof.
  apply (allocation_is_first_fit inventory_W step_W.1 step_W.2).
  - vm_compute. reflexivity.
  - discriminate.
Defined.

(** ** The first pass over the sorted inventory *)

Lemma lookup_le_total_stock l i p :
  stock_nonneg l -> l !! i = Some p -> quantity_on_hand p <= total_stock l.
Proof.
  unfold stock_nonneg. intros Hnn. revert i.
  induction Hnn as [|x l Hx Hl IH]; intros [|i] Hi; try done.
  - injection Hi as ->. rewrite total_stock_cons.
    pose proof (total_stock_nonneg l Hl). lia.
  - rewrite total_stock_cons. specialize (IH i Hi). lia.
Qed.

(** A turn of the first pass takes the part under the cursor. *)
Lemma first_pass_step sorted i inv a inv' p :
  first_pass sorted i inv -> sorted !! i = Some p -> 1 <= quantity_on_hand p ->
  allocate inv = Return (a, inv') ->
  allocated_from inv a inv' i p /\ first_pass sorted (S i) inv'.
Proof.
  intros (Hlen & Hcur & Hrest & Hnn & Htr) Hp Hpos Hal.
  assert (Hi : (i < length sorted)%nat) by (by eapply lookup_lt_Some).
  specialize (Hcur Hi).
  assert (Hpi : parts_copy inv !! i = Some p) by (by rewrite Hrest).
  assert (Hc : cursor inv = i).
  { unfold cursor. rewrite Hcur, Hlen. by rewrite bool_decide_eq_false_2 by lia. }
  assert (Hsome : alloc_part_id a <> None).
  { intros Hnone.
    destruct (allocate_unallocated _ _ _ Hal Hnone) as [Hle|Hall].
    - pose proof (lookup_le_total_stock _ _ _ Hnn Hpi). rewrite Htr in Hle. lia.
    - pose proof (Forall_lookup_1 _ _ _ _ Hall Hpi) as Hq. simpl in Hq. lia. }
  destruct (allocation_is_first_fit_aux inv a inv' Hal Hsome)
    as (k & idx & p' & Hk & Hidx & Hfrom & Hbefore & Hcur').
  assert (k = 0)%nat as ->.
  { destruct k as [|k]; [done|].
    destruct (Hbefore 0%nat ltac:(lia)) as (q & Hq & Hle).
    rewrite Hc, Nat.add_0_r, Hlen, Nat.mod_small in Hq by done.
    rewrite Hpi in Hq. injection Hq as <-. lia. }
  rewrite Hc, Nat.add_0_r, Hlen, Nat.mod_small in Hidx by done. subst idx.
  pose proof Hfrom as (Hp' & _ & _ & Hq & _ & _ & Hparts & Htot).
  rewrite Hpi in Hp'. injection Hp' as <-.
  split; [exact Hfrom|].
  split; [by rewrite Hparts, length_insert|].
  split.
  { intros Hlt. rewrite Hcur', Hlen, Nat.mod_small by lia. lia. }
  split.
  { intros j Hj. rewrite Hparts, list_lookup_insert_ne by lia. apply Hrest. lia. }
  split.
  { rewrite Hparts. apply stock_nonneg_insert; [done | lia]. }
  unfold total_tracked. rewrite Htot, Hparts, (total_stock_insert _ _ _ _ Hpi), Htr.
  lia.
Qed.

Lemma first_pass_loop st Value sorted l i em em' :
  for_each (schedule_row st Value) l em = Return em' ->
  first_pass sorted i (inventory em) ->
  Forall (fun p => 1 <= quantity_on_hand p) sorted ->
  (i + length l <= length sorted)%nat ->
  first_pass sorted (i + length l) (inventory em').
Proof.
  revert i em. induction l as [|a l IH]; intros i em; simpl.
  - intros [= <-] H _ _. by rewrite Nat.add_0_r.
  - intros (em1 & Hrow & Hrun)%bind_Return Hpass Hall Hlen.
    destruct (schedule_row_Return _ _ _ _ _ Hrow)
      as (t & s & du & _ & _ & _ & _ & _ & _ & _ & _ & _ & _ & Hal).
    destruct (lookup_lt_is_Some_2 sorted i) as [p Hp]; [lia|].
    pose proof (Forall_lookup_1 _ _ _ _ Hall Hp) as Hpos. simpl in Hpos.
    destruct (first_pass_step _ _ _ _ _ _ Hpass Hp Hpos Hal) as [_ Hnext].
    replace (i + S (length l))%nat with (S i + length l)%nat by lia.
    apply (IH (S i) em1 Hrun Hnext Hall). lia.
Qed.

Lemma first_pass_start parts_df g :
  Forall (fun p => 1 <= quantity_on_hand p) parts_df ->
  first_pass (sort_values_desc parts_df) 0 (inventory0 parts_df g).
Proof.
  intros Hall. unfold first_pass. cbn [inventory0 parts_copy part_idx].
  split; [done|]. split; [done|]. split; [done|]. split.
  - apply stock_nonneg_sort_values_desc. unfold stock_nonneg.
    eapply Forall_impl; [exact Hall|]. simpl. lia.
  - apply inventory0_tracked.
Qed.

(** *** The sorted inventory *)

Lemma insert_desc_Permutation p l : insert_desc p l ≡ₚ p :: l.
Proof.
  induction l as [|x l IH]; simpl; [done|].
  destruct (_ <=? _); [done|]. rewrite IH. apply Permutation_swap.
Qed.

Lemma sort_values_desc_Permutation l : sort_values_desc l ≡ₚ l.
Proof.
  induction l as [|x l IH]; [done|].
  change (sort_values_desc (x :: l)) with (insert_desc x (sort_values_desc l)).
  by rewrite insert_desc_Permutation, IH.
Qed.

Lemma descending_cons x l :
  descending (x :: l) <->
  Forall (fun q => quantity_on_hand q <= quantity_on_hand x) l /\ descending l.
Proof.
  unfold descending. split.
  - intros H. split.
    + apply Forall_lookup. intros j q Hq. by apply (H 0%nat (S j) x q); [lia|..].
    + intros i j p q Hij Hp Hq. by apply (H (S i) (S j) p q); [lia|..].
  - intros [Hx Hl] [|i] [|j] p q Hij Hp Hq; simpl in *; try lia.
    + injection Hp as <-. injection Hq as <-. lia.
    + injection Hp as <-. by apply (Forall_lookup_1 _ _ _ _ Hx Hq).
    + by apply (Hl i j); [lia|..].
Qed.

Lemma insert_desc_descending p l : descending l -> descending (insert_desc p l).
Proof.
  induction l as [|x l IH]; intros Hl; cbn [insert_desc].
  - apply descending_cons. split; [constructor|]. by intros i j ? ? _ ?.
  - apply descending_cons in Hl as [Hx Hl].
    destruct (Z.leb_spec (quantity_on_hand x) (quantity_on_hand p)).
    + apply descending_cons. split.
      * constructor; [done|]. eapply Forall_impl; [exact Hx|]. simpl. lia.
      * by apply descending_cons.
    + apply descending_cons. split; [|by apply IH].
      rewrite insert_desc_Permutation. constructor; [lia | done].
Qed.

Lemma sort_values_desc_descending l : descending (sort_values_desc l).
Proof.
  induction l as [|x l IH]; [by intros i j ? ? _ ?|].
  change (sort_values_desc (x :: l)) with (insert_desc x (sort_values_desc l)).
  by apply insert_desc_descending.
Qed.

(** X7.  When every part of the inventory holds at least one unit and the
    quantities add up within [int64], the
    first aircraft of the fleet, as many as there are parts, are served from
    one part each in order of decreasing stock: the row at position [i]
    names a part of the inventory holding the [i]-th largest quantity and
    asks for between one and [min(3, that quantity)] units of it. *)
Theorem first_pass_follows_stock P Solve g c fleet_df parts_df rows i t :
  Forall (fun p => 1 <= quantity_on_hand p) parts_df ->
  sum_fits_int64 parts_df ->
  generate_schedule P Solve g c fleet_df parts_df = Return rows ->
  (i < length parts_df)%nat ->
  rows !! i = Some t ->
  exists p,
    p ∈ parts_df /\
    task_part_id t = Some (part_id p) /\
    descending_quantities parts_df !! i = Some (quantity_on_hand p) /\
    1 <= part_quantity t <= Z.min 3 (quantity_on_hand p) /\
    (forall j q, (i <= j)%nat -> descending_quantities parts_df !! j = Some q ->
                 q <= quantity_on_hand p).
Proof.
  intros Hall _ (st & em & Hb & _ & Hem & ->)%generate_schedule_Return Hi Ht.
  set (Value := (Solve (model st)).2) in *.
  set (sorted := sort_values_desc parts_df).
  assert (Hlen : length sorted = length parts_df).
  { unfold sorted. by rewrite sort_values_desc_Permutation. }
  assert (Hall' : Forall (fun p => 1 <= quantity_on_hand p) sorted).
  { unfold sorted. by rewrite sort_values_desc_Permutation. }
  destruct (emitted_row _ _ _ _ _ _ _ _ _ Hem Ht)
    as (a & em_i & em_i' & Ha & Hbefore & _ & Hrow).
  assert (Hpass : first_pass sorted i (inventory em_i)).
  { pose proof (first_pass_loop st Value sorted (take i fleet_df) 0
                  (emitter0 parts_df g c) em_i Hbefore
                  (first_pass_start parts_df g Hall) Hall') as H.
    assert (Hi' : (i < length fleet_df)%nat) by (by eapply lookup_lt_Some).
    rewrite length_take_le in H by lia. apply H. simpl. lia. }
  destruct (lookup_lt_is_Some_2 sorted i) as [p Hp]; [lia|].
  pose proof (Forall_lookup_1 _ _ _ _ Hall' Hp) as Hpos. simpl in Hpos.
  pose proof Hrow as (_ & _ & _ & _ & _ & _ & _ & _ & _ & _ & _ & _ & Hal).
  destruct (first_pass_step _ _ _ _ _ _ Hpass Hp Hpos Hal) as [Hfrom _].
  destruct Hfrom as (_ & _ & _ & Hq & Hid & _).
  exists p. split.
  { rewrite <- (sort_values_desc_Permutation parts_df).
    by eapply list_elem_of_lookup_2. }
  split; [exact Hid|].
  split; [unfold descending_quantities; fold sorted; by rewrite list_lookup_fmap, Hp|].
  split; [exact Hq|].
  intros j q Hj Hq'. unfold descending_quantities in Hq'. fold sorted in Hq'.
  rewrite list_lookup_fmap in Hq'.
  destruct (sorted !! j) as [pj|] eqn:Hpj; [|done]. injection Hq' as <-.
  by apply (sort_values_desc_descending parts_df i j p pj).
Qed.

Lemma first_pass_follows_stock_witness :
  exists t p,
    rows_A !! 1%nat = Some t /\
    p ∈ parts_A /\
    task_part_id t = Some (part_id p) /\
    descending_quantities parts_A !! 1%nat = Some (quantity_on_hand p).
Proof.
  destruct (rows_A !! 1%nat) as [t|] eqn:Ht; [|vm_compute in Ht; discriminate].
  destruct (first_pass_follows_stock module_params (checking_solver plan_A)
              random_A clock_A fleet_A parts_A rows_A 1 t)
    as (p & Hin & Hid & Hq & _).
  - unfold parts_A. repeat constructor; simpl; lia.
  - vm_compute. reflexivity.
  - exact rows_A_returned.
  - simpl. lia.
  - exact Ht.
  - exact (ex_intro _ t (ex_intro _ p (conj eq_refl (conj Hin (conj Hid Hq))))).
Defined.

(** ** The rows and the windows *)

(** X8.  With a solver that only reports assignments satisfying the model,
    every returned row starts on a day of the horizon, between day 0 and day
    [horizon - 1], and lasts between [MAINT_DURATION_MIN] and
    [MAINT_DURATION_MAX] days; under a clock that stays on one day,
    [schedule_end - schedule_start] is that duration. *)
Theorem window_within_bounds P Solve g c fleet_df parts_df rows i t :
  sound Solve ->
  generate_schedule P Solve g c fleet_df parts_df = Return rows ->
  rows !! i = Some t ->
  0 <= row_start_day c i t <= PLANNING_HORIZON_DAYS P - 1 /\
  MAINT_DURATION_MIN P <= row_end_day c i t - row_start_day c i t
    <= MAINT_DURATION_MAX P /\
  ((forall n m, day_at c n = day_at c m) ->
   schedule_end t - schedule_start t = row_end_day c i t - row_start_day c i t).
Proof.
  intros Hsound (st & em & Hb & Hsolved & Hem & ->)%generate_schedule_Return Ht.
  set (Value := (Solve (model st)).2) in *.
  assert (Hfeas : feasible Value (model st) = true).
  { apply Hsound. destruct (Solve (model st)).1; try done; auto. }
  destruct (emit_loop_rows _ _ _ _ _ Hem) as (new & Hrows & Hlen & _ & _ & _ & Hnew).
  simpl in Hrows, Hnew. rewrite Hrows in Ht.
  assert (Hi : (i < length fleet_df)%nat).
  { rewrite <- Hlen. by eapply lookup_lt_Some. }
  destruct (lookup_lt_is_Some_2 fleet_df i Hi) as [a Ha].
  destruct (Hnew i a Ha) as (t' & s & du & Ht' & Hs & Hdu & _ & _ & Hstart & Hend).
  assert (t' = t) as -> by congruence.
  destruct (proj1 (build_model_linked P fleet_df st Hb) (aircraft_id a))
    as (s' & du' & Hs' & Hdu' & Vs & Vdu & _).
  { apply list_elem_of_fmap_2. by eapply list_elem_of_lookup_2. }
  assert (s' = s) as -> by congruence. assert (du' = du) as -> by congruence.
  apply feasible_spec in Hfeas as [Hdom _].
  apply Hdom in Vs, Vdu.
  unfold row_start_day, row_end_day. rewrite Hstart, Hend. simpl.
  split; [lia|]. split; [lia|].
  intros Hsteady.
  rewrite (Hsteady (reads c + (i + (i + 0)) + 1)%nat (reads c + (i + (i + 0)))%nat).
  lia.
Qed.

Lemma window_within_bounds_witness :
  exists t,
    rows_A !! 1%nat = Some t /\
    0 <= row_start_day clock_A 1 t <= 29 /\
    1 <= row_end_day clock_A 1 t - row_start_day clock_A 1 t <= 2.
Proof.
  destruct (rows_A !! 1%nat) as [t|] eqn:Ht; [|vm_compute in Ht; discriminate].
  destruct (window_within_bounds module_params (checking_solver plan_A)
              random_A clock_A fleet_A parts_A rows_A 1 t) as (H1 & H2 & _).
  - apply checking_solver_sound.
  - exact rows_A_returned.
  - exact Ht.
  - exact (ex_intro _ t (conj eq_refl (conj H1 H2))).
Defined.

(** X9.  Two rows of the fleet under the same aircraft identifier get the
    same window: the later row's variables replace the earlier one's in the
    dictionaries, and both rows read them back. *)
Theorem duplicate_rows_share_window P Solve g c fleet_df parts_df rows
    i j a b t t' :
  generate_schedule P Solve g c fleet_df parts_df = Return rows ->
  fleet_df !! i = Some a -> fleet_df !! j = Some b ->
  aircraft_id a = aircraft_id b ->
  rows !! i = Some t -> rows !! j = Some t' ->
  row_start_day c i t = row_start_day c j t' /\
  row_end_day c i t = row_end_day c j t'.
Proof.
  intros (st & em & _ & _ & Hem & ->)%generate_schedule_Return Ha Hb Hid Ht Ht'.
  destruct (emit_loop_rows _ _ _ _ _ Hem) as (new & Hrows & _ & _ & _ & _ & Hnew).
  simpl in Hrows, Hnew. rewrite Hrows in Ht, Ht'.
  destruct (Hnew i a Ha) as (t1 & s & du & Ht1 & Hs & Hdu & _ & _ & Hst1 & Hend1).
  destruct (Hnew j b Hb) as (t2 & s2 & du2 & Ht2 & Hs2 & Hdu2 & _ & _ & Hst2 & Hend2).
  assert (t1 = t) as -> by congruence. assert (t2 = t') as -> by congruence.
  rewrite Hid in Hs, Hdu.
  assert (s2 = s) as -> by congruence. assert (du2 = du) as -> by congruence.
  unfold row_start_day, row_end_day. rewrite Hst1, Hend1, Hst2, Hend2.
  simpl. lia.
Qed.

Lemma duplicate_rows_share_window_witness :
  exists t t',
    rows_twice !! 0%nat = Some t /\ rows_twice !! 1%nat = Some t' /\
    row_start_day clock_A 0 t = row_start_day clock_A 1 t' /\
    row_end_day clock_A 0 t = row_end_day clock_A 1 t'.
Proof.
  destruct (rows_twice !! 0%nat) as [t|] eqn:Ht; [|vm_compute in Ht; discriminate].
  destruct (rows_twice !! 1%nat) as [t'|] eqn:Ht'; [|vm_compute in Ht'; discriminate].
  exists t, t'. split; [reflexivity|]. split; [reflexivity|].
  apply (duplicate_rows_share_window module_params (checking_solver plan_twice)
           random_A clock_A fleet_twice parts_A rows_twice 0 1
           (aircraft "AIR-1001" 10) (aircraft "AIR-1001" 500) t t').
  - vm_compute. reflexivity.
  - reflexivity.
  - reflexivity.
  - reflexivity.
  - exact Ht.
  - exact Ht'.
Defined.

(** ** An empty fleet *)

(** X11.  An empty fleet never divides by zero (the maximum of line 83 is
    taken as one), so the model is always built and handed to the solver:
    the run returns the empty schedule when the solver reports [OPTIMAL] or
    [FEASIBLE], and raises the solve step's error when it reports [UNKNOWN],
    [MODEL_INVALID] or [INFEASIBLE], as a sound solver must when the crew
    capacity is negative and the horizon has a day. *)
Theorem empty_fleet P Solve g c parts_df :
  exists st,
    build_model P [] = Return st /\
    ((Solve (model st)).1 = OPTIMAL \/ (Solve (model st)).1 = FEASIBLE ->
     generate_schedule P Solve g c [] parts_df = Return []) /\
    ((Solve (model st)).1 = UNKNOWN \/ (Solve (model st)).1 = MODEL_INVALID \/
     (Solve (model st)).1 = INFEASIBLE ->
     generate_schedule P Solve g c [] parts_df
     = Raise (RuntimeError "No feasible solution found")) /\
    (sound Solve -> CREW_AVAILABLE P < 0 -> 1 <= PLANNING_HORIZON_DAYS P ->
     generate_schedule P Solve g c [] parts_df
     = Raise (RuntimeError "No feasible solution found")).
Proof.
  destruct (build_model_total P []) as [st Hb]; [done|].
  exists st. split; [exact Hb|].
  assert (Hraise : solved (Solve (model st)).1 = false ->
            generate_schedule P Solve g c [] parts_df
            = Raise (RuntimeError "No feasible solution found")).
  { exact (generate_schedule_unsolved P Solve g c [] parts_df st Hb). }
  split; [|split].
  - intros Hst%solved_statuses.
    destruct (generate_schedule_solved P Solve g c [] parts_df st Hb Hst)
      as (em & Hem & E).
    rewrite E. simpl in Hem. injection Hem as <-. reflexivity.
  - intros Hst. apply Hraise, unsolved_statuses.
    destruct Hst as [E|[E|E]]; rewrite E; by split.
  - intros Hsound Hcrew Hh. apply Hraise.
    destruct (solved (Solve (model st)).1) eqn:Hst; [exfalso|done].
    assert (Hfeas : feasible (Solve (model st)).2 (model st) = true).
    { apply Hsound. apply solved_statuses in Hst. tauto. }
    pose proof (capacity_of_windows P [] st (Solve (model st)).2 0 Hb Hfeas) as Hcap.
    simpl in Hcap. lia.
Qed.

Lemma empty_fleet_witness :
  generate_schedule module_params (checking_solver plan_A) random_A clock_A
    [] parts_A = Return [] /\
  generate_schedule params_no_crew (checking_solver plan_A) random_A clock_A
    [] parts_A = Raise (RuntimeError "No feasible solution found").
Proof.
  split.
  - destruct (empty_fleet module_params (checking_solver plan_A) random_A
                clock_A parts_A) as (st & Hb & Hret & _).
    apply Hret. right. revert Hb. vm_compute. intros [= <-]. reflexivity.
  - destruct (empty_fleet params_no_crew (checking_solver plan_A) random_A
                clock_A parts_A) as (st & _ & _ & _ & Hneg).
    apply Hneg.
    + apply checking_solver_sound.
    + simpl. lia.
    + simpl. lia.
Defined.

(** ** Demand above the crew's capacity *)

Lemma count_if_nonneg {A : Type} (f : A -> bool) l : 0 <= count_if f l.
Proof.
  induction l as [|x l IH]; simpl; [lia|]. destruct (f x); lia.
Qed.

Lemma count_if_cons {A : Type} (f : A -> bool) x l :
  count_if f (x :: l) = (if f x then 1 else 0) + count_if f l.
Proof. reflexivity. Qed.

Lemma count_if_elem {A : Type} (f : A -> bool) l x :
  x ∈ l -> f x = true -> 1 <= count_if f l.
Proof.
  induction 1 as [x l|x y l _ IH]; intros Hx; rewrite count_if_cons.
  - rewrite Hx. pose proof (count_if_nonneg f l). lia.
  - specialize (IH Hx). destruct (f y); lia.
Qed.

Lemma count_if_le {A : Type} (f g : A -> bool) l :
  (forall x, x ∈ l -> f x = true -> g x = true) ->
  count_if f l <= count_if g l.
Proof.
  induction l as [|x l IH]; intros Hfg; [simpl; lia|].
  rewrite !count_if_cons.
  assert (IH' : count_if f l <= count_if g l).
  { apply IH. intros y Hy. apply Hfg. by right. }
  destruct (f x) eqn:Hf.
  - rewrite (Hfg x); [lia|left|done].
  - destruct (g x); lia.
Qed.

(** Counting the pairs (day, aircraft) of a table by rows or by columns. *)
Lemma count_if_swap {A B : Type} (f : A -> B -> bool) la lb :
  foldr Z.add 0 ((fun a => count_if (f a) lb) <$> la)
  = foldr Z.add 0 ((fun b => count_if (fun a => f a b) la) <$> lb).
Proof.
  induction la as [|a la IH].
  - simpl. induction lb as [|b lb IHb]; [done|].
    rewrite fmap_cons. cbn [foldr]. rewrite <- IHb. done.
  - rewrite fmap_cons. cbn [foldr]. rewrite IH. clear IH.
    induction lb as [|b lb IHb]; [done|].
    rewrite !fmap_cons. cbn [foldr]. rewrite !count_if_cons.
    rewrite <- IHb. lia.
Qed.

Lemma sum_le_each {A : Type} (f : A -> Z) l k :
  (forall x, x ∈ l -> f x <= k) ->
  foldr Z.add 0 (f <$> l) <= k * Z.of_nat (length l).
Proof.
  induction l as [|x l IH]; intros Hk; [simpl; lia|].
  rewrite fmap_cons. cbn [foldr length].
  assert (f x <= k) by (apply Hk; left).
  assert (foldr Z.add 0 (f <$> l) <= k * Z.of_nat (length l)).
  { apply IH. intros y Hy. apply Hk. by right. }
  lia.
Qed.

Lemma sum_ge_each {A : Type} (f : A -> Z) l :
  (forall x, x ∈ l -> 1 <= f x) ->
  Z.of_nat (length l) <= foldr Z.add 0 (f <$> l).
Proof.
  induction l as [|x l IH]; intros Hk; [simpl; lia|].
  rewrite fmap_cons. cbn [foldr length].
  assert (1 <= f x) by (apply Hk; left).
  assert (Z.of_nat (length l) <= foldr Z.add 0 (f <$> l)).
  { apply IH. intros y Hy. apply Hk. by right. }
  lia.
Qed.

(** In a feasible assignment every aircraft of the fleet is in maintenance
    on its own start day, a day of the horizon, as soon as the shortest
    duration is a day. *)
Lemma start_day_in_window P fleet_df st Value aid :
  build_model P fleet_df = Return st ->
  feasible Value (model st) = true ->
  1 <= MAINT_DURATION_MIN P ->
  aid ∈ aircraft_id <$> fleet_df ->
  let s := Value (start_day st !!! aid) in
  0 <= s < PLANNING_HORIZON_DAYS P /\
  in_window s (Value (duration st !!! aid)) s = true.
Proof.
  intros Hb Hfeas Hmin Haid.
  destruct (proj1 (build_model_linked P fleet_df st Hb) aid Haid)
    as (s & du & Hs & Hdu & Vs & Vdu & _).
  rewrite (lookup_total_correct _ _ _ Hs), (lookup_total_correct _ _ _ Hdu).
  apply feasible_spec in Hfeas as [Hdom _]. apply Hdom in Vs, Vdu.
  simpl. split; [lia|]. unfold in_window.
  apply andb_true_iff. split; [apply Z.leb_le|apply Z.ltb_lt]; lia.
Qed.

Lemma overbooked_infeasible P fleet_df st Value :
  build_model P fleet_df = Return st ->
  1 <= MAINT_DURATION_MIN P ->
  0 <= PLANNING_HORIZON_DAYS P ->
  CREW_AVAILABLE P * PLANNING_HORIZON_DAYS P < Z.of_nat (length fleet_df) ->
  feasible Value (model st) = false.
Proof.
  intros Hb Hmin Hh Hover.
  destruct (feasible Value (model st)) eqn:Hfeas; [exfalso|done].
  set (f := fun d aid => in_window (Value (start_day st !!! aid))
                                   (Value (duration st !!! aid)) d).
  set (ids := aircraft_id <$> fleet_df).
  set (days := range (PLANNING_HORIZON_DAYS P)).
  assert (Hup : foldr Z.add 0 ((fun d => count_if (f d) ids) <$> days)
                <= CREW_AVAILABLE P * Z.of_nat (length days)).
  { apply sum_le_each. intros d Hd%elem_of_range.
    exact (capacity_of_windows P fleet_df st Value d Hb Hfeas Hd). }
  assert (Hlow : Z.of_nat (length ids)
                 <= foldr Z.add 0 ((fun aid => count_if (fun d => f d aid) days) <$> ids)).
  { apply sum_ge_each. intros aid Haid.
    destruct (start_day_in_window P fleet_df st Value aid Hb Hfeas Hmin Haid)
      as [Hs Hin].
    apply (count_if_elem _ _ (Value (start_day st !!! aid))); [|exact Hin].
    by apply elem_of_range. }
  rewrite <- count_if_swap in Hlow.
  unfold days, range in Hup. rewrite length_seqZ, Z2Nat.id in Hup by lia.
  unfold ids in Hlow. rewrite length_fmap in Hlow.
  fold ids in Hlow. fold (range (PLANNING_HORIZON_DAYS P)) in Hup.
  fold days in Hup. lia.
Qed.

Lemma repeated_infeasible P fleet_df st Value aid :
  build_model P fleet_df = Return st ->
  1 <= MAINT_DURATION_MIN P ->
  0 <= CREW_AVAILABLE P ->
  CREW_AVAILABLE P < rows_named aid fleet_df ->
  feasible Value (model st) = false.
Proof.
  intros Hb Hmin Hcrew Hover.
  destruct (feasible Value (model st)) eqn:Hfeas; [exfalso|done].
  assert (Haid : aid ∈ aircraft_id <$> fleet_df).
  { unfold rows_named in Hover. clear -Hover Hcrew.
    induction (aircraft_id <$> fleet_df) as [|x l IH]; [simpl in Hover; lia|].
    rewrite count_if_cons in Hover. case_bool_decide.
    - subst. left.
    - right. apply IH. lia. }
  destruct (start_day_in_window P fleet_df st Value aid Hb Hfeas Hmin Haid)
    as [Hs Hin].
  pose proof (capacity_of_windows P fleet_df st Value _ Hb Hfeas Hs) as Hcap.
  assert (Hle : rows_named aid fleet_df
                <= count_if (fun x => in_window (Value (start_day st !!! x))
                                        (Value (duration st !!! x))
                                        (Value (start_day st !!! aid)))
                            (aircraft_id <$> fleet_df)).
  { apply count_if_le. intros x _ Hx. apply bool_decide_eq_true in Hx.
    subst x. exact Hin. }
  lia.
Qed.

Lemma infeasible_run P Solve g c fleet_df parts_df :
  sound Solve ->
  (forall st Value, build_model P fleet_df = Return st ->
                    feasible Value (model st) = false) ->
  generate_schedule P Solve g c fleet_df parts_df = fails_unsolved fleet_df.
Proof.
  intros Hsound Hinf. unfold fails_unsolved. case_bool_decide as Hm.
  - unfold generate_schedule. rewrite build_model_zero; [done| |done].
    intros ->. discriminate.
  - destruct (build_model_total P fleet_df Hm) as [st Hb].
    apply (generate_schedule_unsolved P Solve g c fleet_df parts_df st Hb).
    destruct (solved (Solve (model st)).1) eqn:Hst; [exfalso|done].
    assert (Hfeas : feasible (Solve (model st)).2 (model st) = true).
    { apply Hsound. destruct (Solve (model st)).1; try discriminate; auto. }
    rewrite (Hinf st _ Hb) in Hfeas. discriminate.
Qed.

(** X12.  A fleet with more rows than crew-days in the horizon gets no
    schedule at all.  Every window lasts at least a day and starts inside the
    horizon, so each aircraft takes one of the [CREW_AVAILABLE * horizon]
    places; with a solver that only reports assignments satisfying the model
    the run raises [RuntimeError] (or [ZeroDivisionError] before it, when the
    largest [hours_until_due] is zero) and never returns a partial plan. *)
Theorem fleet_over_capacity_raises P Solve g c fleet_df parts_df :
  sound Solve ->
  1 <= MAINT_DURATION_MIN P ->
  0 <= PLANNING_HORIZON_DAYS P ->
  CREW_AVAILABLE P * PLANNING_HORIZON_DAYS P < Z.of_nat (length fleet_df) ->
  generate_schedule P Solve g c fleet_df parts_df = fails_unsolved fleet_df.
Proof.
  intros Hsound Hmin Hh Hover. apply infeasible_run; [exact Hsound|].
  intros st Value Hb. by eapply overbooked_infeasible.
Qed.

Lemma fleet_over_capacity_raises_witness :
  generate_schedule params_one_day (checking_solver plan_A) random_A clock_A
    fleet_two parts_A
  = Raise (RuntimeError "No feasible solution found").
Proof.
  apply (fleet_over_capacity_raises params_one_day (checking_solver plan_A)
           random_A clock_A fleet_two parts_A).
  - apply checking_solver_sound.
  - simpl; lia.
  - simpl; lia.
  - simpl; lia.
Defined.

(** X13.  The capacity row of a day adds one term per row of the fleet, so
    an aircraft identifier carried by more rows than there are crews is
    counted above the capacity on its own start day: with a solver that only
    reports assignments satisfying the model such a fleet gets no schedule. *)
Theorem repeated_aircraft_raises P Solve g c fleet_df parts_df aid :
  sound Solve ->
  1 <= MAINT_DURATION_MIN P ->
  0 <= CREW_AVAILABLE P ->
  CREW_AVAILABLE P < rows_named aid fleet_df ->
  generate_schedule P Solve g c fleet_df parts_df = fails_unsolved fleet_df.
Proof.
  intros Hsound Hmin Hcrew Hover. apply infeasible_run; [exact Hsound|].
  intros st Value Hb. by eapply repeated_infeasible.
Qed.

Lemma repeated_aircraft_raises_witness :
  generate_schedule module_params (checking_solver plan_A) random_A clock_A
    fleet_thrice parts_A
  = Raise (RuntimeError "No feasible solution found").
Proof.
  apply (repeated_aircraft_raises module_params (checking_solver plan_A)
           random_A clock_A fleet_thrice parts_A "AIR-1001").
  - apply checking_solver_sound.
  - simpl; lia.
  - simpl; lia.
  - vm_compute; reflexivity.
Defined.

(** ** The size of the model *)

Lemma declare_day_size aid st d st' :
  declare_day aid st d = Return st' ->
  length (variables (model st')) = S (length (variables (model st))) /\
  constraints (model st') = constraints (model st).
Proof.
  unfold declare_day, NewBoolVar, NewIntVar. intros [= <-]. simpl.
  rewrite length_app. simpl. split; [lia|done].
Qed.

Lemma link_day_size aid st d st' :
  link_day aid st d = Return st' ->
  length (variables (model st')) = (length (variables (model st)) + 2)%nat /\
  length (constraints (model st')) = (length (constraints (model st)) + 6)%nat.
Proof.
  unfold link_day, NewBoolVar, NewIntVar. cbn zeta. intros H.
  repeat (apply bind_Return in H as (? & _ & H)).
  injection H as <-. simpl. rewrite !length_app. simpl. lia.
Qed.

Lemma for_each_size {A : Type} (f : Builder -> A -> result Builder)
    (dv dc : nat) l st st' :
  (forall st1 x st2, f st1 x = Return st2 ->
     length (variables (model st2)) = (length (variables (model st1)) + dv)%nat /\
     length (constraints (model st2)) = (length (constraints (model st1)) + dc)%nat) ->
  for_each f l st = Return st' ->
  length (variables (model st')) = (length (variables (model st)) + length l * dv)%nat /\
  length (constraints (model st')) = (length (constraints (model st)) + length l * dc)%nat.
Proof.
  intros Hf. revert st. induction l as [|x l IH]; intros st; simpl.
  - intros [= <-]. lia.
  - intros (st1 & H1 & Hrest)%bind_Return.
    destruct (Hf _ _ _ H1) as [Hv Hc]. destruct (IH _ Hrest) as [Hv' Hc']. lia.
Qed.

Lemma add_aircraft_size P st aid st' :
  add_aircraft P st aid = Return st' ->
  let h := Z.to_nat (PLANNING_HORIZON_DAYS P) in
  length (variables (model st')) = (length (variables (model st)) + (2 + 3 * h))%nat /\
  length (constraints (model st')) = (length (constraints (model st)) + 6 * h)%nat.
Proof.
  unfold add_aircraft. intros (st1 & H1 & H2)%bind_Return.
  apply (for_each_size _ 1 0) in H1 as [Hv1 Hc1].
  2: { intros ??? [Hv Hc]%declare_day_size. rewrite Hc. lia. }
  apply (for_each_size _ 2 6) in H2 as [Hv2 Hc2].
  2: { intros ???. apply link_day_size. }
  unfold range in *. rewrite length_seqZ in *.
  unfold declare_aircraft, NewIntVar in Hv1, Hc1. simpl in Hv1, Hc1.
  rewrite !length_app in Hv1. simpl in Hv1. simpl. lia.
Qed.

Lemma add_capacity_size P l st d st' :
  add_capacity P l st d = Return st' ->
  length (variables (model st')) = (length (variables (model st)) + 0)%nat /\
  length (constraints (model st')) = (length (constraints (model st)) + 1)%nat.
Proof.
  unfold add_capacity. intros (ons & _ & [= <-])%bind_Return. simpl.
  rewrite length_app. simpl. lia.
Qed.

Lemma for_each_start {A : Type} (f : Builder -> A -> result Builder) l st st' :
  (forall st1 x st2, f st1 x = Return st2 -> start_day st2 = start_day st1) ->
  for_each f l st = Return st' -> start_day st' = start_day st.
Proof.
  intros Hf. revert st. induction l as [|x l IH]; intros st; simpl.
  - by intros [= <-].
  - intros (st1 & H1 & Hrest)%bind_Return.
    rewrite (IH _ Hrest). by eapply Hf.
Qed.

Lemma link_day_start aid st d st' :
  link_day aid st d = Return st' -> start_day st' = start_day st.
Proof.
  unfold link_day, NewBoolVar, NewIntVar. cbn zeta. intros H.
  repeat (apply bind_Return in H as (? & _ & H)).
  by injection H as <-.
Qed.

Lemma add_aircraft_start P st aid st' :
  add_aircraft P st aid = Return st' ->
  start_day st' = <[aid := length (variables (model st))]> (start_day st).
Proof.
  unfold add_aircraft. intros (st1 & H1 & H2)%bind_Return.
  apply (for_each_start _ _ _ _ (link_day_start aid)) in H2.
  apply for_each_start in H1; [|by intros ??? [= <-]].
  by rewrite H2, H1.
Qed.

Lemma add_capacity_start P l st d st' :
  add_capacity P l st d = Return st' -> start_day st' = start_day st.
Proof.
  unfold add_capacity. by intros (ons & _ & [= <-])%bind_Return.
Qed.

(** The dictionary of start days never gives two aircraft the same
    variable. *)
Lemma start_vars_distinct P l st st' :
  for_each (add_aircraft P) l st = Return st' ->
  (forall a v, start_day st !! a = Some v ->
     (v < length (variables (model st)))%nat) ->
  (forall a b v, start_day st !! a = Some v -> start_day st !! b = Some v ->
     a = b) ->
  forall a b v, start_day st' !! a = Some v -> start_day st' !! b = Some v ->
    a = b.
Proof.
  revert st. induction l as [|aid l IH]; intros st; simpl.
  - by intros [= <-].
  - intros (st1 & H1 & Hrest)%bind_Return Hbound Hinj.
    pose proof (add_aircraft_start _ _ _ _ H1) as Hs.
    destruct (add_aircraft_size _ _ _ _ H1) as [Hlen _].
    apply (IH st1 Hrest).
    + intros a v. rewrite Hs. destruct (decide (a = aid)) as [->|Hne].
      * rewrite lookup_insert_eq. intros [= <-]. lia.
      * rewrite lookup_insert_ne by done. intros Hv%Hbound. lia.
    + intros a b v. rewrite Hs.
      destruct (decide (a = aid)) as [->|Ha]; destruct (decide (b = aid)) as [->|Hb];
        try done.
      * rewrite lookup_insert_eq, lookup_insert_ne by done.
        intros [= <-] Hv%Hbound. lia.
      * rewrite lookup_insert_eq, lookup_insert_ne by done.
        intros Hv%Hbound [= <-]. lia.
      * rewrite !lookup_insert_ne by done. apply Hinj.
Qed.

(** X14.  For a fleet of [n >= 1] rows and a horizon of [h] days the model
    handed to the solver has [n * (2 + 3 * h)] variables (a start, a duration
    and three booleans per day for each row) and [6 * h * n + h] constraints
    (six reified links per row and day, one capacity row per day); with
    distinct identifiers its objective has one term per row, each on a
    different start variable and with a weight of at least one. *)
Theorem model_size P fleet_df st :
  build_model P fleet_df = Return st ->
  fleet_df <> [] ->
  let n := length fleet_df in
  let h := Z.to_nat (PLANNING_HORIZON_DAYS P) in
  length (variables (model st)) = (n * (2 + 3 * h))%nat /\
  length (constraints (model st)) = (6 * h * n + h)%nat /\
  (NoDup (aircraft_id <$> fleet_df) ->
   exists terms,
     objective (model st) = Some terms /\ length terms = n /\
     NoDup (snd <$> terms) /\ Forall (fun t => 1 <= t.1) terms).
Proof.
  intros Hb _.
  pose proof Hb as (st0 & W & terms & H0 & HW & Hterms & ->)%build_model_Return.
  cbn [with_model model Minimize variables constraints objective].
  unfold build_constraints in H0.
  apply bind_Return in H0 as (st1 & H1 & H2).
  pose proof H1 as H1'.
  apply (for_each_size _ (2 + 3 * Z.to_nat (PLANNING_HORIZON_DAYS P))
                         (6 * Z.to_nat (PLANNING_HORIZON_DAYS P))) in H1
    as [Hv1 Hc1].
  2: { intros ???. apply add_aircraft_size. }
  pose proof H2 as H2'.
  apply (for_each_size _ 0 1) in H2 as [Hv2 Hc2].
  2: { intros ???. apply add_capacity_size. }
  unfold range in Hv2, Hc2. rewrite length_seqZ in Hv2, Hc2.
  rewrite length_fmap in Hv1, Hc1.
  simpl in Hv1, Hc1.
  split; [lia|]. split; [lia|].
  intros Hnodup. exists terms. split; [done|].
  apply mapM_Return in Hterms. pose proof (Forall2_length _ _ _ Hterms) as Hlen.
  rewrite length_fmap in Hlen. split; [done|].
  assert (Hinj : forall a b v, start_day st0 !! a = Some v ->
            start_day st0 !! b = Some v -> a = b).
  { rewrite (for_each_start _ _ _ _ (add_capacity_start P _) H2').
    apply (start_vars_distinct P _ _ _ H1'); by intros ??. }
  split.
  - apply NoDup_alt. intros i j v. rewrite !list_lookup_fmap.
    intros (ti & Hi & ->)%fmap_Some (tj & Hj & E)%fmap_Some.
    destruct (Forall2_lookup_r _ _ _ _ _ Hterms Hi) as (ai & Hai & Hti).
    destruct (Forall2_lookup_r _ _ _ _ _ Hterms Hj) as (aj & Haj & Htj).
    apply objective_term_Return in Hti as [Hsi _].
    apply objective_term_Return in Htj as [Hsj _].
    rewrite <- E in Hsj.
    assert (ai = aj) as <- by (by eapply Hinj).
    by eapply NoDup_lookup.
  - apply Forall_forall. intros t (i & Hi)%list_elem_of_lookup.
    destruct (Forall2_lookup_r _ _ _ _ _ Hterms Hi) as (aid & Haid & Ht).
    apply objective_term_Return in Ht as [_ Hw].
    unfold compute_weights in HW.
    destruct (weights_member _ _ _ _ aid HW) as (a & w & _ & _ & [_ ->]%weight_of_Return & Hw').
    { by eapply list_elem_of_lookup_2. }
    rewrite Hw in Hw'. injection Hw' as ->. lia.
Qed.

Lemma model_size_witness :
  exists st,
    build_model params_one_day fleet_two = Return st /\
    length (variables (model st)) = 10%nat /\
    length (constraints (model st)) = 13%nat.
Proof.
  destruct (build_model params_one_day fleet_two) as [e|st] eqn:Hb;
    [vm_compute in Hb; discriminate|].
  destruct (model_size params_one_day fleet_two st Hb) as (Hv & Hc & _).
  - discriminate.
  - exact (ex_intro _ st (conj eq_refl (conj Hv Hc))).
Defined.

(** ** The range of the weights *)

Lemma percent_of_Qeq (q q' : Q) :
  (q == q')%Q ->
  float.to_int (float.mul (float.round q) (float.of_int 100))
  = float.to_int (float.mul (float.round q') (float.of_int 100)).
Proof.
  intros E. apply Z.le_antisymm; apply percent_mono, round_mono; rewrite E;
    apply Qle_refl.
Qed.

Lemma truncated_weight_least m : m <> 0 -> truncated_weight m m = 1.
Proof.
  intros Hm. unfold truncated_weight.
  rewrite (percent_of_Qeq _ 0%Q).
  - by vm_compute.
  - rewrite Z.sub_diag. unfold Qdiv. apply Qmult_0_l.
Qed.

Lemma truncated_weight_due m : m <> 0 -> truncated_weight m 0 = 100.
Proof.
  intros Hm. unfold truncated_weight.
  rewrite (percent_of_Qeq _ 1%Q).
  - by vm_compute.
  - rewrite Z.sub_0_r. apply Qmult_inv_r.
    change 0%Q with (inject_Z 0). rewrite inject_Z_injective. exact Hm.
Qed.

Lemma weight_of_truncated m h :
  m <> 0 -> weight_of m h = Return (truncated_weight m h).
Proof.
  intros Hm. destruct (weight_of_total m h Hm) as [w Hw].
  rewrite Hw. by apply weight_of_Return in Hw as [_ ->].
Qed.

Lemma weights_range fleet_df :
  0 < max_hours_of fleet_df ->
  exists weights,
    compute_weights fleet_df = Return weights /\
    (forall aid, is_Some (weights !! aid) <-> aid ∈ aircraft_id <$> fleet_df) /\
    (forall aid w, weights !! aid = Some w -> 1 <= w) /\
    (Forall (fun a => 0 <= hours_until_due a) fleet_df ->
     forall aid w, weights !! aid = Some w -> w <= 100) /\
    (NoDup (aircraft_id <$> fleet_df) ->
     forall a, a ∈ fleet_df ->
       (hours_until_due a = max_hours_of fleet_df ->
        weights !! aircraft_id a = Some 1) /\
       (hours_until_due a = 0 -> weights !! aircraft_id a = Some 100)).
Proof.
  intros Hpos. assert (Hm : max_hours_of fleet_df <> 0) by lia.
  destruct (compute_weights_total fleet_df Hm) as [W HW].
  exists W. split; [exact HW|]. unfold compute_weights in HW.
  assert (Hkeys : forall aid, is_Some (W !! aid) <-> aid ∈ aircraft_id <$> fleet_df).
  { intros aid. split.
    - intros [w Hw].
      destruct (decide (aid ∈ aircraft_id <$> fleet_df)) as [|Hnot]; [done|].
      rewrite (weights_other _ _ _ _ _ HW Hnot), lookup_empty in Hw. done.
    - intros Hin.
      destruct (weights_member _ _ _ _ _ HW Hin) as (a & w & _ & _ & _ & Hw).
      by exists w. }
  split; [exact Hkeys|].
  assert (Hfrom : forall aid w, W !! aid = Some w ->
            exists a, a ∈ fleet_df /\ weight_of (max_hours_of fleet_df)
                                        (hours_until_due a) = Return w).
  { intros aid w Hw.
    assert (Hin : aid ∈ aircraft_id <$> fleet_df) by (apply Hkeys; by exists w).
    destruct (weights_member _ _ _ _ _ HW Hin) as (a & w' & Ha & _ & Hwa & Hw').
    exists a. split; [exact Ha|]. congruence. }
  split; [|split].
  - intros aid w (a & _ & [_ ->]%weight_of_Return)%Hfrom. lia.
  - intros Hnonneg aid w (a & Ha & Hwa)%Hfrom.
    apply (weight_of_range (max_hours_of fleet_df) (hours_until_due a)); [|done].
    split; [|by apply max_hours_of_ge].
    rewrite Forall_forall in Hnonneg. by apply Hnonneg.
  - intros Hnodup a Ha.
    destruct (weights_own _ _ _ _ _ HW Hnodup Ha) as (w & Hwa & Hw).
    rewrite (weight_of_truncated _ _ Hm) in Hwa. injection Hwa as <-.
    split; intros E; rewrite Hw, E; f_equal.
    + by apply truncated_weight_least.
    + by apply truncated_weight_due.
Qed.

(** X15.  When the largest [hours_until_due] is positive, the weights
    dictionary has exactly the fleet's identifiers as keys and every weight is
    at least 1; when no aircraft has negative hours every weight is at most
    100.  With distinct identifiers the aircraft with the most hours left
    weighs 1 and an aircraft with no hours left weighs 100. *)
Theorem weights_normalised fleet_df :
  0 < max_hours_of fleet_df ->
  exists weights,
    compute_weights fleet_df = Return weights /\
    (forall aid, is_Some (weights !! aid) <-> aid ∈ aircraft_id <$> fleet_df) /\
    (forall aid w, weights !! aid = Some w -> 1 <= w) /\
    (Forall (fun a => 0 <= hours_until_due a) fleet_df ->
     forall aid w, weights !! aid = Some w -> w <= 100) /\
    (NoDup (aircraft_id <$> fleet_df) ->
     forall a, a ∈ fleet_df ->
       (hours_until_due a = max_hours_of fleet_df ->
        weights !! aircraft_id a = Some 1) /\
       (hours_until_due a = 0 -> weights !! aircraft_id a = Some 100)).
Proof. apply weights_range. Qed.

Lemma weights_normalised_witness :
  exists weights,
    compute_weights fleet_A = Return weights /\
    weights !! "AIR-1002" = Some 1.
Proof.
  destruct (weights_normalised fleet_A) as (W & HW & _ & _ & _ & Hends).
  - vm_compute; reflexivity.
  - exists W. split; [exact HW|].
    apply (Hends ltac:(apply (bool_decide_unpack _); vm_compute; exact I)
             (aircraft "AIR-1002" 500)).
    + apply list_elem_of_In; simpl; tauto.
    + vm_compute; reflexivity.
Defined.

(** ** Stock that covers the fleet *)

Lemma rows_bounded P Solve g c fleet_df parts_df rows :
  generate_schedule P Solve g c fleet_df parts_df = Return rows ->
  length rows = length fleet_df /\
  Forall (fun t => 0 <= part_quantity t <= 3) rows.
Proof.
  intros (st & em & _ & _ & Hem & ->)%generate_schedule_Return.
  destruct (emit_loop_rows _ _ _ _ _ Hem) as (new & Hrows & Hlen & _).
  destruct (emit_loop_bounds _ _ _ _ _ Hem) as (new' & Hrows' & Hqs & _).
  simpl in Hrows, Hrows'. rewrite Hrows. split; [exact Hlen|].
  rewrite Hrows' in Hrows. by subst new'.
Qed.

Lemma covered_row P Solve g c fleet_df parts_df rows i t :
  stock_nonneg parts_df ->
  generate_schedule P Solve g c fleet_df parts_df = Return rows ->
  rows !! i = Some t ->
  3 * Z.of_nat i < total_stock parts_df ->
  exists pid, task_part_id t = Some pid /\ 1 <= part_quantity t <= 3.
Proof.
  intros Hnn Hrun Ht Hcover.
  destruct (rows_bounded _ _ _ _ _ _ _ Hrun) as [Hlen Hqs].
  destruct (task_part_id t) as [pid|] eqn:Hpid.
  - exists pid. split; [done|].
    destruct (returned_row_recorded _ _ _ _ _ _ _ _ _ Hrun Ht)
      as (st & em & em' & _ & _ & _ & [(E & _)|(idx & p & _ & _ & Hq & _)]).
    + congruence.
    + lia.
  - exfalso.
    destruct (unresourced_exhausted _ _ _ _ _ _ _ _ _ Hnn Hrun Ht Hpid) as [Hout _].
    assert (Hpre : Forall (fun t => 0 <= part_quantity t <= 3) (take i rows))
      by (by apply Forall_take).
    apply parts_handed_out_bound in Hpre.
    assert (Hi : (i < length rows)%nat) by (by eapply lookup_lt_Some).
    rewrite length_take_le in Hpre by lia. lia.
Qed.

(** X16.  With no negative stock handed in and quantities that add up
    within [int64], the row at position [i] of a
    returned schedule names a part and asks for one to three units of it
    whenever the inventory holds more than [3 * i] units; so an inventory of
    more than three units per aircraft before the last leaves no aircraft
    without a part. *)
Theorem enough_stock_resources_rows P Solve g c fleet_df parts_df rows :
  stock_nonneg parts_df ->
  sum_fits_int64 parts_df ->
  generate_schedule P Solve g c fleet_df parts_df = Return rows ->
  (forall i t, rows !! i = Some t -> 3 * Z.of_nat i < total_stock parts_df ->
     exists pid, task_part_id t = Some pid /\ 1 <= part_quantity t <= 3) /\
  (3 * (Z.of_nat (length fleet_df) - 1) < total_stock parts_df ->
   Forall (fun t => is_Some (task_part_id t) /\ 1 <= part_quantity t <= 3) rows).
Proof.
  intros Hnn _ Hrun. split.
  - intros i t. exact (covered_row P Solve g c fleet_df parts_df rows i t Hnn Hrun).
  - intros Hall. apply Forall_lookup. intros i t Ht.
    destruct (rows_bounded _ _ _ _ _ _ _ Hrun) as [Hlen _].
    assert (Hi : (i < length rows)%nat) by (by eapply lookup_lt_Some).
    destruct (covered_row _ _ _ _ _ _ _ _ _ Hnn Hrun Ht) as (pid & -> & Hq);
      [lia|]. split; [by exists pid|exact Hq].
Qed.

Lemma enough_stock_resources_rows_witness :
  Forall (fun t => is_Some (task_part_id t) /\ 1 <= part_quantity t <= 3) rows_A.
Proof.
  apply (enough_stock_resources_rows module_params (checking_solver plan_A)
           random_A clock_A fleet_A parts_A rows_A).
  - unfold stock_nonneg, parts_A. repeat constructor; simpl; lia.
  - vm_compute. reflexivity.
  - exact rows_A_returned.
  - vm_compute. reflexivity.
Defined.

(** * The simulated tables *)

Lemma sample_spec {A : Type} (f : Z -> A) n g :
  np.sample f n g
  = ((fun i => f (entropy g (drawn g + i)%nat)) <$> seq 0 n, advance n g).
Proof.
  revert g. induction n as [|n IH]; intros g.
  - simpl. unfold advance. rewrite Nat.add_0_r. by destruct g.
  - cbn [np.sample]. unfold np.next. rewrite IH. cbn [seq fmap list_fmap].
    f_equal.
    + rewrite Nat.add_0_r. f_equal. rewrite <- fmap_S_seq, <- list_fmap_compose.
      apply list_fmap_ext. intros i x _. simpl. do 2 f_equal. lia.
    + unfold advance. simpl. f_equal. lia.
Qed.

Lemma randint_Return low high size g :
  low < high -> 0 <= size ->
  np.randint low high size g
  = Return ((fun i => low + entropy g (drawn g + i)%nat mod (high - low))
              <$> seq 0 (Z.to_nat size),
            advance (Z.to_nat size) g).
Proof.
  intros Hlh Hsize. unfold np.randint.
  destruct (high <=? low) eqn:E1; [lia|]. destruct (size <? 0) eqn:E2; [lia|].
  simpl. by rewrite sample_spec.
Qed.

Lemma randint_negative low high size g :
  size < 0 -> np.randint low high size g = Raise ValueError.
Proof.
  intros Hsize. unfold np.randint. destruct (size <? 0) eqn:E; [|lia].
  by rewrite orb_true_r.
Qed.

Lemma last_maintenance_dates_spec isoformat l c :
  data_sim.last_maintenance_dates isoformat l c
  = (imap (fun i d => isoformat (day_at c (reads c + i)%nat - d)) l,
     later (length l) c).
Proof.
  revert c. induction l as [|d l IH]; intros c.
  - simpl. unfold later. rewrite Nat.add_0_r. by destruct c.
  - cbn [data_sim.last_maintenance_dates]. unfold data_sim.utcnow.
    rewrite IH. cbn [imap]. f_equal.
    + rewrite Nat.add_0_r. f_equal. apply imap_ext. intros i x _. simpl.
      do 3 f_equal. lia.
    + unfold later. simpl. f_equal. lia.
Qed.

Lemma DataFrame_Return {A B C D : Type} (a : list A) (b : list B)
    (c : list C) (d : list D) :
  length a = length b -> length b = length c -> length c = length d ->
  data_sim.DataFrame a b c d = Return (zip (zip (zip a b) c) d).
Proof.
  intros. unfold data_sim.DataFrame. by rewrite bool_decide_eq_true_2.
Qed.

Lemma int64_small z : - 2 ^ 63 <= z < 2 ^ 63 -> np.int64 z = z.
Proof. intros Hz. unfold np.int64. rewrite Z.mod_small; lia. Qed.

Lemma lookup_AIR n i :
  ((fun i => "AIR-" +:+ pretty (1001 + i)) <$> range n) !! i
  = if bool_decide (Z.of_nat i < n)
    then Some ("AIR-" +:+ pretty (1001 + Z.of_nat i)) else None.
Proof.
  rewrite list_lookup_fmap. unfold range. case_bool_decide.
  - rewrite lookup_seqZ_lt by lia. simpl. do 3 f_equal.
  - rewrite lookup_seqZ_ge by lia. done.
Qed.

Lemma generate_fleet_Return isoformat n g c :
  0 <= n ->
  exists fleet,
    data_sim.generate_fleet isoformat n g c
    = Return (fleet, advance (3 * Z.to_nat n) g, later (Z.to_nat n) c) /\
    length fleet = Z.to_nat n /\
    forall i a, fleet !! i = Some a -> simulated_aircraft isoformat c i a.
Proof.
  intros Hn. unfold data_sim.generate_fleet.
  rewrite randint_Return by lia. cbn [mbind result_bind].
  rewrite randint_Return by lia. cbn [mbind result_bind].
  rewrite randint_Return by lia. cbn [mbind result_bind].
  rewrite last_maintenance_dates_spec.
  rewrite DataFrame_Return.
  2-4: rewrite ?length_imap, ?length_fmap, ?length_seq; unfold range;
       rewrite ?length_seqZ; reflexivity.
  cbn [mbind result_bind].
  eexists. split; [|split].
  - do 2 f_equal.
    + f_equal. unfold advance. simpl. f_equal. lia.
    + by rewrite length_fmap, length_seq.
  - rewrite length_fmap, !length_zip_with, length_imap, !length_fmap,
      !length_seq. unfold range. rewrite length_seqZ. lia.
  - intros i a. rewrite list_lookup_fmap.
    rewrite !lookup_zip_with, list_lookup_imap, lookup_AIR,
      !list_lookup_fmap.
    destruct (seq 0 (Z.to_nat n) !! i) as [k|] eqn:Hk.
    2: { simpl. case_bool_decide; simpl; intros; discriminate. }
    apply lookup_seq in Hk as [-> Hi]. simpl.
    rewrite bool_decide_eq_true_2 by lia. simpl. intros [= <-].
    set (hours := 500 + entropy g (drawn g + i)%nat mod (5000 - 500)).
    set (interval :=
           400 + entropy g (drawn g + Z.to_nat n + i)%nat mod (1200 - 400)).
    set (days :=
           1 + entropy g (drawn g + Z.to_nat n + Z.to_nat n + i)%nat
               mod (400 - 1)).
    assert (Hh : 500 <= hours < 5000).
    { unfold hours.
      pose proof (Z.mod_pos_bound (entropy g (drawn g + i)%nat) (5000 - 500)).
      lia. }
    assert (Hi' : 400 <= interval < 1200).
    { unfold interval.
      pose proof (Z.mod_pos_bound
                    (entropy g (drawn g + Z.to_nat n + i)%nat) (1200 - 400)).
      lia. }
    assert (Hd : 1 <= days < 400).
    { unfold days.
      pose proof (Z.mod_pos_bound
                    (entropy g (drawn g + Z.to_nat n + Z.to_nat n + i)%nat)
                    (400 - 1)).
      lia. }
    pose proof (Z.mod_pos_bound hours interval) as Hmod.
    unfold simulated_aircraft, data_sim.fleet_row. cbn [aircraft_id flight_hours
      maint_interval_hours hours_since_last_maintenance hours_until_due
      last_maintenance_date].
    unfold np.remainder, np.subtract.
    destruct (Z.eqb_spec interval 0) as [E|_]; [lia|].
    rewrite int64_small by lia.
    split; [done|]. split; [done|]. split; [done|]. split; [done|].
    split; [done|]. split; [lia|].
    exists days. split; [exact Hd|]. reflexivity.
Qed.

Section SimulatedCosts.
Local Open Scope Q_scope.

Lemma random_sample_range r :
  0 <= np.random_sample r /\ np.random_sample r <= 1.
Proof.
  unfold np.random_sample.
  pose proof (Z.mod_pos_bound r (2 ^ 53) eq_refl) as [Hlo Hhi].
  assert (Hpos : 0 < inject_Z (2 ^ 53)) by reflexivity.
  split.
  - apply Qle_shift_div_l; [exact Hpos|]. rewrite Qmult_0_l.
    change 0 with (inject_Z 0). rewrite <- Zle_Qle. exact Hlo.
  - apply Qle_shift_div_r; [exact Hpos|]. rewrite Qmult_1_l.
    rewrite <- Zle_Qle. lia.
Qed.

Lemma round_between (lo hi x : Q) :
  float.round lo == lo -> float.round hi == hi ->
  lo <= x -> x <= hi ->
  lo <= float.round x /\ float.round x <= hi.
Proof.
  intros Elo Ehi Hlo Hhi. split.
  - rewrite <- Elo. by apply round_mono.
  - rewrite <- Ehi. by apply round_mono.
Qed.

Lemma uniform_range r :
  let x := float.round
             (100 + float.mul (float.round (5000 - 100)) (np.random_sample r)) in
  100 <= x /\ x <= 5000.
Proof.
  destruct (random_sample_range r) as [Hu0 Hu1].
  assert (Es : float.round (5000 - 100) == 4900) by (vm_compute; reflexivity).
  assert (Hm : 0 <= float.mul (float.round (5000 - 100)) (np.random_sample r)
               /\ float.mul (float.round (5000 - 100)) (np.random_sample r) <= 4900).
  { unfold float.mul. apply round_between.
    - vm_compute; reflexivity.
    - vm_compute; reflexivity.
    - rewrite Es. lra.
    - rewrite Es. lra. }
  destruct Hm as [Hm0 Hm1]. simpl. apply round_between.
  - vm_compute; reflexivity.
  - vm_compute; reflexivity.
  - lra.
  - lra.
Qed.

Lemma round2_range x :
  100 <= x -> x <= 5000 ->
  (100 <= np.round2 x /\ np.round2 x <= 5000) /\
  exists cents,
    (10000 <= cents <= 500000)%Z /\
    np.round2 x = float.round (inject_Z cents / inject_Z 100).
Proof.
  intros Hlo Hhi.
  assert (Hm : 10000 <= float.mul x (float.of_int 100)
               /\ float.mul x (float.of_int 100) <= 500000).
  { unfold float.mul. apply round_between.
    - vm_compute; reflexivity.
    - vm_compute; reflexivity.
    - rewrite of_int_100. lra.
    - rewrite of_int_100. lra. }
  destruct Hm as [Hm0 Hm1].
  set (cents := float.rne (float.mul x (float.of_int 100))).
  assert (Hc : (10000 <= cents <= 500000)%Z).
  { split.
    - change 10000%Z with (float.rne 10000). by apply rne_mono.
    - change 500000%Z with (float.rne 500000). by apply rne_mono. }
  split; [|by exists cents].
  unfold np.round2. fold cents.
  assert (H100 : 0 < inject_Z 100) by reflexivity.
  apply round_between.
  - vm_compute; reflexivity.
  - vm_compute; reflexivity.
  - apply Qle_shift_div_l; [exact H100|].
    change (100 * inject_Z 100) with (inject_Z 10000). rewrite <- Zle_Qle. lia.
  - apply Qle_shift_div_r; [exact H100|].
    change (5000 * inject_Z 100) with (inject_Z 500000). rewrite <- Zle_Qle. lia.
Qed.

End SimulatedCosts.

Lemma lookup_PART n i :
  ((fun i => "PART-" +:+ pretty (101 + i)) <$> range n) !! i
  = if bool_decide (Z.of_nat i < n)
    then Some ("PART-" +:+ pretty (101 + Z.of_nat i)) else None.
Proof.
  rewrite list_lookup_fmap. unfold range. case_bool_decide.
  - rewrite lookup_seqZ_lt by lia. simpl. do 3 f_equal.
  - rewrite lookup_seqZ_ge by lia. done.
Qed.

Lemma lookup_description n i :
  ((fun i => "critical part " +:+ pretty i) <$> range n) !! i
  = if bool_decide (Z.of_nat i < n)
    then Some ("critical part " +:+ pretty (Z.of_nat i)) else None.
Proof.
  rewrite list_lookup_fmap. unfold range. case_bool_decide.
  - rewrite lookup_seqZ_lt by lia. simpl. do 3 f_equal.
  - rewrite lookup_seqZ_ge by lia. done.
Qed.

Lemma uniform_Return low high size g :
  0 <= size ->
  np.uniform low high size g
  = Return ((fun i => float.round
                        (low + float.mul (float.round (high - low))
                                 (np.random_sample (entropy g (drawn g + i)%nat)))%Q)
              <$> seq 0 (Z.to_nat size),
            advance (Z.to_nat size) g).
Proof.
  intros Hsize. unfold np.uniform. destruct (size <? 0) eqn:E; [lia|].
  by rewrite sample_spec.
Qed.

Lemma generate_parts_Return n g :
  0 <= n ->
  exists parts,
    data_sim.generate_parts_inventory n g
    = Return (parts, advance (3 * Z.to_nat n) g) /\
    length parts = Z.to_nat n /\
    forall i p, parts !! i = Some p -> simulated_part i p.
Proof.
  intros Hn. unfold data_sim.generate_parts_inventory.
  rewrite randint_Return by lia. cbn [mbind result_bind].
  rewrite uniform_Return by lia. cbn [mbind result_bind].
  rewrite randint_Return by lia. cbn [mbind result_bind].
  rewrite DataFrame_Return.
  2-4: rewrite ?length_zip_with, ?length_fmap, ?length_seq; unfold range;
       rewrite ?length_seqZ; lia.
  cbn [mbind result_bind].
  eexists. split; [|split].
  - do 2 f_equal. unfold advance. simpl. f_equal. lia.
  - rewrite length_fmap, !length_zip_with, !length_fmap, !length_seq.
    unfold range. rewrite length_seqZ. lia.
  - intros i p. rewrite list_lookup_fmap.
    rewrite !lookup_zip_with, lookup_PART, lookup_description,
      !list_lookup_fmap.
    destruct (seq 0 (Z.to_nat n) !! i) as [k|] eqn:Hk.
    2: { simpl. case_bool_decide; simpl; intros; discriminate. }
    apply lookup_seq in Hk as [-> Hi]. simpl.
    rewrite bool_decide_eq_true_2 by lia. simpl. intros [= <-].
    unfold simulated_part. cbn [part_id description lead_time_days
      quantity_on_hand unit_cost].
    pose proof (Z.mod_pos_bound (entropy g (drawn g + i)%nat) (30 - 1)).
    pose proof (Z.mod_pos_bound
                  (entropy g (drawn g + Z.to_nat n + Z.to_nat n + i)%nat) (50 - 5)).
    destruct (uniform_range (entropy g (drawn g + Z.to_nat n + i)%nat))
      as [Hlo Hhi].
    destruct (round2_range _ Hlo Hhi) as [Hrange Hcents].
    split; [done|]. split; [done|]. split; [lia|]. split; [lia|].
    split; [exact Hrange|exact Hcents].
Qed.

(** X17.  [generate_fleet(n)] raises [ValueError] for a negative [n];
    otherwise it returns [n] rows after three draws per row and one reading
    of the clock per row.  Row [i] is aircraft [AIR-(1001 + i)] with 500 to
    4999 flight hours and an interval of 400 to 1199 hours;
    [hours_since_last_maintenance] is the remainder of the two,
    [hours_until_due] is what is left of the interval, between 1 and the
    interval, and the last maintenance lies 1 to 399 days before the day the
    clock showed. *)
Theorem simulated_fleet isoformat n g c :
  (n < 0 -> data_sim.generate_fleet isoformat n g c = Raise ValueError) /\
  (0 <= n ->
   exists fleet,
     data_sim.generate_fleet isoformat n g c
     = Return (fleet, advance (3 * Z.to_nat n) g, later (Z.to_nat n) c) /\
     length fleet = Z.to_nat n /\
     forall i a, fleet !! i = Some a -> simulated_aircraft isoformat c i a).
Proof.
  split.
  - intros Hn. unfold data_sim.generate_fleet.
    by rewrite randint_negative.
  - apply generate_fleet_Return.
Qed.

Lemma simulated_fleet_witness :
  exists fleet,
    data_sim.generate_fleet isoformat_A 3 random_A clock_A
    = Return (fleet, advance 9 random_A, later 3 clock_A) /\
    length fleet = 3%nat.
Proof.
  destruct (proj2 (simulated_fleet isoformat_A 3 random_A clock_A))
    as (fleet & Hrun & Hlen & _).
  - lia.
  - exact (ex_intro _ fleet (conj Hrun Hlen)).
Defined.

(** X18.  [generate_parts_inventory(n)] raises [ValueError] for a negative
    [n]; otherwise it returns [n] rows after three draws per row.  Row [i] is
    part [PART-(101 + i)], described as [critical part i], with a lead time
    of 1 to 29 days and 5 to 49 units on hand; its unit cost lies between 100
    and 5000 and is the binary64 number nearest to a whole number of
    hundredths. *)
Theorem simulated_parts n g :
  (n < 0 -> data_sim.generate_parts_inventory n g = Raise ValueError) /\
  (0 <= n ->
   exists parts,
     data_sim.generate_parts_inventory n g
     = Return (parts, advance (3 * Z.to_nat n) g) /\
     length parts = Z.to_nat n /\
     forall i p, parts !! i = Some p -> simulated_part i p).
Proof.
  split.
  - intros Hn. unfold data_sim.generate_parts_inventory.
    by rewrite randint_negative.
  - apply generate_parts_Return.
Qed.

Lemma simulated_parts_witness :
  exists parts,
    data_sim.generate_parts_inventory 2 random_A
    = Return (parts, advance 6 random_A) /\
    length parts = 2%nat.
Proof.
  destruct (proj2 (simulated_parts 2 random_A)) as (parts & Hrun & Hlen & _).
  - lia.
  - exact (ex_intro _ parts (conj Hrun Hlen)).
Defined.

Lemma fleet_of_generate isoformat n g c fleet g' c' :
  data_sim.generate_fleet isoformat n g c = Return (fleet, g', c') ->
  0 <= n /\ length fleet = Z.to_nat n /\
  forall i a, fleet !! i = Some a -> simulated_aircraft isoformat c i a.
Proof.
  intros Hrun. destruct (Z.lt_ge_cases n 0) as [Hn|Hn].
  - unfold data_sim.generate_fleet in Hrun.
    rewrite randint_negative in Hrun by done. discriminate.
  - destruct (generate_fleet_Return isoformat n g c Hn) as (fleet' & E & Hlen & Hrows).
    rewrite E in Hrun. injection Hrun as <- _ _. done.
Qed.

Lemma parts_of_generate n g parts g' :
  data_sim.generate_parts_inventory n g = Return (parts, g') ->
  0 <= n /\ length parts = Z.to_nat n /\
  forall i p, parts !! i = Some p -> simulated_part i p.
Proof.
  intros Hrun. destruct (Z.lt_ge_cases n 0) as [Hn|Hn].
  - unfold data_sim.generate_parts_inventory in Hrun.
    rewrite randint_negative in Hrun by done. discriminate.
  - destruct (generate_parts_Return n g Hn) as (parts' & E & Hlen & Hrows).
    rewrite E in Hrun. injection Hrun as <- _. done.
Qed.

Lemma numbered_inj (prefix : string) (k : Z) i j :
  prefix +:+ pretty (k + Z.of_nat i) = prefix +:+ pretty (k + Z.of_nat j) ->
  i = j.
Proof.
  induction prefix as [|ch prefix IH]; simpl.
  - intros E. apply pretty_Z_inj in E. lia.
  - intros [= E]. by apply IH.
Qed.

(** X19.  No two rows of a simulated fleet share an aircraft identifier, and
    no two rows of a simulated inventory share a part identifier: the keys
    the optimizer's dictionaries and the tables' primary keys rely on. *)
Theorem simulated_ids_distinct isoformat n m g c g1 g2 g3 c' fleet parts :
  data_sim.generate_fleet isoformat n g c = Return (fleet, g1, c') ->
  data_sim.generate_parts_inventory m g2 = Return (parts, g3) ->
  NoDup (aircraft_id <$> fleet) /\ NoDup (part_id <$> parts).
Proof.
  intros (_ & _ & Hfleet)%fleet_of_generate (_ & _ & Hparts)%parts_of_generate.
  split; apply NoDup_alt; intros i j x; rewrite !list_lookup_fmap;
    intros Hi Hj.
  - destruct (fleet !! i) as [a|] eqn:Ha; [|done].
    destruct (fleet !! j) as [b|] eqn:Hb; [|done].
    destruct (Hfleet _ _ Ha) as (Ea & _). destruct (Hfleet _ _ Hb) as (Eb & _).
    simpl in Hi, Hj. apply (numbered_inj "AIR-" 1001). congruence.
  - destruct (parts !! i) as [a|] eqn:Ha; [|done].
    destruct (parts !! j) as [b|] eqn:Hb; [|done].
    destruct (Hparts _ _ Ha) as (Ea & _). destruct (Hparts _ _ Hb) as (Eb & _).
    simpl in Hi, Hj. apply (numbered_inj "PART-" 101). congruence.
Qed.

Lemma simulated_ids_distinct_witness :
  NoDup (aircraft_id <$> fleet_S) /\ NoDup (part_id <$> parts_S).
Proof.
  apply (simulated_ids_distinct isoformat_A 3 2 random_A clock_A
           (advance 9 random_A) (advance 9 random_A)
           (advance 6 (advance 9 random_A)) (later 3 clock_A)).
  - vm_compute. reflexivity.
  - vm_compute. reflexivity.
Defined.

(** ** From the simulated tables to a schedule *)






(** * Every admissible plan satisfies the model *)

Lemma feasible_grow V m vs cs o :
  feasible V {| variables := variables m ++ vs;
                constraints := constraints m ++ cs;
                objective := o |}
  = feasible V m
    && forallb (in_domain V)
         (imap (fun i => pair (length (variables m) + i)%nat) vs)
    && forallb (holds V) cs.
Proof.
  unfold feasible. cbn [variables constraints].
  rewrite imap_app, !forallb_app.
  repeat match goal with
         | |- context [forallb ?f ?l] => destruct (forallb f l)
         end; reflexivity.
Qed.

Lemma indicator_cases b : indicator b = 0 \/ indicator b = 1.
Proof. destruct b; auto. Qed.

Lemma in_domain_bool V v b :
  V v = indicator b -> in_domain V (v, (0, 1)) = true.
Proof.
  intros E. unfold in_domain. simpl. rewrite E.
  by destruct b.
Qed.

Lemma plan_assignment_follows P plan :
  admissible P plan ->
  follows_plan P (plan_assignment (PLANNING_HORIZON_DAYS P) plan) plan.
Proof.
  intros [Hbounds _] k w Hw. unfold block_values, block_size.
  assert (HH : 1 <= PLANNING_HORIZON_DAYS P).
  { pose proof (Forall_lookup_1 _ _ _ _ Hbounds Hw) as [? _]. lia. }
  clear Hbounds. revert HH.
  set (H := PLANNING_HORIZON_DAYS P). set (h := Z.to_nat H). intros HH.
  assert (Hat : forall r : nat, (r < 2 + 3 * h)%nat ->
            Z.of_nat (k * (2 + 3 * h) + r) / (2 + 3 * H) = Z.of_nat k /\
            Z.of_nat (k * (2 + 3 * h) + r) mod (2 + 3 * H) = Z.of_nat r).
  { intros r Hr.
    assert (E : Z.of_nat (k * (2 + 3 * h) + r)
                = Z.of_nat r + Z.of_nat k * (2 + 3 * H)) by (unfold h; lia).
    rewrite E. split.
    - rewrite Z.div_add by lia. rewrite Z.div_small by (unfold h in Hr; lia). lia.
    - rewrite Z.mod_add by lia. apply Z.mod_small. unfold h in Hr. lia. }
  assert (Hval : forall r : nat, (r < 2 + 3 * h)%nat ->
            plan_assignment H plan (k * (2 + 3 * h) + r)%nat
            = let r := Z.of_nat r in
              if r =? 0 then w.1
              else if r =? 1 then w.2
              else if r <? 2 + H
                   then (if (w.1 <=? r - 2) && (r - 2 <? w.1 + w.2) then 1 else 0)
              else let j := r - 2 - H in
                   if Z.even j then (if w.1 <=? j / 2 then 1 else 0)
                   else (if w.1 + w.2 >? j / 2 then 1 else 0)).
  { intros r Hr. destruct (Hat r Hr) as [Hdiv Hmod].
    unfold plan_assignment. rewrite Hdiv, Hmod, Nat2Z.id.
    rewrite (list_lookup_total_correct _ _ _ Hw). by destruct w. }
  split; [|split].
  - rewrite <- (Nat.add_0_r (k * _)). rewrite Hval by lia. reflexivity.
  - replace (S (k * (2 + 3 * h))) with (k * (2 + 3 * h) + 1)%nat by lia.
    rewrite Hval by lia. reflexivity.
  - intros d Hd. fold h in Hd. split; [|split].
    + replace (k * (2 + 3 * h) + 2 + d)%nat with (k * (2 + 3 * h) + (2 + d))%nat
        by lia.
      rewrite Hval by lia. cbn zeta.
      destruct (Z.eqb_spec (Z.of_nat (2 + d)) 0); [lia|].
      destruct (Z.eqb_spec (Z.of_nat (2 + d)) 1); [lia|].
      destruct (Z.ltb_spec (Z.of_nat (2 + d)) (2 + H)); [|unfold h in Hd; lia].
      replace (Z.of_nat (2 + d) - 2) with (Z.of_nat d) by lia. reflexivity.
    + replace (k * (2 + 3 * h) + 2 + h + 2 * d)%nat
        with (k * (2 + 3 * h) + (2 + h + 2 * d))%nat by lia.
      rewrite Hval by lia. cbn zeta.
      destruct (Z.eqb_spec (Z.of_nat (2 + h + 2 * d)) 0); [lia|].
      destruct (Z.eqb_spec (Z.of_nat (2 + h + 2 * d)) 1); [lia|].
      destruct (Z.ltb_spec (Z.of_nat (2 + h + 2 * d)) (2 + H));
        [unfold h in *; lia|].
      replace (Z.of_nat (2 + h + 2 * d) - 2 - H) with (2 * Z.of_nat d)
        by (unfold h in *; lia).
      rewrite Z.even_mul. simpl.
      replace (2 * Z.of_nat d / 2) with (Z.of_nat d)
        by (rewrite Z.mul_comm, Z.div_mul; lia).
      reflexivity.
    + replace (k * (2 + 3 * h) + 2 + h + 2 * d + 1)%nat
        with (k * (2 + 3 * h) + (2 + h + 2 * d + 1))%nat by lia.
      rewrite Hval by lia. cbn zeta.
      destruct (Z.eqb_spec (Z.of_nat (2 + h + 2 * d + 1)) 0); [lia|].
      destruct (Z.eqb_spec (Z.of_nat (2 + h + 2 * d + 1)) 1); [lia|].
      destruct (Z.ltb_spec (Z.of_nat (2 + h + 2 * d + 1)) (2 + H));
        [unfold h in *; lia|].
      replace (Z.of_nat (2 + h + 2 * d + 1) - 2 - H) with (1 + 2 * Z.of_nat d)
        by (unfold h in *; lia).
      rewrite Z.even_add_mul_2. simpl Z.even. cbv iota.
      rewrite (Z.mul_comm 2), Z.div_add by lia.
      change (1 / 2) with 0. rewrite Z.add_0_l. reflexivity.
Qed.

Lemma seqZ_snoc (i : nat) :
  seqZ 0 (Z.of_nat (S i)) = seqZ 0 (Z.of_nat i) ++ [Z.of_nat i].
Proof.
  rewrite Nat2Z.inj_succ, <- Z.add_1_r, seqZ_app by lia.
  by rewrite Z.add_0_l.
Qed.

Lemma feasible_parts V m :
  feasible V m = true <->
  forallb (in_domain V) (imap pair (variables m)) = true /\
  forallb (holds V) (constraints m) = true.
Proof. unfold feasible. apply andb_true_iff. Qed.

Lemma declare_days_laid V aid (i : nat) st :
  feasible V (model st) = true ->
  (forall d, (d < i)%nat ->
     exists b, V (length (variables (model st)) + d)%nat = indicator b) ->
  exists st',
    for_each (declare_day aid) (seqZ 0 (Z.of_nat i)) st = Return st' /\
    length (variables (model st')) = (length (variables (model st)) + i)%nat /\
    feasible V (model st') = true /\
    start_day st' = start_day st /\ duration st' = duration st /\
    (forall d, (d < i)%nat ->
       is_scheduled_on_day st' !! (aid, Z.of_nat d)
       = Some (length (variables (model st)) + d)%nat) /\
    (forall aid' d, aid' <> aid ->
       is_scheduled_on_day st' !! (aid', d) = is_scheduled_on_day st !! (aid', d)).
Proof.
  intros Hfeas. induction i as [|i IH]; intros HV.
  - exists st. simpl. split; [done|]. split; [lia|]. split; [done|].
    split; [done|]. split; [done|]. split; [intros d; lia|done].
  - destruct IH as (st1 & Hrun & Hlen & Hfeas1 & Hs & Hdu & Hon & Hoth).
    { intros d Hd. apply HV. lia. }
    rewrite seqZ_snoc, for_each_app, Hrun. cbn [mbind result_bind for_each].
    unfold declare_day. cbn [NewBoolVar NewIntVar]. cbn [mbind result_bind].
    eexists. split; [reflexivity|]. cbn [model start_day duration is_scheduled_on_day].
    split; [cbn [variables]; rewrite length_app, Hlen; simpl; lia|].
    split; [|split; [done|split; [done|split]]].
    + apply feasible_parts in Hfeas1 as [Hv Hc].
      apply feasible_parts. cbn [variables constraints]. split; [|exact Hc].
      rewrite imap_app, forallb_app, Hv. simpl. rewrite andb_true_r.
      destruct (HV i) as [b Hb]; [lia|].
      rewrite Nat.add_0_r, Hlen. by apply (in_domain_bool _ _ b).
    + intros d Hd. destruct (decide (d = i)) as [->|Hne].
      * rewrite Hlen. apply lookup_insert_eq.
      * rewrite lookup_insert_ne by (intros [= E]; lia). apply Hon. lia.
    + intros aid' d Hne. rewrite lookup_insert_ne by congruence. by apply Hoth.
Qed.

Lemma link_day_laid V aid st (d : nat) sv dv on s du :
  start_day st !! aid = Some sv -> duration st !! aid = Some dv ->
  is_scheduled_on_day st !! (aid, Z.of_nat d) = Some on ->
  feasible V (model st) = true ->
  V sv = s -> V dv = du ->
  V on = indicator (in_window s du (Z.of_nat d)) ->
  V (length (variables (model st))) = indicator (s <=? Z.of_nat d) ->
  V (S (length (variables (model st)))) = indicator (s + du >? Z.of_nat d) ->
  exists st',
    link_day aid st (Z.of_nat d) = Return st' /\
    length (variables (model st')) = (length (variables (model st)) + 2)%nat /\
    feasible V (model st') = true /\
    start_day st' = start_day st /\ duration st' = duration st /\
    is_scheduled_on_day st' = is_scheduled_on_day st.
Proof.
  intros Hs Hdu Hon Hfeas Vs Vdu Von Vb Va.
  unfold link_day. cbn [NewBoolVar NewIntVar].
  rewrite !(getitem_Some _ _ _ Hs), !(getitem_Some _ _ _ Hdu),
          !(getitem_Some _ _ _ Hon).
  cbn [mbind result_bind].
  eexists. split; [reflexivity|].
  cbn [with_model model start_day duration is_scheduled_on_day].
  split; [unfold post; cbn [variables]; rewrite !length_app; simpl; lia|].
  split; [|done].
  apply feasible_parts in Hfeas as [Hv Hc].
  apply feasible_parts. unfold post. cbn [variables constraints]. split.
  - rewrite <- app_assoc, imap_app, forallb_app, Hv. simpl.
    rewrite Nat.add_0_r, Nat.add_1_r.
    rewrite (in_domain_bool _ _ _ Vb), (in_domain_bool _ _ _ Va). done.
  - rewrite <- !app_assoc, forallb_app, Hc. simpl.
    unfold holds, OnlyEnforceIf, Add, AddBoolAnd, AddBoolOr.
    cbn [body enforcement app forallb existsb lit_true body_holds eval foldr fst snd].
    rewrite length_app. simpl length. rewrite Nat.add_1_r.
    rewrite Vs, Vdu, Von, Vb, Va. unfold in_window.
    destruct (Z.leb_spec s (Z.of_nat d)); destruct (Z.gtb_spec (s + du) (Z.of_nat d));
      destruct (Z.ltb_spec (Z.of_nat d) (s + du)); try lia; simpl;
      repeat match goal with
             | |- context [(?a <=? ?b)] => destruct (Z.leb_spec a b); try lia
             | |- context [(?a >? ?b)] => destruct (Z.gtb_spec a b); try lia
             end; reflexivity.
Qed.

Lemma link_days_laid V aid (i : nat) st sv dv s du ons :
  start_day st !! aid = Some sv -> duration st !! aid = Some dv ->
  (forall d, (d < i)%nat ->
     is_scheduled_on_day st !! (aid, Z.of_nat d) = Some (ons + d)%nat) ->
  feasible V (model st) = true ->
  V sv = s -> V dv = du ->
  (forall d, (d < i)%nat ->
     V (ons + d)%nat = indicator (in_window s du (Z.of_nat d)) /\
     V (length (variables (model st)) + 2 * d)%nat
       = indicator (s <=? Z.of_nat d) /\
     V (length (variables (model st)) + 2 * d + 1)%nat
       = indicator (s + du >? Z.of_nat d)) ->
  exists st',
    for_each (link_day aid) (seqZ 0 (Z.of_nat i)) st = Return st' /\
    length (variables (model st')) = (length (variables (model st)) + 2 * i)%nat /\
    feasible V (model st') = true /\
    start_day st' = start_day st /\ duration st' = duration st /\
    is_scheduled_on_day st' = is_scheduled_on_day st.
Proof.
  intros Hs Hdu Hon Hfeas Vs Vdu. induction i as [|i IH]; intros HV.
  - exists st. simpl. split; [done|]. split; [lia|]. done.
  - destruct IH as (st1 & Hrun & Hlen & Hfeas1 & Hs1 & Hdu1 & Hon1).
    { intros d Hd. apply Hon. lia. }
    { intros d Hd. apply HV. lia. }
    rewrite seqZ_snoc, for_each_app, Hrun. cbn [mbind result_bind for_each].
    destruct (HV i) as (Von & Vb & Va); [lia|].
    destruct (link_day_laid V aid st1 i sv dv (ons + i)%nat s du)
      as (st2 & Hrun2 & Hlen2 & Hfeas2 & Hs2 & Hdu2 & Hon2).
    + by rewrite Hs1.
    + by rewrite Hdu1.
    + rewrite Hon1. apply Hon. lia.
    + exact Hfeas1.
    + exact Vs.
    + exact Vdu.
    + exact Von.
    + by rewrite Hlen.
    + rewrite Hlen. rewrite <- Va. f_equal. lia.
    + exists st2. rewrite Hrun2. split; [done|]. split; [lia|].
      split; [done|]. split; [congruence|]. split; congruence.
Qed.

Lemma range_seqZ (n : Z) : range n = seqZ 0 (Z.of_nat (Z.to_nat n)).
Proof. unfold range, seqZ. by rewrite Nat2Z.id. Qed.

Lemma add_aircraft_laid P V st aid w :
  feasible V (model st) = true ->
  block_values V (Z.to_nat (PLANNING_HORIZON_DAYS P))
    (length (variables (model st))) w ->
  0 <= w.1 <= PLANNING_HORIZON_DAYS P - 1 ->
  MAINT_DURATION_MIN P <= w.2 <= MAINT_DURATION_MAX P ->
  exists st',
    add_aircraft P st aid = Return st' /\
    length (variables (model st'))
      = (length (variables (model st)) + block_size P)%nat /\
    feasible V (model st') = true /\
    start_day st' = <[aid := length (variables (model st))]> (start_day st) /\
    duration st' = <[aid := S (length (variables (model st)))]> (duration st) /\
    (forall d, (d < Z.to_nat (PLANNING_HORIZON_DAYS P))%nat ->
       is_scheduled_on_day st' !! (aid, Z.of_nat d)
       = Some (length (variables (model st)) + 2 + d)%nat) /\
    (forall aid' d, aid' <> aid ->
       is_scheduled_on_day st' !! (aid', d) = is_scheduled_on_day st !! (aid', d)).
Proof.
  intros Hfeas (Vs & Vdu & Vdays) Hs Hdu.
  set (base := length (variables (model st))) in *.
  set (h := Z.to_nat (PLANNING_HORIZON_DAYS P)) in *.
  unfold add_aircraft. rewrite (range_seqZ (PLANNING_HORIZON_DAYS P)). fold h.
  set (st0 := declare_aircraft P aid st).
  assert (Hlen0 : length (variables (model st0)) = (base + 2)%nat).
  { unfold st0, declare_aircraft. cbn [NewIntVar model variables].
    rewrite !length_app. simpl. unfold base. lia. }
  assert (Hfeas0 : feasible V (model st0) = true).
  { apply feasible_parts in Hfeas as [Hv Hc]. apply feasible_parts.
    unfold st0, declare_aircraft. cbn [NewIntVar model variables constraints].
    split; [|exact Hc].
    rewrite <- app_assoc, imap_app, forallb_app, Hv. simpl.
    rewrite Nat.add_0_r, Nat.add_1_r. fold base.
    unfold in_domain. simpl. rewrite Vs, Vdu.
    repeat (apply andb_true_iff; split); try apply Z.leb_le; try lia. }
  assert (Hs0 : start_day st0 = <[aid := base]> (start_day st)) by done.
  assert (Hdu0 : duration st0 = <[aid := S base]> (duration st)).
  { unfold st0, declare_aircraft. cbn [NewIntVar duration variables].
    rewrite length_app. simpl. by rewrite Nat.add_1_r. }
  assert (Hon0 : is_scheduled_on_day st0 = is_scheduled_on_day st) by done.
  destruct (declare_days_laid V aid h st0 Hfeas0)
    as (st1 & Hrun1 & Hlen1 & Hfeas1 & Hs1 & Hdu1 & Hon1 & Hoth1).
  { intros d Hd. rewrite Hlen0. eexists. apply (Vdays d Hd). }
  rewrite Hrun1. cbn [mbind result_bind].
  destruct (link_days_laid V aid h st1 base (S base) w.1 w.2 (base + 2)%nat)
    as (st2 & Hrun2 & Hlen2 & Hfeas2 & Hs2 & Hdu2 & Hon2).
  - rewrite Hs1, Hs0. apply lookup_insert_eq.
  - rewrite Hdu1, Hdu0. apply lookup_insert_eq.
  - intros d Hd. rewrite (Hon1 d Hd), Hlen0. done.
  - exact Hfeas1.
  - exact Vs.
  - exact Vdu.
  - intros d Hd. rewrite Hlen1, Hlen0. destruct (Vdays d Hd) as (E1 & E2 & E3).
    split; [exact E1|]. split.
    + rewrite <- E2. f_equal.
    + rewrite <- E3. f_equal.
  - exists st2. split; [exact Hrun2|].
    split; [rewrite Hlen2, Hlen1, Hlen0; unfold block_size; fold h; lia|].
    split; [exact Hfeas2|].
    split; [by rewrite Hs2, Hs1|]. split; [by rewrite Hdu2, Hdu1|].
    split.
    + intros d Hd. rewrite Hon2, (Hon1 d Hd), Hlen0. done.
    + intros aid' d Hne. rewrite Hon2, (Hoth1 aid' d Hne), Hon0. done.
Qed.

Lemma add_aircraft_loop_laid P V plan l k0 st :
  NoDup l ->
  follows_plan P V plan ->
  (forall j, (j < length l)%nat ->
     exists w, plan !! (k0 + j)%nat = Some w /\
       0 <= w.1 <= PLANNING_HORIZON_DAYS P - 1 /\
       MAINT_DURATION_MIN P <= w.2 <= MAINT_DURATION_MAX P) ->
  length (variables (model st)) = (k0 * block_size P)%nat ->
  feasible V (model st) = true ->
  exists st',
    for_each (add_aircraft P) l st = Return st' /\
    length (variables (model st')) = ((k0 + length l) * block_size P)%nat /\
    feasible V (model st') = true /\
    (forall j aid, l !! j = Some aid -> points_to P st' aid (k0 + j)) /\
    (forall aid, aid ∉ l ->
       start_day st' !! aid = start_day st !! aid /\
       duration st' !! aid = duration st !! aid /\
       forall d, is_scheduled_on_day st' !! (aid, d)
                 = is_scheduled_on_day st !! (aid, d)).
Proof.
  intros Hnodup Hplan. revert k0 st.
  induction l as [|aid l IH]; intros k0 st Hw Hlen Hfeas.
  - exists st. simpl. split; [done|]. split; [rewrite Hlen; f_equal; lia|].
    split; [done|]. split; [intros j aid Hj; by rewrite lookup_nil in Hj|].
    intros aid _. split; [done|]. split; done.
  - apply NoDup_cons in Hnodup as [Hnotin Hnodup].
    destruct (Hw 0%nat) as (w & Hw0 & Hs & Hdu); [simpl; lia|].
    rewrite Nat.add_0_r in Hw0.
    destruct (add_aircraft_laid P V st aid w Hfeas)
      as (st1 & Hrun1 & Hlen1 & Hfeas1 & Hs1 & Hdu1 & Hon1 & Hoth1);
      [rewrite Hlen; by apply Hplan | exact Hs | exact Hdu |].
    destruct (IH Hnodup (S k0) st1)
      as (st2 & Hrun2 & Hlen2 & Hfeas2 & Hpts & Hkeep).
    { intros j Hj. destruct (Hw (S j)) as (w' & Hw' & Hb); [simpl; lia|].
      exists w'. split; [|exact Hb]. rewrite <- Hw'. f_equal. lia. }
    { rewrite Hlen1, Hlen. lia. }
    { exact Hfeas1. }
    exists st2. cbn [for_each]. rewrite Hrun1. cbn [mbind result_bind].
    split; [exact Hrun2|].
    split; [rewrite Hlen2; simpl length; f_equal; lia|].
    split; [exact Hfeas2|]. split.
    + intros [|j] aid' Hj; simpl in Hj.
      * injection Hj as <-. rewrite Nat.add_0_r.
        destruct (Hkeep aid Hnotin) as (Ks & Kdu & Kon).
        unfold points_to. rewrite Ks, Kdu, Hs1, Hdu1, Hlen.
        split; [apply lookup_insert_eq|]. split; [apply lookup_insert_eq|].
        intros d Hd. rewrite Kon, (Hon1 d Hd), Hlen. done.
      * replace (k0 + S j)%nat with (S k0 + j)%nat by lia. by apply Hpts.
    + intros aid' Hnot. apply not_elem_of_cons in Hnot as [Hne Hnot].
      destruct (Hkeep aid' Hnot) as (Ks & Kdu & Kon).
      rewrite Ks, Kdu, Hs1, Hdu1.
      split; [by rewrite lookup_insert_ne|]. split; [by rewrite lookup_insert_ne|].
      intros d. rewrite Kon. by apply Hoth1.
Qed.

Lemma add_capacity_laid P V plan ids st d :
  0 <= d < PLANNING_HORIZON_DAYS P ->
  feasible V (model st) = true ->
  length plan = length ids ->
  (forall j aid, ids !! j = Some aid -> points_to P st aid j) ->
  follows_plan P V plan ->
  count_if (fun w => in_window w.1 w.2 d) plan <= CREW_AVAILABLE P ->
  exists st',
    add_capacity P ids st d = Return st' /\
    feasible V (model st') = true /\
    start_day st' = start_day st /\ duration st' = duration st /\
    is_scheduled_on_day st' = is_scheduled_on_day st.
Proof.
  intros Hd Hfeas Hlen Hpts Hplan Hcap.
  set (ons := (fun j => j * block_size P + 2 + Z.to_nat d)%nat
                <$> seq 0 (length ids)).
  assert (Hread : mapM (fun aid => getitem (is_scheduled_on_day st) (aid, d)) ids
                  = Return ons).
  { apply mapM_Return. apply Forall2_same_length_lookup.
    split; [unfold ons; by rewrite length_fmap, length_seq|].
    intros j aid on Hj Hon. unfold ons in Hon.
    rewrite list_lookup_fmap in Hon.
    assert (Hjl : (j < length ids)%nat) by (by eapply lookup_lt_Some).
    rewrite lookup_seq_lt in Hon by done. simpl in Hon. injection Hon as <-.
    apply getitem_Some. destruct (Hpts j aid Hj) as (_ & _ & Hday).
    rewrite <- (Hday (Z.to_nat d)) by lia. do 2 f_equal. lia. }
  unfold add_capacity. rewrite Hread. cbn [mbind result_bind].
  eexists. split; [reflexivity|].
  cbn [with_model model start_day duration is_scheduled_on_day].
  split; [|done].
  apply feasible_parts in Hfeas as [Hv Hc]. apply feasible_parts.
  unfold post. cbn [variables constraints]. split; [exact Hv|].
  rewrite forallb_app, Hc. simpl. rewrite andb_true_r.
  unfold holds, Add. cbn [enforcement forallb implb body body_holds].
  apply Z.leb_le.
  rewrite (eval_indicators V (fun w => in_window w.1 w.2 d) plan ons); [exact Hcap|].
  apply Forall2_same_length_lookup.
  split; [unfold ons; by rewrite length_fmap, length_seq|].
  intros j w on Hw Hon. unfold ons in Hon. rewrite list_lookup_fmap in Hon.
  assert (Hjl : (j < length ids)%nat).
  { rewrite <- Hlen. by eapply lookup_lt_Some. }
  rewrite lookup_seq_lt in Hon by done. simpl in Hon. injection Hon as <-.
  destruct (Hplan j w Hw) as (_ & _ & Hdays).
  destruct (Hdays (Z.to_nat d)) as (E & _); [lia|].
  rewrite E, Z2Nat.id by lia. reflexivity.
Qed.

Lemma add_capacity_loop_laid P V plan ids days st :
  (forall d, d ∈ days -> 0 <= d < PLANNING_HORIZON_DAYS P) ->
  feasible V (model st) = true ->
  length plan = length ids ->
  (forall j aid, ids !! j = Some aid -> points_to P st aid j) ->
  follows_plan P V plan ->
  (forall d, 0 <= d < PLANNING_HORIZON_DAYS P ->
     count_if (fun w => in_window w.1 w.2 d) plan <= CREW_AVAILABLE P) ->
  exists st',
    for_each (add_capacity P ids) days st = Return st' /\
    feasible V (model st') = true /\
    (forall j aid, ids !! j = Some aid -> points_to P st' aid j).
Proof.
  intros Hdays Hfeas Hlen Hpts Hplan Hcap. revert st Hfeas Hpts.
  induction days as [|d days IH]; intros st Hfeas Hpts.
  - by exists st.
  - destruct (add_capacity_laid P V plan ids st d)
      as (st1 & Hrun1 & Hfeas1 & Hs1 & Hdu1 & Hon1); try done.
    { apply Hdays. left. }
    { apply Hcap, Hdays. left. }
    destruct (IH (fun d' Hd' => Hdays d' (list_elem_of_further _ _ _ Hd')) st1 Hfeas1)
      as (st2 & Hrun2 & Hfeas2 & Hpts2).
    { intros j aid Hj. destruct (Hpts j aid Hj) as (A & B & C).
      unfold points_to. by rewrite Hs1, Hdu1, Hon1. }
    exists st2. cbn [for_each]. rewrite Hrun1. done.
Qed.

Lemma admissible_lookup P plan k w :
  admissible P plan -> plan !! k = Some w ->
  0 <= w.1 <= PLANNING_HORIZON_DAYS P - 1 /\
  MAINT_DURATION_MIN P <= w.2 <= MAINT_DURATION_MAX P.
Proof. intros [Hb _] Hw. exact (Forall_lookup_1 _ _ _ _ Hb Hw). Qed.

Lemma plan_feasible P fleet_df plan st V :
  build_model P fleet_df = Return st ->
  NoDup (aircraft_id <$> fleet_df) ->
  length plan = length fleet_df ->
  admissible P plan ->
  follows_plan P V plan ->
  feasible V (model st) = true /\
  forall i a w, fleet_df !! i = Some a -> plan !! i = Some w ->
    points_to P st (aircraft_id a) i /\
    V (start_day st !!! aircraft_id a) = w.1 /\
    V (duration st !!! aircraft_id a) = w.2.
Proof.
  intros (st0 & W & terms & H0 & _ & _ & ->)%build_model_Return
         Hnodup Hlen Hadm Hplan.
  unfold build_constraints in H0.
  apply bind_Return in H0 as (st1 & H1 & H2).
  destruct (add_aircraft_loop_laid P V plan (aircraft_id <$> fleet_df) 0 builder0)
    as (st1' & Hrun1 & _ & Hfeas1 & Hpts1 & _); try done.
  { intros j Hj. rewrite length_fmap, <- Hlen in Hj.
    destruct (lookup_lt_is_Some_2 plan j Hj) as [w Hw]. exists w.
    split; [exact Hw|]. by eapply admissible_lookup. }
  rewrite H1 in Hrun1. injection Hrun1 as <-.
  destruct (add_capacity_loop_laid P V plan (aircraft_id <$> fleet_df)
              (range (PLANNING_HORIZON_DAYS P)) st1)
    as (st0' & Hrun2 & Hfeas0 & Hpts0); try done.
  { intros d. apply elem_of_range. }
  { by rewrite length_fmap. }
  { apply Hadm. }
  rewrite H2 in Hrun2. injection Hrun2 as <-.
  split; [exact Hfeas0|].
  intros i a w Ha Hw.
  assert (Hid : (aircraft_id <$> fleet_df) !! i = Some (aircraft_id a)).
  { by rewrite list_lookup_fmap, Ha. }
  pose proof (Hpts0 _ _ Hid) as Hp. split; [exact Hp|].
  destruct Hp as (Hs & Hdu & _). cbn [with_model start_day duration].
  rewrite (lookup_total_correct _ _ _ Hs), (lookup_total_correct _ _ _ Hdu).
  destruct (Hplan i w Hw) as (Vs & Vdu & _). simpl. done.
Qed.

(** X21.  Every admissible plan satisfies the model.  For a fleet with
    distinct identifiers and one window per row, each starting inside the
    horizon, lasting an allowed number of days and leaving no day with more
    windows than crews, some assignment satisfies every domain and every
    constraint of the model and gives each aircraft's start and duration
    variables the plan's window: the model forbids nothing but what the
    bounds and the capacity forbid. *)
Theorem admissible_plan_satisfies_model P fleet_df plan st :
  build_model P fleet_df = Return st ->
  NoDup (aircraft_id <$> fleet_df) ->
  length plan = length fleet_df ->
  admissible P plan ->
  exists V,
    feasible V (model st) = true /\
    forall i a w, fleet_df !! i = Some a -> plan !! i = Some w ->
      V (start_day st !!! aircraft_id a) = w.1 /\
      V (duration st !!! aircraft_id a) = w.2.
Proof.
  intros Hb Hnodup Hlen Hadm.
  exists (plan_assignment (PLANNING_HORIZON_DAYS P) plan).
  destruct (plan_feasible P fleet_df plan st _ Hb Hnodup Hlen Hadm
              (plan_assignment_follows P plan Hadm)) as [Hfeas Hrows].
  split; [exact Hfeas|].
  intros i a w Ha Hw. by destruct (Hrows i a w Ha Hw) as (_ & Hs & Hdu).
Qed.

Lemma plan_single_admissible : admissible params_one_day plan_single.
Proof.
  split.
  - unfold plan_single. repeat constructor; simpl; lia.
  - intros d Hd. unfold plan_single, count_if. simpl.
    destruct (in_window 0 1 d); lia.
Qed.

Lemma built_single_returned :
  build_model params_one_day fleet_one = Return built_single.
Proof. vm_compute. reflexivity. Qed.

Lemma admissible_plan_satisfies_model_witness :
  exists V,
    feasible V (model built_single) = true /\
    V (start_day built_single !!! "AIR-1001") = 0 /\
    V (duration built_single !!! "AIR-1001") = 1.
Proof.
  destruct (admissible_plan_satisfies_model params_one_day fleet_one
              plan_single built_single built_single_returned)
    as (V & Hfeas & Hrows).
  - apply (bool_decide_unpack _). vm_compute. exact I.
  - reflexivity.
  - exact plan_single_admissible.
  - exact (ex_intro _ V
             (conj Hfeas
                (Hrows 0%nat (aircraft "AIR-1001" 10) (0, 1) eq_refl eq_refl))).
Defined.

Lemma count_if_fmap {A B : Type} (f : B -> bool) (g : A -> B) l :
  count_if f (g <$> l) = count_if (fun x => f (g x)) l.
Proof. induction l as [|x l IH]; [done|]. simpl. by rewrite <- IH. Qed.

Lemma plan_of_admissible P fleet_df st Value :
  build_model P fleet_df = Return st ->
  feasible Value (model st) = true ->
  admissible P (plan_of st Value fleet_df).
Proof.
  intros Hb Hfeas. split.
  - apply Forall_fmap, Forall_forall. intros a Ha. simpl.
    destruct (proj1 (build_model_linked P fleet_df st Hb) (aircraft_id a))
      as (s & du & Hs & Hdu & Vs & Vdu & _).
    { by apply list_elem_of_fmap_2. }
    rewrite (lookup_total_correct _ _ _ Hs), (lookup_total_correct _ _ _ Hdu).
    apply feasible_spec in Hfeas as [Hdom _]. split; by apply Hdom.
  - intros d Hd. unfold plan_of. rewrite count_if_fmap. simpl.
    rewrite <- (count_if_fmap
                  (fun aid => in_window (Value (start_day st !!! aid))
                                        (Value (duration st !!! aid)) d)
                  aircraft_id).
    by apply (capacity_of_windows P fleet_df st Value d).
Qed.

(** X22.  With a solver that only reports assignments satisfying the model
    and that finds a solution of the built model if there is one, a fleet
    with distinct identifiers gets a schedule exactly when it has an
    admissible plan; when it has none the run raises the solve step's
    error. *)
Theorem schedule_iff_admissible_plan P Solve g c fleet_df parts_df st :
  build_model P fleet_df = Return st ->
  sound Solve -> complete Solve (model st) ->
  NoDup (aircraft_id <$> fleet_df) ->
  ((exists rows, generate_schedule P Solve g c fleet_df parts_df = Return rows)
   <-> exists plan, length plan = length fleet_df /\ admissible P plan) /\
  ((forall plan, length plan = length fleet_df -> ~ admissible P plan) ->
   generate_schedule P Solve g c fleet_df parts_df
   = Raise (RuntimeError "No feasible solution found")).
Proof.
  intros Hb Hsound Hcomplete Hnodup.
  assert (Hfwd : solved (Solve (model st)).1 = true ->
            exists plan, length plan = length fleet_df /\ admissible P plan).
  { intros Hst. exists (plan_of st (Solve (model st)).2 fleet_df).
    split; [unfold plan_of; by rewrite length_fmap|].
    apply plan_of_admissible; [exact Hb|].
    apply Hsound. destruct (Solve (model st)).1; try discriminate; auto. }
  split; [split|].
  - intros [rows (st' & em & Hb' & Hst & _)%generate_schedule_Return].
    rewrite Hb in Hb'. injection Hb' as <-. by apply Hfwd.
  - intros (plan & Hlen & Hadm).
    destruct (plan_feasible P fleet_df plan st _ Hb Hnodup Hlen Hadm
                (plan_assignment_follows P plan Hadm)) as [Hfeas _].
    apply Hcomplete in Hfeas.
    destruct (generate_schedule_solved P Solve g c fleet_df parts_df st Hb Hfeas)
      as (em & _ & E). by exists (schedule_rows em).
  - intros Hnone.
    apply (generate_schedule_unsolved P Solve g c fleet_df parts_df st Hb).
    destruct (solved (Solve (model st)).1) eqn:Hst; [|done].
    destruct (Hfwd eq_refl) as (plan & Hlen & Hadm).
    by destruct (Hnone plan Hlen).
Qed.

Lemma confident_solver_sound candidate : sound (confident_solver candidate).
Proof.
  intros m. unfold confident_solver.
  destruct (feasible candidate m) eqn:E; simpl; [done|].
  intros [?|?]; discriminate.
Qed.

Lemma schedule_iff_admissible_plan_witness :
  exists rows,
    generate_schedule params_one_day (confident_solver single_assignment)
      random_A clock_A fleet_one parts_A = Return rows.
Proof.
  apply (schedule_iff_admissible_plan params_one_day
           (confident_solver single_assignment) random_A clock_A
           fleet_one parts_A built_single built_single_returned).
  - apply confident_solver_sound.
  - intros V _. vm_compute. reflexivity.
  - apply (bool_decide_unpack _). vm_compute. exact I.
  - exists plan_single. split; [reflexivity|exact plan_single_admissible].
Defined.

(** * What an optimal answer looks like *)

Lemma built_objective P fleet_df st weights Value :
  build_model P fleet_df = Return st ->
  compute_weights fleet_df = Return weights ->
  exists terms,
    objective (model st) = Some terms /\
    eval Value terms = weighted_start_days st weights Value fleet_df.
Proof.
  intros (st0 & W & terms & _ & HW & Hterms & ->)%build_model_Return HW'.
  rewrite HW in HW'. injection HW' as ->.
  exists terms. split; [done|].
  apply mapM_Return in Hterms.
  exact (eval_objective_terms st0 weights Value fleet_df terms Hterms).
Qed.

Lemma weighted_plan st weights V fleet_df plan :
  length plan = length fleet_df ->
  (forall i a w, fleet_df !! i = Some a -> plan !! i = Some w ->
     V (start_day st !!! aircraft_id a) = w.1) ->
  weighted_start_days st weights V fleet_df
  = plan_objective weights fleet_df plan.
Proof.
  revert plan. induction fleet_df as [|a l IH]; intros [|w plan] Hlen Hrows;
    try done.
  unfold weighted_start_days, plan_objective. cbn [foldr zip_with fst snd].
  rewrite (Hrows 0%nat a w eq_refl eq_refl). f_equal.
  apply IH; [simpl in Hlen; lia|].
  intros i a' w' Ha' Hw'. exact (Hrows (S i) a' w' Ha' Hw').
Qed.

Lemma optimal_le_plan P Solve fleet_df plan st weights :
  build_model P fleet_df = Return st ->
  compute_weights fleet_df = Return weights ->
  optimal Solve (model st) ->
  (Solve (model st)).1 = OPTIMAL ->
  NoDup (aircraft_id <$> fleet_df) ->
  length plan = length fleet_df ->
  admissible P plan ->
  weighted_start_days st weights (Solve (model st)).2 fleet_df
  <= plan_objective weights fleet_df plan.
Proof.
  intros Hb HW Hopt Hst Hnodup Hlen Hadm.
  set (V := plan_assignment (PLANNING_HORIZON_DAYS P) plan).
  destruct (plan_feasible P fleet_df plan st V Hb Hnodup Hlen Hadm
              (plan_assignment_follows P plan Hadm)) as [Hfeas Hrows].
  destruct (built_objective P fleet_df st weights V Hb HW) as (terms & Hobj & HV).
  destruct (built_objective P fleet_df st weights (Solve (model st)).2 Hb HW)
    as (terms' & Hobj' & HS).
  rewrite Hobj in Hobj'. injection Hobj' as <-.
  rewrite <- HS, <- (weighted_plan st weights V fleet_df plan Hlen), <- HV.
  - by apply Hopt.
  - intros i a w Ha Hw. by destruct (Hrows i a w Ha Hw) as (_ & Hs & _).
Qed.

(** X23.  When the solver reports [OPTIMAL] and that means what it says, the
    weighted sum of start days it returns for a fleet with distinct
    identifiers is no larger than that of any admissible plan: no plan
    within the bounds and the capacity beats the schedule. *)
Theorem optimal_beats_every_plan P Solve fleet_df plan st weights :
  build_model P fleet_df = Return st ->
  compute_weights fleet_df = Return weights ->
  optimal Solve (model st) ->
  (Solve (model st)).1 = OPTIMAL ->
  NoDup (aircraft_id <$> fleet_df) ->
  length plan = length fleet_df ->
  admissible P plan ->
  weighted_start_days st weights (Solve (model st)).2 fleet_df
  <= plan_objective weights fleet_df plan.
Proof. apply optimal_le_plan. Qed.

Lemma built_R_returned :
  build_model params_one_crew fleet_reversed = Return built_R.
Proof. vm_compute. reflexivity. Qed.

Lemma weights_R_returned : compute_weights fleet_reversed = Return weights_R.
Proof. vm_compute. reflexivity. Qed.

(** With one crew and maintenance of one day the two aircraft of
    [fleet_reversed] cannot both start on day 0, so that no assignment
    satisfying the model costs less than starting the lighter one a day
    later. *)
Lemma urgent_first_optimal :
  optimal (confident_solver urgent_first_assignment) (model built_R).
Proof.
  intros terms V _ Hobj Hfeas.
  vm_compute in Hobj. injection Hobj as <-.
  assert (Hcap : count_if (fun w : Z * Z => in_window w.1 w.2 0)
                   [(V 0%nat, V 1%nat); (V 8%nat, V 9%nat)] <= 1).
  { exact (capacity_of_windows params_one_crew fleet_reversed built_R V 0
             built_R_returned Hfeas ltac:(simpl; lia)). }
  apply feasible_spec in Hfeas as [Hdom _].
  assert (Hs1 : has_var (model built_R) 0%nat 0 1) by reflexivity.
  assert (Hd1 : has_var (model built_R) 1%nat 1 1) by reflexivity.
  assert (Hs2 : has_var (model built_R) 8%nat 0 1) by reflexivity.
  assert (Hd2 : has_var (model built_R) 9%nat 1 1) by reflexivity.
  apply Hdom in Hs1, Hd1, Hs2, Hd2.
  change (eval (confident_solver urgent_first_assignment (model built_R)).2
            [(1, 0%nat); (66, 8%nat)]) with 1.
  unfold eval. cbn [foldr fst snd].
  destruct (decide (V 0%nat = 0)) as [E1|]; [|lia].
  destruct (decide (V 8%nat = 0)) as [E2|]; [|lia].
  exfalso. replace (V 1%nat) with 1 in Hcap by lia.
  replace (V 9%nat) with 1 in Hcap by lia.
  rewrite E1, E2 in Hcap. vm_compute in Hcap. by apply Hcap.
Qed.

Lemma optimal_beats_every_plan_witness :
  weighted_start_days built_R weights_R
    (confident_solver urgent_first_assignment (model built_R)).2 fleet_reversed
  <= plan_objective weights_R fleet_reversed plan_listed /\
  weighted_start_days built_R weights_R
    (confident_solver urgent_first_assignment (model built_R)).2 fleet_reversed
  = 1 /\
  plan_objective weights_R fleet_reversed plan_listed = 66.
Proof.
  split; [|split; vm_compute; reflexivity].
  apply (optimal_beats_every_plan params_one_crew
           (confident_solver urgent_first_assignment) fleet_reversed
           plan_listed built_R weights_R built_R_returned weights_R_returned).
  - exact urgent_first_optimal.
  - vm_compute. reflexivity.
  - apply (bool_decide_unpack _). vm_compute. exact I.
  - reflexivity.
  - split.
    + repeat constructor; simpl; lia.
    + intros d Hd. simpl in Hd.
      assert (d = 0 \/ d = 1) as [->| ->] by lia; vm_compute; discriminate.
Defined.

Lemma weight_at_least_one fleet_df weights a :
  compute_weights fleet_df = Return weights -> a ∈ fleet_df ->
  1 <= weights !!! aircraft_id a.
Proof.
  intros HW Ha. unfold compute_weights in HW.
  destruct (weights_member _ _ _ _ (aircraft_id a) HW)
    as (b & w & _ & _ & [_ ->]%weight_of_Return & Hw).
  { by apply list_elem_of_fmap_2. }
  rewrite (lookup_total_correct _ _ _ Hw). lia.
Qed.

Lemma weighted_zero st weights V l :
  (forall a, a ∈ l -> 0 <= V (start_day st !!! aircraft_id a) /\
                      1 <= weights !!! aircraft_id a) ->
  weighted_start_days st weights V l <= 0 ->
  forall a, a ∈ l -> V (start_day st !!! aircraft_id a) = 0.
Proof.
  induction l as [|b l IH]; intros Hall Hsum a Ha; [by apply elem_of_nil in Ha|].
  unfold weighted_start_days in Hsum. cbn [foldr] in Hsum.
  fold (weighted_start_days st weights V l) in Hsum.
  assert (Hrest : 0 <= weighted_start_days st weights V l).
  { clear -Hall. induction l as [|c l IH]; [unfold weighted_start_days; simpl; lia|].
    unfold weighted_start_days. cbn [foldr].
    fold (weighted_start_days st weights V l).
    assert (0 <= weighted_start_days st weights V l).
    { apply IH. intros a [->|Ha]%elem_of_cons; apply Hall.
      - left.
      - right. by right. }
    destruct (Hall c) as [H1 H2]; [right; left|]. nia. }
  destruct (Hall b) as [Hb1 Hb2]; [left|].
  apply elem_of_cons in Ha as [->|Ha].
  - nia.
  - apply IH; [|nia|exact Ha]. intros c Hc. apply Hall. by right.
Qed.

Lemma count_if_le_length {A : Type} (f : A -> bool) l :
  count_if f l <= Z.of_nat (length l).
Proof.
  induction l as [|x l IH]; [simpl; lia|].
  rewrite count_if_cons. simpl length. destruct (f x); lia.
Qed.

Lemma plan_objective_at_once weights fleet_df du :
  plan_objective weights fleet_df (replicate (length fleet_df) (0, du)) = 0.
Proof.
  unfold plan_objective. induction fleet_df as [|a l IH]; [done|].
  simpl. rewrite IH. lia.
Qed.

(** X24.  When the crews can take the whole fleet at once, an optimal
    schedule starts every aircraft on day 0: with distinct identifiers, no
    more fleet rows than [CREW_AVAILABLE], a horizon of at least a day and an
    allowed duration, a solver that reports [OPTIMAL] truthfully returns rows
    that all start on the first day. *)
Theorem whole_fleet_starts_at_once P Solve g c fleet_df parts_df st :
  build_model P fleet_df = Return st ->
  sound Solve -> optimal Solve (model st) ->
  (Solve (model st)).1 = OPTIMAL ->
  NoDup (aircraft_id <$> fleet_df) ->
  Z.of_nat (length fleet_df) <= CREW_AVAILABLE P ->
  1 <= PLANNING_HORIZON_DAYS P ->
  MAINT_DURATION_MIN P <= MAINT_DURATION_MAX P ->
  exists rows,
    generate_schedule P Solve g c fleet_df parts_df = Return rows /\
    forall i t, rows !! i = Some t -> row_start_day c i t = 0.
Proof.
  intros Hb Hsound Hopt Hst Hnodup Hcrew Hh Hdur.
  assert (Hsolved : solved (Solve (model st)).1 = true) by (by rewrite Hst).
  destruct (generate_schedule_solved P Solve g c fleet_df parts_df st Hb Hsolved)
    as (em & Hem & Hrun).
  exists (schedule_rows em). split; [exact Hrun|].
  set (V := (Solve (model st)).2) in *.
  assert (Hfeas : feasible V (model st) = true).
  { apply Hsound. by left. }
  destruct (compute_weights_total fleet_df) as [W HW].
  { intros Hzero. destruct fleet_df as [|a l]; [by vm_compute in Hzero|].
    rewrite build_model_zero in Hb; [discriminate|done|exact Hzero]. }
  set (plan := replicate (length fleet_df) (0, MAINT_DURATION_MIN P)).
  assert (Hadm : admissible P plan).
  { split.
    - apply Forall_replicate. simpl. lia.
    - intros d Hd. etrans; [apply count_if_le_length|].
      unfold plan. by rewrite length_replicate. }
  assert (Hsum : weighted_start_days st W V fleet_df <= 0).
  { rewrite <- (plan_objective_at_once W fleet_df (MAINT_DURATION_MIN P)).
    apply (optimal_le_plan P Solve fleet_df plan st W); try done.
    unfold plan. by rewrite length_replicate. }
  assert (Hzero : forall a, a ∈ fleet_df -> V (start_day st !!! aircraft_id a) = 0).
  { apply (weighted_zero st W V fleet_df); [|exact Hsum].
    intros a Ha. split; [|by eapply weight_at_least_one].
    destruct (proj1 (build_model_linked P fleet_df st Hb) (aircraft_id a))
      as (s & du & Hs & _ & Vs & _).
    { by apply list_elem_of_fmap_2. }
    rewrite (lookup_total_correct _ _ _ Hs).
    apply feasible_spec in Hfeas as [Hdom _]. apply Hdom in Vs. lia. }
  intros i t Ht.
  destruct (emit_loop_rows _ _ _ _ _ Hem) as (new & Hrows & Hlen & _ & _ & _ & Hnew).
  simpl in Hrows, Hnew. rewrite Hrows in Ht.
  assert (Hi : (i < length fleet_df)%nat).
  { rewrite <- Hlen. by eapply lookup_lt_Some. }
  destruct (lookup_lt_is_Some_2 fleet_df i Hi) as [a Ha].
  destruct (Hnew i a Ha) as (t' & s & du & Ht' & Hs & _ & _ & _ & Hstart & _).
  assert (t' = t) as -> by congruence.
  unfold row_start_day. rewrite Hstart. simpl.
  pose proof (Hzero a (list_elem_of_lookup_2 _ _ _ Ha)) as Hz.
  rewrite (lookup_total_correct _ _ _ Hs) in Hz. fold V. lia.
Qed.

Lemma built_B_returned : build_model params_two_crews fleet_B = Return built_B.
Proof. vm_compute. reflexivity. Qed.

Lemma both_solver_optimal :
  optimal (confident_solver both_assignment) (model built_B).
Proof.
  intros terms V _ Hobj Hfeas.
  vm_compute in Hobj. injection Hobj as <-.
  apply feasible_spec in Hfeas as [Hdom _].
  assert (Hv1 : has_var (model built_B) 0%nat 0 1) by reflexivity.
  assert (Hv2 : has_var (model built_B) 8%nat 0 1) by reflexivity.
  apply Hdom in Hv1, Hv2.
  change (eval (confident_solver both_assignment (model built_B)).2
            [(66, 0%nat); (1, 8%nat)]) with 0.
  unfold eval. simpl. lia.
Qed.

Lemma whole_fleet_starts_at_once_witness :
  has_var (model built_B) 0%nat 0 1 /\ has_var (model built_B) 8%nat 0 1 /\
  exists rows,
    generate_schedule params_two_crews (confident_solver both_assignment)
      random_A clock_A fleet_B parts_A = Return rows /\
    forall i t, rows !! i = Some t -> row_start_day clock_A i t = 0.
Proof.
  split; [reflexivity|]. split; [reflexivity|].
  apply (whole_fleet_starts_at_once params_two_crews
           (confident_solver both_assignment) random_A clock_A fleet_B
           parts_A built_B built_B_returned).
  - apply confident_solver_sound.
  - exact both_solver_optimal.
  - vm_compute. reflexivity.
  - apply (bool_decide_unpack _). vm_compute. exact I.
  - simpl. lia.
  - simpl. lia.
  - simpl. lia.
Defined.

(** ** Urgent aircraft are not started later *)

Lemma count_if_insert {A : Type} (f : A -> bool) l i x y :
  l !! i = Some x ->
  count_if f (<[i := y]> l)
  = count_if f l - indicator (f x) + indicator (f y).
Proof.
  revert i. induction l as [|z l IH]; intros [|i] Hx; try done.
  - injection Hx as ->. simpl. unfold indicator. lia.
  - change (<[S i := y]> (z :: l)) with (z :: <[i := y]> l).
    rewrite !count_if_cons, (IH i Hx). lia.
Qed.

Lemma lookup_swapped_inner {A : Type} (l : list A) i j x y :
  l !! i = Some x -> l !! j = Some y -> <[j := x]> l !! i = Some x.
Proof.
  intros Hi Hj. destruct (decide (i = j)) as [->|Hne].
  - apply list_lookup_insert_eq. by eapply lookup_lt_Some.
  - by rewrite list_lookup_insert_ne.
Qed.

Lemma count_if_swapped {A : Type} (f : A -> bool) i j l :
  count_if f (swapped i j l) = count_if f l.
Proof.
  unfold swapped. destruct (l !! i) as [x|] eqn:Hi; [|done].
  destruct (l !! j) as [y|] eqn:Hj; [|done].
  rewrite (count_if_insert f _ i x y) by (by eapply lookup_swapped_inner).
  rewrite (count_if_insert f l j y x Hj). lia.
Qed.

Lemma Forall_swapped {A : Type} (Q : A -> Prop) i j l :
  Forall Q l -> Forall Q (swapped i j l).
Proof.
  intros Hall. unfold swapped. destruct (l !! i) as [x|] eqn:Hi; [|done].
  destruct (l !! j) as [y|] eqn:Hj; [|done].
  apply Forall_insert; [apply Forall_insert; [done|]|].
  - by eapply Forall_lookup_1.
  - by eapply Forall_lookup_1.
Qed.

Lemma length_swapped {A : Type} i j (l : list A) :
  length (swapped i j l) = length l.
Proof.
  unfold swapped. destruct (l !! i); [|done]. destruct (l !! j); [|done].
  by rewrite !length_insert.
Qed.

Lemma admissible_swapped P plan i j :
  admissible P plan -> admissible P (swapped i j plan).
Proof.
  intros [Hb Hcap]. split; [by apply Forall_swapped|].
  intros d Hd. rewrite count_if_swapped. by apply Hcap.
Qed.

Lemma plan_objective_insert weights fleet_df plan i a w y :
  fleet_df !! i = Some a -> plan !! i = Some w ->
  plan_objective weights fleet_df (<[i := y]> plan)
  = plan_objective weights fleet_df plan
    + (y.1 - w.1) * (weights !!! aircraft_id a).
Proof.
  unfold plan_objective. revert i plan.
  induction fleet_df as [|b l IH]; intros [|i] [|v plan] Ha Hw; try done.
  - injection Ha as ->. injection Hw as ->. simpl. lia.
  - change (<[S i := y]> (v :: plan)) with (v :: <[i := y]> plan).
    cbn [zip_with foldr fst snd]. rewrite (IH i plan Ha Hw). lia.
Qed.

Lemma plan_objective_swapped weights fleet_df plan i j a b wi wj :
  i <> j ->
  fleet_df !! i = Some a -> fleet_df !! j = Some b ->
  plan !! i = Some wi -> plan !! j = Some wj ->
  plan_objective weights fleet_df (swapped i j plan)
  = plan_objective weights fleet_df plan
    - (wi.1 - wj.1)
      * (weights !!! aircraft_id a - weights !!! aircraft_id b).
Proof.
  intros Hne Ha Hb Hi Hj. unfold swapped. rewrite Hi, Hj.
  rewrite (plan_objective_insert weights fleet_df _ i a wi wj Ha)
    by (by rewrite list_lookup_insert_ne).
  rewrite (plan_objective_insert weights fleet_df plan j b wj wi Hb Hj). lia.
Qed.

Lemma urgent_not_later P Solve fleet_df st weights i j a b :
  build_model P fleet_df = Return st ->
  compute_weights fleet_df = Return weights ->
  sound Solve -> optimal Solve (model st) ->
  (Solve (model st)).1 = OPTIMAL ->
  NoDup (aircraft_id <$> fleet_df) ->
  fleet_df !! i = Some a -> fleet_df !! j = Some b ->
  weights !!! aircraft_id b < weights !!! aircraft_id a ->
  (Solve (model st)).2 (start_day st !!! aircraft_id a)
  <= (Solve (model st)).2 (start_day st !!! aircraft_id b).
Proof.
  intros Hb HW Hsound Hopt Hst Hnodup Ha Hb' Hw.
  set (V := (Solve (model st)).2).
  destruct (Z.le_gt_cases (V (start_day st !!! aircraft_id a))
              (V (start_day st !!! aircraft_id b))) as [|Hlater]; [done|].
  exfalso.
  assert (Hfeas : feasible V (model st) = true) by (apply Hsound; by left).
  set (plan := plan_of st V fleet_df).
  assert (Hadm : admissible P plan) by (by apply plan_of_admissible).
  assert (Hlen : length plan = length fleet_df)
    by (unfold plan, plan_of; by rewrite length_fmap).
  assert (Hi : plan !! i = Some (V (start_day st !!! aircraft_id a),
                                 V (duration st !!! aircraft_id a))).
  { unfold plan, plan_of. by rewrite list_lookup_fmap, Ha. }
  assert (Hj : plan !! j = Some (V (start_day st !!! aircraft_id b),
                                 V (duration st !!! aircraft_id b))).
  { unfold plan, plan_of. by rewrite list_lookup_fmap, Hb'. }
  assert (Hne : i <> j).
  { intros ->. rewrite Ha in Hb'. injection Hb' as ->. lia. }
  pose proof (optimal_le_plan P Solve fleet_df (swapped i j plan) st weights
                Hb HW Hopt Hst Hnodup) as Hbest.
  rewrite length_swapped in Hbest.
  specialize (Hbest Hlen (admissible_swapped P plan i j Hadm)).
  rewrite (plan_objective_swapped weights fleet_df plan i j a b _ _
             Hne Ha Hb' Hi Hj) in Hbest.
  rewrite <- (weighted_plan st weights V fleet_df plan Hlen) in Hbest.
  - fold V in Hbest. simpl in Hbest. nia.
  - intros k c w Hc Hk. unfold plan, plan_of in Hk.
    rewrite list_lookup_fmap, Hc in Hk. by injection Hk as <-.
Qed.

(** X25.  An optimal schedule never starts a heavier aircraft after a
    lighter one.  With distinct identifiers and a solver that reports
    [OPTIMAL] truthfully, whenever one aircraft's weight is larger than
    another's (it has fewer hours left), its row does not start later:
    exchanging the two windows would give an admissible plan with a smaller
    objective. *)
Theorem urgent_aircraft_not_later P Solve g c fleet_df parts_df st weights rows
    i j a b t t' :
  build_model P fleet_df = Return st ->
  compute_weights fleet_df = Return weights ->
  sound Solve -> optimal Solve (model st) ->
  (Solve (model st)).1 = OPTIMAL ->
  NoDup (aircraft_id <$> fleet_df) ->
  generate_schedule P Solve g c fleet_df parts_df = Return rows ->
  fleet_df !! i = Some a -> fleet_df !! j = Some b ->
  rows !! i = Some t -> rows !! j = Some t' ->
  weights !!! aircraft_id b < weights !!! aircraft_id a ->
  row_start_day c i t <= row_start_day c j t'.
Proof.
  intros Hb HW Hsound Hopt Hst Hnodup Hrun Ha Hb' Ht Ht' Hw.
  pose proof (urgent_not_later P Solve fleet_df st weights i j a b
                Hb HW Hsound Hopt Hst Hnodup Ha Hb' Hw) as Hle.
  apply generate_schedule_Return in Hrun as (st' & em & Hbm & _ & Hem & ->).
  rewrite Hb in Hbm. injection Hbm as <-.
  destruct (emit_loop_rows _ _ _ _ _ Hem) as (new & Hrows & _ & _ & _ & _ & Hnew).
  simpl in Hrows, Hnew. rewrite Hrows in Ht, Ht'.
  destruct (Hnew i a Ha) as (t1 & s1 & du1 & Ht1 & Hs1 & _ & _ & _ & Hstart1 & _).
  destruct (Hnew j b Hb') as (t2 & s2 & du2 & Ht2 & Hs2 & _ & _ & _ & Hstart2 & _).
  assert (t1 = t) as -> by congruence. assert (t2 = t') as -> by congruence.
  rewrite (lookup_total_correct _ _ _ Hs1), (lookup_total_correct _ _ _ Hs2) in Hle.
  unfold row_start_day. rewrite Hstart1, Hstart2. simpl. lia.
Qed.

Lemma urgent_aircraft_not_later_witness :
  exists t t',
    rows_R !! 1%nat = Some t /\ rows_R !! 0%nat = Some t' /\
    row_start_day clock_A 1 t <= row_start_day clock_A 0 t' /\
    row_start_day clock_A 1 t = 0 /\ row_start_day clock_A 0 t' = 1.
Proof.
  destruct (rows_R !! 1%nat) as [t|] eqn:Ht; [|vm_compute in Ht; discriminate].
  destruct (rows_R !! 0%nat) as [t'|] eqn:Ht'; [|vm_compute in Ht'; discriminate].
  exists t, t'. split; [reflexivity|]. split; [reflexivity|].
  split; [|vm_compute in Ht, Ht'; injection Ht as <-; injection Ht' as <-;
           split; reflexivity].
  apply (urgent_aircraft_not_later params_one_crew
           (confident_solver urgent_first_assignment) random_A clock_A
           fleet_reversed parts_A built_R weights_R rows_R 1 0
           (aircraft "AIR-1001" 1) (aircraft "AIR-1002" 3) t t'
           built_R_returned weights_R_returned).
  - apply confident_solver_sound.
  - exact urgent_first_optimal.
  - vm_compute. reflexivity.
  - apply (bool_decide_unpack _). vm_compute. exact I.
  - vm_compute. reflexivity.
  - reflexivity.
  - reflexivity.
  - exact Ht.
  - exact Ht'.
  - vm_compute. reflexivity.
Defined.
